(** * Healthcare platform backend: authorization, listing and mutation safeguards

    A shallow embedding of the Express route handlers and middlewares of the
    backend (middleware/authMiddleware.js, routes/employeeRoutes.js,
    routes/eventRoutes.js, routes/practitionerRoutes.js, the public listing
    routes and routes/uploadRoutes.js) together with the Mongoose schemas they
    rely on, and the properties proved about them.

    Conventions.
    - JavaScript strings are [string].  Numbers that are integers by
      construction (counts, timestamps in milliseconds, the numbers of a
      stored document) are [Z]; a number that a handler computes from the
      text of a request is a [Js.Number], a double that is an integer, an
      infinity or [NaN].
    - [req], [res] and [next] become explicit values: a middleware is a
      function from the request to a [Step], either [CallNext] or
      [Respond r].
    - Library code that is not part of the repository (jsonwebtoken, the
      regular-expression engine of the store, bcrypt, WHATWG URL parsing,
      calendar arithmetic of [Date]) is taken as a [Variable] of the
      enclosing [Section].
    - A collection is the list of its documents; a document is a record of
      the paths of its schema.  Paths that no modelled route reads or writes
      ([lastLogin], [profileImage], the reset token of a user) and the
      version key of Mongoose are left out.
    - An exception is a value of [Js.Exn]; a call that may throw returns a
      [Js.Try], and the [catch] block of a handler is the branch on [Threw]. *)

From Stdlib Require Import ZArith Ascii String DecimalString DecimalPos DecimalN.
From Stdlib Require Import List Bool Lia.
From stdpp Require Import base option list strings gmap.

Local Open Scope string_scope.
Local Open Scope Z_scope.

(** ** JavaScript primitives used by the handlers *)

Module Js.

(** The double-quote character, as a string. *)
Definition dquote : string := String (ascii_of_nat 34) EmptyString.

(** Truthiness of a string value: only the empty string is falsy. *)
Definition truthy (s : string) : bool := negb (String.eqb s "").

(** [String.prototype.startsWith]. *)
Definition startsWith (p s : string) : bool := String.prefix p s.

(** [String.prototype.includes]: [needle] occurs somewhere in [hay]. *)
Fixpoint includes (needle hay : string) : bool :=
  String.prefix needle hay
  || match hay with
     | EmptyString => false
     | String _ rest => includes needle rest
     end.

(** [s.split(sep)] for a one-character separator. *)
Fixpoint split_aux (sep : ascii) (cur : string) (s : string) : list string :=
  match s with
  | EmptyString => [cur]
  | String c rest =>
      if Ascii.eqb c sep
      then cur :: split_aux sep EmptyString rest
      else split_aux sep (cur +:+ String c EmptyString) rest
  end.

Definition split (sep : ascii) (s : string) : list string :=
  split_aux sep EmptyString s.

(** ASCII lower-casing, the folding behind the [i] flag on ASCII text. *)
Definition lower_ascii (c : ascii) : ascii :=
  let n := nat_of_ascii c in
  if (Nat.leb 65 n && Nat.leb n 90)%bool then ascii_of_nat (n + 32) else c.

Fixpoint toLowerCase (s : string) : string :=
  match s with
  | EmptyString => EmptyString
  | String c rest => String (lower_ascii c) (toLowerCase rest)
  end.

(** White space recognised by [trim] and [parseInt] (ASCII part). *)
Definition is_space (c : ascii) : bool :=
  let n := nat_of_ascii c in
  (Nat.eqb n 32 || (Nat.leb 9 n && Nat.leb n 13))%bool.

Fixpoint trimStart (s : string) : string :=
  match s with
  | String c rest => if is_space c then trimStart rest else s
  | EmptyString => EmptyString
  end.

Fixpoint trimEnd (s : string) : string :=
  match s with
  | EmptyString => EmptyString
  | String c rest =>
      match trimEnd rest with
      | EmptyString => if is_space c then EmptyString else String c EmptyString
      | r => String c r
      end
  end.

Definition trim (s : string) : string := trimEnd (trimStart s).

(** A JavaScript number is a double.  The handlers compute with integers:
    a double holds every integer from [-2^53] to [2^53] exactly, and beyond
    that range an operation yields the double next to its exact result,
    which is again an integer or an infinity. *)
Inductive Number : Type :=
| Int (n : Z)
| Infinity (negative : bool)
| NaN.

Definition exact (n : Z) : bool := Z.abs n <=? 2 ^ 53.

(** What the engine makes of an integer that a double need not hold:
    [rounded n] is the result of an arithmetic operation whose exact value
    is [n], and [parsed radix n] is what [parseInt] returns for digits that
    denote [n] in that radix. *)
Record Rounding : Type := mkRounding {
  parsed : Z → Z → Number;
  rounded : Z → Number
}.

(** The digits of [parseInt(s, 10)]: the longest run of decimal digits, read
    as an integer; [None] when there is no digit. *)
Definition digit_of (c : ascii) : option Z :=
  let n := nat_of_ascii c in
  if (Nat.leb 48 n && Nat.leb n 57)%bool then Some (Z.of_nat (n - 48)) else None.

Fixpoint digits (acc : Z) (s : string) : Z :=
  match s with
  | EmptyString => acc
  | String c rest =>
      match digit_of c with
      | Some d => digits (10 * acc + d) rest
      | None => acc
      end
  end.

Definition unsigned_int (s : string) : option Z :=
  match s with
  | EmptyString => None
  | String c _ =>
      match digit_of c with
      | Some _ => Some (digits 0 s)
      | None => None
      end
  end.

(** The digits of [parseInt(s)] without a radix: as above, except that a
    [0x] prefix announces hexadecimal digits. *)
Definition hex_digit_of (c : ascii) : option Z :=
  let n := nat_of_ascii c in
  if (Nat.leb 48 n && Nat.leb n 57)%bool then Some (Z.of_nat (n - 48))
  else if (Nat.leb 97 n && Nat.leb n 102)%bool then Some (Z.of_nat (n - 87))
  else if (Nat.leb 65 n && Nat.leb n 70)%bool then Some (Z.of_nat (n - 55))
  else None.

Fixpoint hex_digits (acc : Z) (s : string) : Z :=
  match s with
  | EmptyString => acc
  | String c rest =>
      match hex_digit_of c with
      | Some d => hex_digits (16 * acc + d) rest
      | None => acc
      end
  end.

Definition hexadecimal (s : string) : bool :=
  match s with
  | String "0" (String x _) => (Ascii.eqb x "x" || Ascii.eqb x "X")%bool
  | _ => false
  end.

Definition unsigned_auto (s : string) : option Z :=
  match s with
  | String "0" (String x rest) =>
      if (Ascii.eqb x "x" || Ascii.eqb x "X")%bool
      then match rest with
           | String c _ =>
               match hex_digit_of c with
               | Some _ => Some (hex_digits 0 rest)
               | None => None
               end
           | EmptyString => None
           end
      else unsigned_int s
  | _ => unsigned_int s
  end.

Section Arithmetic.

Variable rounding : Rounding.

(** The number that an operation returns when its exact result is [n]. *)
Definition number (n : Z) : Number :=
  if exact n then Int n else rounded rounding n.

(** [a - b] and [a * b]. *)
Definition sub (a b : Number) : Number :=
  match a, b with
  | NaN, _ | _, NaN => NaN
  | Int x, Int y => number (x - y)
  | Infinity s, Int _ => Infinity s
  | Int _, Infinity s => Infinity (negb s)
  | Infinity s, Infinity s' => if Bool.eqb s s' then NaN else Infinity s
  end.

Definition mul (a b : Number) : Number :=
  match a, b with
  | NaN, _ | _, NaN => NaN
  | Int x, Int y => number (x * y)
  | Infinity s, Int y | Int y, Infinity s =>
      if y =? 0 then NaN else Infinity (xorb s (y <? 0))
  | Infinity s, Infinity s' => Infinity (xorb s s')
  end.

(** The number that [parseInt] returns for a sign and digits. *)
Definition signed (radix : Z) (negative : bool) (n : option Z) : Number :=
  match n with
  | Some z =>
      let value := if negative then - z else z in
      if exact value then Int value else parsed rounding radix value
  | None => NaN
  end.

(** [parseInt(s, 10)]: leading white space, an optional sign, then the
    longest run of decimal digits. *)
Definition parseInt (s : string) : Number :=
  match trimStart s with
  | String "-" rest => signed 10 true (unsigned_int rest)
  | String "+" rest => signed 10 false (unsigned_int rest)
  | t => signed 10 false (unsigned_int t)
  end.

(** [parseInt(s)] without a radix. *)
Definition parseIntAuto (s : string) : Number :=
  match trimStart s with
  | String "-" rest =>
      signed (if hexadecimal rest then 16 else 10) true (unsigned_auto rest)
  | String "+" rest =>
      signed (if hexadecimal rest then 16 else 10) false (unsigned_auto rest)
  | t => signed (if hexadecimal t then 16 else 10) false (unsigned_auto t)
  end.

(** [parseInt(x, 10) || d] where [x] may be [undefined]: [NaN] and [0] are
    falsy. *)
Definition parseIntOr (x : option string) (d : Z) : Number :=
  match x with
  | Some s =>
      match parseInt s with
      | NaN => Int d
      | Int n => if n =? 0 then Int d else Int n
      | Infinity negative => Infinity negative
      end
  | None => Int d
  end.

End Arithmetic.

(** [Math.ceil(a / b)] on integers, for [b <> 0]. *)
Definition ceil_div (a b : Z) : Z := - ((- a) / b).

(** JavaScript values as they appear in request bodies, stored documents
    and JSON responses.  Numbers are the integers the handlers work with;
    [VDate] holds milliseconds since the epoch; an object keeps its keys in
    insertion order. *)
#[local] Set Warnings "-register-all".
Inductive Value : Type :=
| VNull
| VBool (b : bool)
| VNum (n : Z)
| VStr (s : string)
| VDate (ms : Z)
| VArr (items : list Value)
| VObj (fields : list (string * Value)).

(** Property read [o.k]; [None] is [undefined]. *)
Fixpoint assoc (k : string) (fields : list (string * Value)) : option Value :=
  match fields with
  | [] => None
  | (k', v) :: rest => if String.eqb k k' then Some v else assoc k rest
  end.

Definition field (k : string) (v : Value) : option Value :=
  match v with
  | VObj fields => assoc k fields
  | _ => None
  end.

(** Whether a key occurs anywhere inside a value. *)
Fixpoint hasKey (k : string) (v : Value) {struct v} : bool :=
  match v with
  | VArr items =>
      (fix any (l : list Value) : bool :=
         match l with
         | [] => false
         | x :: l' => hasKey k x || any l'
         end) items
  | VObj fields =>
      (fix any (l : list (string * Value)) : bool :=
         match l with
         | [] => false
         | (k', x) :: l' => String.eqb k k' || hasKey k x || any l'
         end) fields
  | _ => false
  end.

(** Truthiness of a value that may be [undefined]. *)
Definition truthyV (v : option Value) : bool :=
  match v with
  | None | Some VNull => false
  | Some (VBool b) => b
  | Some (VNum n) => negb (Z.eqb n 0)
  | Some (VStr s) => truthy s
  | Some (VDate _) | Some (VArr _) | Some (VObj _) => true
  end.

(** A number as JSON writes it: [null] for [NaN] and for the infinities. *)
Definition toValue (n : Number) : Value :=
  match n with
  | Int z => VNum z
  | Infinity _ | NaN => VNull
  end.

(** [Math.ceil(total / limit)] as JSON writes it, for the count [total] of a
    collection: a count is far below [2^53], so the quotient by an integer
    rounds to no other integer than its ceiling; a zero [limit] gives an
    infinity or [NaN], an infinite one gives zero. *)
Definition ceilRatio (total : Z) (limit : Number) : Value :=
  match limit with
  | Int l => if l =? 0 then VNull else VNum (ceil_div total l)
  | Infinity _ => VNum 0
  | NaN => VNull
  end.

(** The exceptions that reach the [catch] blocks of the handlers, with the
    properties that those blocks inspect ([name], [kind], [code]). *)
Inductive Exn : Type :=
| CastError (kind : string) (msg : string)
| ValidationError (model : string) (errors : list (string * string))
| MongoError (name : string) (code : Z) (msg : string)
| TypeError (msg : string)
| SystemError (code : string) (msg : string).

(** [err.message]; a validation error names its model and lists its paths
    with their messages. *)
Definition message (e : Exn) : string :=
  match e with
  | CastError _ msg => msg
  | ValidationError model errors =>
      (if String.eqb model "" then "Validation failed: "
       else model +:+ " validation failed: ")
      +:+ String.concat ", " ((λ pm, pm.1 +:+ ": " +:+ pm.2) <$> errors)
  | MongoError _ _ msg => msg
  | TypeError msg => msg
  | SystemError _ msg => msg
  end.

(** [err.name]. *)
Definition name (e : Exn) : string :=
  match e with
  | CastError _ _ => "CastError"
  | ValidationError _ _ => "ValidationError"
  | MongoError n _ _ => n
  | TypeError _ => "TypeError"
  | SystemError _ _ => "Error"
  end.

(** Result of a call that may throw. *)
Inductive Try (A : Type) : Type :=
| Returned (a : A)
| Threw (error : Exn).
Arguments Returned {A} a.
Arguments Threw {A} error.

End Js.

(** ** HTTP plumbing: responses and middleware chaining *)

Module Http.

Import Js.

(** What the handler sends: the headers given to [res.set], the status and
    the JSON body. *)
Record Response : Type := mkResponse {
  headers : list (string * string);
  status : Z;
  body : Value
}.

(** [res.status(c).json(body)]. *)
Definition json (c : Z) (b : Value) : Response := mkResponse [] c b.

(** The error envelope [{ success: false, message }]. *)
Definition failure (c : Z) (msg : string) : Response :=
  json c (VObj [("success", VBool false); ("message", VStr msg)]).

(** A middleware either hands over to the next handler or answers. *)
Inductive Step : Type :=
| CallNext
| Respond (r : Response).

(** The decision of a middleware: [None] lets the request through, [Some c]
    refuses it with status [c]. *)
Definition decision (s : Step) : option Z :=
  match s with
  | CallNext => None
  | Respond r => Some (status r)
  end.

End Http.


(** ** Query operators of the document store *)

Module Mongo.

Import Js.

(** Characters with a special meaning in a regular expression. *)
Definition metachars : string := "\^$.|?*+()[]{}".

Fixpoint literal (p : string) : bool :=
  match p with
  | EmptyString => true
  | String c rest => negb (includes (String c EmptyString) metachars) && literal rest
  end.

(** The [CastError] of a filter object that compares a path of type Number
    with [NaN]. *)
Definition numberError (path model : string) : Exn :=
  CastError "Number"
    ("Cast to Number failed for value " +:+ dquote +:+ "NaN" +:+ dquote
     +:+ " (type number) at path " +:+ dquote +:+ path +:+ dquote
     +:+ " for model " +:+ dquote +:+ model +:+ dquote).

(** The [CastError] of a query by [_id] whose value is no [ObjectId]. *)
Definition objectIdError (value model : string) : Exn :=
  CastError "ObjectId"
    ("Cast to ObjectId failed for value " +:+ value +:+ " at path _id for model "
     +:+ model).

(** Stable insertion sort; [le x y] says that [x] may come before [y]. *)
Fixpoint insert_by {A : Type} (le : A → A → bool) (x : A) (l : list A) : list A :=
  match l with
  | [] => [x]
  | y :: rest => if le x y then x :: y :: rest else y :: insert_by le x rest
  end.

Definition sort_by {A : Type} (le : A → A → bool) (l : list A) : list A :=
  List.fold_right (insert_by le) [] l.

Section Engine.

(** The regular-expression engine of the store under option [i], consulted
    for patterns that contain metacharacters. *)
Variable regexEngine : string → string → bool.

(** [{ $regex: p, $options: 'i' }] on a string: a pattern made of ordinary
    characters matches when it occurs in the subject, letter case aside. *)
Definition regexMatch (p subject : string) : bool :=
  if literal p then includes (toLowerCase p) (toLowerCase subject)
  else regexEngine p subject.

(** The error that the store reports for a pattern that does not compile. *)
Variable regexError : string → option Exn.

Definition badPattern (p : string) : option Exn :=
  if literal p then None else regexError p.

(** What the driver does with a [skip] or [limit] outside the documented
    range (negative, zero or [NaN]): it throws, or runs the query with an
    effective offset and an optional cap. *)
Variable oddWindow : option Z → option Z → Try (nat * option nat).

Definition cut {A : Type} (offset : nat) (cap : option nat) (l : list A) : list A :=
  match cap with
  | Some n => take n (drop offset l)
  | None => drop offset l
  end.

(** [.skip(s).limit(n)] applied to the ordered matches; [None] is [NaN]. *)
Definition window {A : Type} (s n : option Z) (l : list A) : Try (list A) :=
  let odd :=
    match oddWindow s n with
    | Threw e => Threw e
    | Returned (offset, cap) => Returned (cut offset cap l)
    end in
  match s, n with
  | Some s', Some n' =>
      if (0 <=? s') && (0 <? n')
      then Returned (cut (Z.to_nat s') (Some (Z.to_nat n')) l)
      else odd
  | _, _ => odd
  end.

(** What the driver does with a [skip] or a [limit] beyond the integers
    that a number holds exactly, the infinities included. *)
Variable unboundedWindow : Number → Number → Try (nat * option nat).

(** [.skip(s).limit(n)] with the numbers that a handler computed. *)
Definition windowOf {A : Type} (s n : Number) (l : list A) : Try (list A) :=
  let unbounded :=
    match unboundedWindow s n with
    | Threw e => Threw e
    | Returned (offset, cap) => Returned (cut offset cap l)
    end in
  match s, n with
  | Int s', Int n' =>
      if exact s' && exact n' then window (Some s') (Some n') l else unbounded
  | Int s', NaN => if exact s' then window (Some s') None l else unbounded
  | NaN, Int n' => if exact n' then window None (Some n') l else unbounded
  | NaN, NaN => window None None l
  | Infinity _, _ | _, Infinity _ => unbounded
  end.

(** *** Filter objects *)

(** The condition on one path. *)
Inductive Cond : Type :=
| CEq (v : Value)                  (* path: v *)
| CIn (vs : list Value)            (* path: { $in: vs } *)
| CRange (gte lte : option Z)      (* path: { $gte, $lte } on dates *)
| CLte (n : Number)                (* path: { $lte: n } on numbers *)
| CRegex (p : string).             (* path: { $regex: p, $options: 'i' } *)

(** The value under a key of a filter object: a condition on that path, or
    the alternatives of [$or]. *)
Inductive Clause : Type :=
| QField (c : Cond)
| QOr (alts : list (string * Cond)).

(** Equality of two values, as the store compares them. *)
Fixpoint same (x y : Value) {struct x} : bool :=
  match x, y with
  | VNull, VNull => true
  | VBool a, VBool b => Bool.eqb a b
  | VNum a, VNum b => a =? b
  | VStr a, VStr b => String.eqb a b
  | VDate a, VDate b => a =? b
  | VArr xs, VArr ys =>
      (fix all2 (l : list Value) (r : list Value) {struct l} : bool :=
         match l, r with
         | [], [] => true
         | a :: l', b :: r' => same a b && all2 l' r'
         | _, _ => false
         end) xs ys
  | VObj xs, VObj ys =>
      (fix all2 (l : list (string * Value)) (r : list (string * Value)) {struct l} : bool :=
         match l, r with
         | [], [] => true
         | (k, a) :: l', (k', b) :: r' => String.eqb k k' && same a b && all2 l' r'
         | _, _ => false
         end) xs ys
  | _, _ => false
  end.

(** A condition on one value. *)
Definition holdsValue (c : Cond) (v : Value) : bool :=
  match c with
  | CEq x => same x v
  | CIn xs => existsb (λ x, same x v) xs
  | CRange gte lte =>
      match v with
      | VDate t => from_option (λ g, g <=? t) true gte && from_option (λ l, t <=? l) true lte
      | _ => false
      end
  | CLte n =>
      match v, n with
      | VNum m, Int n' => m <=? n'
      | VNum m, Infinity negative => negb negative
      | _, _ => false
      end
  | CRegex p =>
      match v with
      | VStr subject => regexMatch p subject
      | _ => false
      end
  end.

(** A condition on the value of a path: an array matches as a whole or
    through any of its elements, a missing path does not match. *)
Definition holds (c : Cond) (v : option Value) : bool :=
  match v with
  | None => false
  | Some (VArr items) => holdsValue c (VArr items) || existsb (holdsValue c) items
  | Some x => holdsValue c x
  end.

(** Dotted paths: [fees.followUp] reads inside the sub-document. *)
Fixpoint descend (keys : list string) (v : option Value) : option Value :=
  match keys with
  | [] => v
  | k :: rest => descend rest (v ≫= field k)
  end.

Definition getPath (doc : Value) (path : string) : option Value :=
  descend (split "." path) (Some doc).

Definition satisfies (doc : Value) (key : string) (cl : Clause) : bool :=
  match cl with
  | QField c => holds c (getPath doc key)
  | QOr alts => existsb (λ a, holds (snd a) (getPath doc (fst a))) alts
  end.

(** A document matches a filter object when it satisfies every key. *)
Definition matchesQuery (q : gmap string Clause) (doc : Value) : bool :=
  forallb (λ kc, satisfies doc (fst kc) (snd kc)) (map_to_list q).

Section Find.

Context {A : Type}.

(** How a stored document reads as a plain object. *)
Variable toObject : A → Value.

(** [Model.find(q).sort(..).skip(s).limit(n)]. *)
Definition selectDocs (q : gmap string Clause) (docs : list A) : list A :=
  List.filter (λ d, matchesQuery q (toObject d)) docs.

Definition find (q : gmap string Clause) (le : A → A → bool) (s n : option Z)
    (docs : list A) : Try (list A) :=
  window s n (sort_by le (selectDocs q docs)).

(** The same with the window that a handler computed. *)
Definition findPage (q : gmap string Clause) (le : A → A → bool) (s n : Number)
    (docs : list A) : Try (list A) :=
  windowOf s n (sort_by le (selectDocs q docs)).

(** [Model.countDocuments(q)]. *)
Definition countDocuments (q : gmap string Clause) (docs : list A) : Z :=
  Z.of_nat (length (selectDocs q docs)).

(** [Model.findOne(q).sort(..)]: the first of the ordered matches. *)
Definition findOne (q : gmap string Clause) (le : A → A → bool) (docs : list A)
    : option A :=
  head (sort_by le (selectDocs q docs)).

End Find.

End Engine.

End Mongo.

(** ** models/User.js: the stored account *)

Module User.

(** The [status] path is an enum of the schema. *)
Inductive Status : Type := Active | Inactive | Suspended.

Definition status_name (s : Status) : string :=
  match s with
  | Active => "active"
  | Inactive => "inactive"
  | Suspended => "suspended"
  end.

(** A document of the [User] collection.  Paths without a schema default
    ([phone], [department]) and paths that a query may leave out
    ([password], declared [select: false]) are optional; [status] and
    [permissions] are optional because a stored record may lack them: the
    middleware itself provides for their absence. *)
Record t : Type := mk {
  _id : string;
  name : string;
  email : string;
  role : string;
  password : option string;
  phone : option string;
  department : option string;
  status : option Status;
  permissions : option (list string);
  isEmailVerified : bool;
  mustChangePassword : bool;
  createdBy : option string;
  createdAt : Z;
  updatedAt : Z
}.

#[global] Instance status_eq_dec : EqDecision Status.
Proof. solve_decision. Defined.

#[global] Instance eq_dec : EqDecision t.
Proof. solve_decision. Defined.

(** The document that Mongoose builds when it loads a stored record: a path
    that the record lacks gets the default of the schema, [status] the value
    [active] and [permissions], an array path, the empty array.  A later
    [save] writes these defaults with the document. *)
Definition applyDefaults (u : t) : t :=
  mk (_id u) (name u) (email u) (role u) (password u) (phone u) (department u)
    (Some (default Active (status u))) (Some (default [] (permissions u)))
    (isEmailVerified u) (mustChangePassword u) (createdBy u) (createdAt u)
    (updatedAt u).

(** [UserSchema.methods.hasPermission]. *)
Definition hasPermission (u : t) (permission : string) : bool :=
  match permissions u with
  | Some ps => bool_decide (permission ∈ ps)
  | None => false
  end || String.eqb (role u) "admin".

(** The [isEmployee] virtual; the same list is spelled out in the routes. *)
Definition employeeRoles : list string := ["admin"; "manager"; "staff"; "support"].

Definition isEmployee (u : t) : bool := bool_decide (role u ∈ employeeRoles).

Definition parse_status (s : string) : option Status :=
  if String.eqb s "active" then Some Active
  else if String.eqb s "inactive" then Some Inactive
  else if String.eqb s "suspended" then Some Suspended
  else None.

Definition roleEnum : list string :=
  ["user"; "practitioner"; "admin"; "manager"; "staff"; "support"].

Definition permissionEnum : list string :=
  ["manage_users"; "manage_events"; "manage_practitioners"; "view_analytics";
   "system_settings"].

(** The values that [save] is about to validate, as the handler assigned
    them.  [password] is there only when it was modified. *)
Record Draft : Type := mkDraft {
  d_name : string;
  d_email : string;
  d_role : string;
  d_password : option string;
  d_phone : option string;
  d_department : option string;
  d_status : string;
  d_permissions : list string
}.

Definition too_long (limit : nat) (s : string) : bool :=
  Nat.ltb limit (String.length (Js.trim s)).

(** One validator: when [bad], the path fails with the message. *)
Definition when (bad : bool) (path msg : string) : list (string * string) :=
  if bad then [(path, msg)] else [].

Definition backtick : string := String (ascii_of_nat 96) EmptyString.

Definition quoted (s : string) : string := backtick +:+ s +:+ backtick.

(** The default message of an [enum] validator. *)
Definition notInEnum (value path : string) : string :=
  quoted value +:+ " is not a valid enum value for path " +:+ quoted path +:+ ".".

Definition decimal (n : nat) : string := NilEmpty.string_of_uint (Nat.to_uint n).

(** The elements of an array path, each validated under [path.index]. *)
Fixpoint eachPermission (i : nat) (ps : list string) : list (string * string) :=
  match ps with
  | [] => []
  | p :: rest =>
      let path := "permissions." +:+ decimal i in
      when (negb (bool_decide (p ∈ permissionEnum))) path (notInEnum p path)
      ++ eachPermission (S i) rest
  end.

(** The validators of the [password] path. *)
Definition validatePassword (pw : string) : list (string * string) :=
  when (negb (Js.truthy pw)) "password" "Please add a password"
  ++ when (Js.truthy pw && Nat.ltb (String.length pw) 6) "password"
       ("Path " +:+ quoted "password" +:+ " (" +:+ quoted pw
        +:+ ") is shorter than the minimum allowed length (6).").

Section Validation.

(** The [match] pattern of the [email] path. *)
Variable emailOk : string → bool.

(** The paths whose validators fail, with their messages. *)
Definition validate (d : Draft) : list (string * string) :=
  when (negb (Js.truthy (Js.trim (d_name d)))) "name" "Please add a name"
  ++ when (too_long 100 (d_name d)) "name" "Name cannot be more than 100 characters"
  ++ when (negb (Js.truthy (d_email d))) "email" "Please add an email"
  ++ when (Js.truthy (d_email d) && negb (emailOk (d_email d))) "email"
       "Please add a valid email"
  ++ when (negb (bool_decide (d_role d ∈ roleEnum))) "role" (notInEnum (d_role d) "role")
  ++ from_option validatePassword [] (d_password d)
  ++ when (from_option (too_long 20) false (d_phone d)) "phone"
       "Phone number cannot exceed 20 characters"
  ++ when (from_option (too_long 50) false (d_department d)) "department"
       "Department cannot exceed 50 characters"
  ++ when (negb (bool_decide (is_Some (parse_status (d_status d))))) "status"
       (notInEnum (d_status d) "status")
  ++ eachPermission 0 (d_permissions d).

End Validation.

Definition opt (k : string) (v : option Js.Value) : list (string * Js.Value) :=
  match v with
  | Some x => [(k, x)]
  | None => []
  end.

Definition or_null (v : option Js.Value) : Js.Value := default Js.VNull v.

(** [doc.toJSON()] and [doc.toObject()], both configured with
    [virtuals: true]: the paths that are set, then the virtuals. *)
Definition toJSON (u : t) : Js.Value :=
  Js.VObj (
    [("_id", Js.VStr (_id u)); ("name", Js.VStr (name u));
     ("email", Js.VStr (email u)); ("role", Js.VStr (role u))]
    ++ opt "password" (Js.VStr <$> password u)
    ++ opt "phone" (Js.VStr <$> phone u)
    ++ opt "department" (Js.VStr <$> department u)
    ++ opt "status" (Js.VStr ∘ status_name <$> status u)
    ++ opt "permissions" (Js.VArr ∘ List.map Js.VStr <$> permissions u)
    ++ [("isEmailVerified", Js.VBool (isEmailVerified u));
        ("mustChangePassword", Js.VBool (mustChangePassword u));
        ("createdBy", or_null (Js.VStr <$> createdBy u));
        ("createdAt", Js.VDate (createdAt u));
        ("updatedAt", Js.VDate (updatedAt u));
        ("isAdmin", Js.VBool (String.eqb (role u) "admin"));
        ("isEmployee", Js.VBool (isEmployee u));
        ("id", Js.VStr (_id u))]).

End User.

(** ** middleware/authMiddleware.js *)

Module Auth.

Import Js Http.

(** The object that [authenticateToken] stores in [req.user]. *)
Module Principal.
Record t : Type := mk {
  id : string;
  name : string;
  email : string;
  role : string;
  department : option string;
  permissions : option (list string);
  status : string
}.
End Principal.

(** The part of [req] that the middlewares read and write. *)
Record Request : Type := mkRequest {
  authorization : option string;
  user : option Principal.t
}.

(** The claims that [getSignedJwtToken] signs into a token. *)
Record Payload : Type := mkPayload {
  payload_id : string;
  payload_role : string;
  payload_email : string
}.

(** The token of an [Authorization] header: the header must be non-empty
    and start with [Bearer]; the token is the second piece of the header
    split at single spaces. *)
Definition bearerToken (header : option string) : option string :=
  match header with
  | Some h =>
      if truthy h && startsWith "Bearer" h then split " " h !! 1%nat else None
  | None => None
  end.

Definition unauthorized : Response := failure 401 "Not authorized to access this route".

Section Verifier.

(** [jwt.verify(token, JWT_SECRET)]: the decoded payload, or [None] when it
    throws (bad signature, malformed or expired token). *)
Variable jwt_verify : string → option Payload.

(** [User.findById(id).select('-password')]: the account, [null], or an
    exception (cast error, store failure). *)
Variable findById : string → Try (option User.t).

Definition principal_of (u : User.t) : Principal.t :=
  Principal.mk (User._id u) (User.name u) (User.email u) (User.role u)
    (User.department u)
    (Some (default [] (User.permissions u)))
    (default "active" (User.status_name <$> User.status u)).

(** [user.status && user.status !== 'active']. *)
Definition not_active (u : User.t) : bool :=
  match User.status u with
  | Some s => truthy (User.status_name s) && negb (String.eqb (User.status_name s) "active")
  | None => false
  end.

Definition authenticateToken (req : Request) : Request * Step :=
  match bearerToken (authorization req) with
  | None => (req, Respond unauthorized)
  | Some token =>
      if negb (truthy token) then (req, Respond unauthorized)
      else
        match jwt_verify token with
        | None => (req, Respond unauthorized)
        | Some decoded =>
            match findById (payload_id decoded) with
            | Threw _ => (req, Respond unauthorized)
            | Returned None => (req, Respond (failure 401 "User not found"))
            | Returned (Some u) =>
                if not_active u
                then (req, Respond (failure 401
                        "Account is not active. Please contact administrator."))
                else (mkRequest (authorization req) (Some (principal_of u)), CallNext)
            end
        end
  end.

End Verifier.

(** [authorize(...roles)]. *)
Definition authorize (roles : list string) (req : Request) : Step :=
  match user req with
  | None => Respond unauthorized
  | Some u =>
      if negb (bool_decide (Principal.role u ∈ roles))
      then Respond (failure 403
             ("User role " +:+ Principal.role u +:+ " is not authorized to access this route"))
      else CallNext
  end.

(** [!req.user.permissions || !req.user.permissions.includes(permission)]. *)
Definition lacks (u : Principal.t) (permission : string) : bool :=
  match Principal.permissions u with
  | None => true
  | Some ps => negb (bool_decide (permission ∈ ps))
  end.

Definition requirePermission (permission : string) (req : Request) : Step :=
  match user req with
  | None => Respond (failure 401 "Authentication required")
  | Some u =>
      if String.eqb (Principal.role u) "admin" then CallNext
      else if lacks u permission
      then Respond (failure 403 "Insufficient permissions")
      else CallNext
  end.

Definition requireNewPermission (permission : string) (req : Request) : Step :=
  match user req with
  | None => Respond (failure 401 "Authentication required")
  | Some u =>
      if String.eqb (Principal.role u) "admin" then CallNext
      else if lacks u permission
      then Respond (failure 403 "Insufficient permissions for this operation")
      else CallNext
  end.

Definition requireEmployee (req : Request) : Step :=
  let employeeRoles := ["admin"; "manager"; "staff"; "support"] in
  match user req with
  | None => Respond (failure 401 "Authentication required")
  | Some u =>
      if negb (bool_decide (Principal.role u ∈ employeeRoles))
      then Respond (failure 403 "Employee access required")
      else CallNext
  end.

Definition requireAdmin (req : Request) : Step :=
  match user req with
  | None => Respond (failure 401 "Authentication required")
  | Some u =>
      if negb (String.eqb (Principal.role u) "admin")
      then Respond (failure 403 "Admin access required")
      else CallNext
  end.

(** [router.use(authenticateToken)] in front of a route: the route sees the
    request as the middleware leaves it, and does not run when the
    middleware answers. *)
Definition behind {A : Type} (auth : Request → Request * Step)
    (route : Request → A) (answer : Response → A) (req : Request) : A :=
  match auth req with
  | (req', CallNext) => route req'
  | (_, Respond r) => answer r
  end.

End Auth.

(** ** The [User] collection as the employee routes use it *)

Module Users.

Import Js Http Auth.

Definition withPassword (pw : option string) (u : User.t) : User.t :=
  User.mk (User._id u) (User.name u) (User.email u) (User.role u) pw
    (User.phone u) (User.department u) (User.status u) (User.permissions u)
    (User.isEmailVerified u) (User.mustChangePassword u) (User.createdBy u)
    (User.createdAt u) (User.updatedAt u).

(** Reading a document without asking for [password]: the path is declared
    [select: false], and the routes add [select('-password')] on top. *)
Definition deselect (u : User.t) : User.t := withPassword None u.

Definition has_id (id : string) (u : User.t) : bool := String.eqb (User._id u) id.

(** A stored record as a query hands it to a route: without its password
    and with the defaults of the schema filled in. *)
Definition hydrate (u : User.t) : User.t := User.applyDefaults (deselect u).

Section Collection.

(** Whether a route parameter casts to an [ObjectId]. *)
Variable validId : string → bool.

Definition findById (store : list User.t) (id : string) : Try (option User.t) :=
  if validId id
  then Returned (hydrate <$> List.find (has_id id) store)
  else Threw (Mongo.objectIdError id "User").

(** [User.countDocuments({ role })]. *)
Definition countRole (store : list User.t) (r : string) : Z :=
  Z.of_nat (length (List.filter (λ u, String.eqb (User.role u) r) store)).

(** [User.findByIdAndDelete(id)]: the first document with that [_id] goes. *)
Fixpoint findByIdAndDelete (store : list User.t) (id : string) : list User.t :=
  match store with
  | [] => []
  | u :: rest => if has_id id u then rest else u :: findByIdAndDelete rest id
  end.

End Collection.

End Users.

(** ** routes/employeeRoutes.js *)

Module Employees.

Import Js Http Auth.

Definition DELETE_USERS : string := "delete_users".
Definition CHANGE_USER_PASSWORDS : string := "change_user_passwords".

(** The body of a [catch] block: status 500 with the message of the error. *)
Definition failed (msg : string) (err : Exn) : Response :=
  json 500
    (VObj [("success", VBool false); ("message", VStr msg);
           ("error", VStr (message err))]).

(** The [TypeError] of reading a property of [req.user] when it is undefined. *)
Definition noUser : Exn := TypeError "Cannot read properties of undefined".

(** [x || d] on a string that may be undefined. *)
Definition or_else (x : option string) (d : string) : string :=
  match x with
  | Some s => if truthy s then s else d
  | None => d
  end.

(** [if (x)] on a string that may be undefined. *)
Definition given (x : option string) : bool :=
  match x with
  | Some s => truthy s
  | None => false
  end.

(** Query string of [GET /api/employees]. *)
Record ListQuery : Type := mkListQuery {
  q_search : option string;
  q_role : option string;
  q_status : option string;
  q_department : option string;
  q_page : option string;
  q_limit : option string
}.

(** The string fields that the handlers read from the JSON body. *)
Record Body : Type := mkBody {
  b_name : option string;
  b_email : option string;
  b_phone : option string;
  b_role : option string;
  b_department : option string;
  b_status : option string;
  b_permissions : option (list string);
  b_password : option string;
  b_masterCode : option string
}.

(** [sort({ createdAt: -1 })]. *)
Definition newestFirst (u v : User.t) : bool := User.createdAt v <=? User.createdAt u.

Section Routes.

Variable validId : string → bool.
Variable regexEngine : string → string → bool.
Variable regexError : string → option Exn.
Variable oddWindow : option Z → option Z → Try (nat * option nat).
Variable unboundedWindow : Number → Number → Try (nat * option nat).
Variable rounding : Rounding.
Variable emailOk : string → bool.

(** [bcrypt.hash] with the salt of this run. *)
Variable bcryptHash : string → string.

(** [process.env.MASTER_SECURITY_CODE]. *)
Variable MASTER_SECURITY_CODE : option string.

(** [masterCode !== process.env.MASTER_SECURITY_CODE]. *)
Definition wrongCode (masterCode : option string) : bool :=
  match masterCode, MASTER_SECURITY_CODE with
  | None, None => false
  | Some s, Some e => negb (String.eqb s e)
  | _, _ => true
  end.

(** The filter object of the listing. *)
Definition matchesFilter (q : ListQuery) (u : User.t) : bool :=
  (if given (q_role q) && bool_decide (or_else (q_role q) "" ∈ User.employeeRoles)
   then String.eqb (User.role u) (or_else (q_role q) "")
   else User.isEmployee u)
  && (if given (q_search q)
      then let p := or_else (q_search q) "" in
           Mongo.regexMatch regexEngine p (User.name u)
           || Mongo.regexMatch regexEngine p (User.email u)
           || from_option (Mongo.regexMatch regexEngine p) false (User.department u)
      else true)
  && (if given (q_status q)
      then bool_decide (User.status_name <$> User.status u = q_status q)
      else true)
  && (if given (q_department q)
      then bool_decide (User.department u = q_department q)
      else true).

(** [parseInt(x)] where [x] is the text of the query or, without one, the
    default number. *)
Definition listNumber (x : option string) (d : Z) : Number :=
  match x with
  | None => Int d
  | Some s => parseIntAuto rounding s
  end.

(** [GET /api/employees]. *)
Definition listEmployees (store : list User.t) (q : ListQuery) : Response :=
  let oops := failed "Failed to fetch employees" in
  match (if given (q_search q)
         then Mongo.badPattern regexError (or_else (q_search q) "")
         else None) with
  | Some e => oops e
  | None =>
      let page := listNumber (q_page q) 1 in
      let limit := listNumber (q_limit q) 50 in
      let skip := mul rounding (sub rounding page (Int 1)) limit in
      let found := List.filter (matchesFilter q) (Users.deselect <$> store) in
      match Mongo.windowOf oddWindow unboundedWindow skip limit
              (Mongo.sort_by newestFirst found) with
      | Threw e => oops e
      | Returned employees =>
          let totalCount := Z.of_nat (length found) in
          json 200
            (VObj [("success", VBool true);
                   ("data", VArr (User.toJSON <$> (User.applyDefaults <$> employees)));
                   ("totalCount", VNum totalCount);
                   ("currentPage", toValue page);
                   ("totalPages", ceilRatio totalCount limit)])
      end
  end.

(** [GET /api/employees/:id]. *)
Definition getEmployee (store : list User.t) (id : string) : Response :=
  match Users.findById validId store id with
  | Threw e => failed "Failed to fetch employee" e
  | Returned None => failure 404 "Employee not found"
  | Returned (Some employee) =>
      if negb (User.isEmployee employee) then failure 404 "Employee not found"
      else json 200 (VObj [("success", VBool true); ("data", User.toJSON employee)])
  end.

(** [DELETE /api/employees/:id], after its permission guard. *)
Definition deleteEmployee (store : list User.t) (req : Request) (id : string)
    (body : Body) : Response * list User.t :=
  if wrongCode (b_masterCode body)
  then (failure 403 "Invalid master security code. Access denied.", store)
  else
    match Users.findById validId store id with
    | Threw e => (failed "Failed to delete employee" e, store)
    | Returned None => (failure 404 "Employee not found", store)
    | Returned (Some employee) =>
        if negb (User.isEmployee employee)
        then (failure 404 "Employee not found", store)
        else if String.eqb (User.role employee) "admin"
                && (Users.countRole store "admin" <=? 1)
        then (failure 400 "Cannot delete the last admin user", store)
        else
          match user req with
          | None => (failed "Failed to delete employee" noUser, store)
          | Some caller =>
              if String.eqb (User._id employee) (Principal.id caller)
              then (failure 400 "Cannot delete your own account", store)
              else (json 200
                      (VObj [("success", VBool true);
                             ("message", VStr "Employee deleted successfully")]),
                    Users.findByIdAndDelete store id)
          end
    end.

(** The route with [requireNewPermission(NEW_PERMISSIONS.DELETE_USERS)]. *)
Definition deleteRoute (store : list User.t) (req : Request) (id : string)
    (body : Body) : Response * list User.t :=
  match requireNewPermission DELETE_USERS req with
  | Respond r => (r, store)
  | CallNext => deleteEmployee store req id body
  end.

(** [User.findOne({ email })]. *)
Definition emailTaken (store : list User.t) (e : string) : bool :=
  existsb (λ u, String.eqb (User.email u) e) store.

Definition required_missing (body : Body) : bool :=
  negb (given (b_name body)) || negb (given (b_email body))
  || negb (given (b_password body)) || negb (given (b_role body))
  || negb (given (b_department body)).

Definition invalidRole : Response :=
  failure 400 "Invalid role. Must be admin, manager, staff, or support".

(** [POST /api/employees], after its permission guard.  [newId] is the
    identifier that [new User] draws and [now] the time of the call. *)
Definition createEmployee (store : list User.t) (req : Request) (newId : string)
    (now : Z) (body : Body) : Response * list User.t :=
  if required_missing body
  then (failure 400 "Name, email, password, role, and department are required", store)
  else if negb (bool_decide (or_else (b_role body) "" ∈ User.employeeRoles))
  then (invalidRole, store)
  else if emailTaken store (or_else (b_email body) "")
  then (failure 400 "Email already exists", store)
  else
    match user req with
    | None => (failed "Failed to create employee" noUser, store)
    | Some caller =>
        let draft :=
          User.mkDraft (or_else (b_name body) "") (or_else (b_email body) "")
            (or_else (b_role body) "") (b_password body) (b_phone body)
            (b_department body) (or_else (b_status body) "active")
            (default [] (b_permissions body)) in
        match User.validate emailOk draft with
        | _ :: _ as errors =>
            (failed "Failed to create employee" (ValidationError "User" errors), store)
        | [] =>
            let employee :=
              User.mk newId (trim (User.d_name draft)) (User.d_email draft)
                (User.d_role draft) (bcryptHash <$> User.d_password draft)
                (trim <$> User.d_phone draft) (trim <$> User.d_department draft)
                (User.parse_status (User.d_status draft))
                (Some (User.d_permissions draft)) false false
                (Some (Principal.id caller)) now now in
            (json 201
               (VObj [("success", VBool true);
                      ("data", User.toJSON (Users.deselect employee));
                      ("message", VStr "Employee created successfully")]),
             (store ++ [employee])%list)
        end
    end.

Definition createRoute (store : list User.t) (req : Request) (newId : string)
    (now : Z) (body : Body) : Response * list User.t :=
  match requirePermission "manage_users" req with
  | Respond r => (r, store)
  | CallNext => createEmployee store req newId now body
  end.

(** The assignments of the update handler, on the loaded document. *)
Definition assign (employee : User.t) (body : Body) : User.t :=
  User.mk (User._id employee)
    (if given (b_name body) then trim (or_else (b_name body) "") else User.name employee)
    (or_else (b_email body) (User.email employee))
    (or_else (b_role body) (User.role employee))
    (User.password employee)
    (match b_phone body with Some ph => Some (trim ph) | None => User.phone employee end)
    (if given (b_department body) then trim <$> b_department body
     else User.department employee)
    (if given (b_status body) then User.parse_status (or_else (b_status body) "")
     else User.status employee)
    (match b_permissions body with Some ps => Some ps | None => User.permissions employee end)
    (User.isEmailVerified employee) (User.mustChangePassword employee)
    (User.createdBy employee) (User.createdAt employee) (User.updatedAt employee).

(** Whether the update handler assigns a path. *)
Definition assigned (body : Body) (path : string) : bool :=
  given (b_name body) && String.eqb path "name"
  || given (b_email body) && String.eqb path "email"
  || bool_decide (is_Some (b_phone body)) && String.eqb path "phone"
  || given (b_role body) && String.eqb path "role"
  || given (b_department body) && String.eqb path "department"
  || given (b_status body) && String.eqb path "status"
  || bool_decide (is_Some (b_permissions body)) && String.prefix "permissions" path.

Definition updateDraft (employee : User.t) (body : Body) : User.Draft :=
  User.mkDraft (or_else (b_name body) (User.name employee))
    (or_else (b_email body) (User.email employee))
    (or_else (b_role body) (User.role employee))
    None
    (match b_phone body with Some ph => Some ph | None => User.phone employee end)
    (if given (b_department body) then b_department body else User.department employee)
    (or_else (b_status body) "active")
    (default [] (b_permissions body)).

(** [doc.save()] of a loaded document: the changed paths are written, and
    with them the defaults that the stored record lacked; the stored
    password stays, and a change stamps [updatedAt]. *)
Definition stamp (now : Z) (old new : User.t) : User.t :=
  if bool_decide (new = old) then old
  else User.mk (User._id new) (User.name new) (User.email new) (User.role new)
         (User.password new) (User.phone new) (User.department new)
         (User.status new) (User.permissions new) (User.isEmailVerified new)
         (User.mustChangePassword new) (User.createdBy new) (User.createdAt new) now.

Fixpoint writeBack (store : list User.t) (new : User.t) (pw : option string)
    : list User.t :=
  match store with
  | [] => []
  | u :: rest =>
      if Users.has_id (User._id new) u
      then Users.withPassword
             (match pw with Some h => Some h | None => User.password u end) new
           :: rest
      else u :: writeBack rest new pw
  end.

(** [PUT /api/employees/:id], after its permission guard. *)
Definition updateEmployee (store : list User.t) (id : string) (now : Z)
    (body : Body) : Response * list User.t :=
  match Users.findById validId store id with
  | Threw e => (failed "Failed to update employee" e, store)
  | Returned None => (failure 404 "Employee not found", store)
  | Returned (Some employee) =>
      if negb (User.isEmployee employee)
      then (failure 404 "Employee not found", store)
      else if given (b_email body)
              && negb (String.eqb (or_else (b_email body) "") (User.email employee))
              && emailTaken store (or_else (b_email body) "")
      then (failure 400 "Email already exists", store)
      else if given (b_role body)
              && negb (bool_decide (or_else (b_role body) "" ∈ User.employeeRoles))
      then (invalidRole, store)
      else
        let bad := List.filter (λ pm, assigned body pm.1)
                     (User.validate emailOk (updateDraft employee body)) in
        match bad with
        | _ :: _ =>
            (failed "Failed to update employee" (ValidationError "User" bad), store)
        | [] =>
            let saved := stamp now employee (assign employee body) in
            (json 200
               (VObj [("success", VBool true);
                      ("data", User.toJSON (Users.deselect saved));
                      ("message", VStr "Employee updated successfully")]),
             writeBack store saved None)
        end
  end.

Definition updateRoute (store : list User.t) (req : Request) (id : string)
    (now : Z) (body : Body) : Response * list User.t :=
  match requirePermission "manage_users" req with
  | Respond r => (r, store)
  | CallNext => updateEmployee store id now body
  end.

(** [POST /api/employees/:id/reset-password], after its permission guard.
    [tempPassword] is the string drawn from [Math.random]. *)
Definition resetPassword (store : list User.t) (req : Request) (id : string)
    (now : Z) (tempPassword : string) (body : Body) : Response * list User.t :=
  if wrongCode (b_masterCode body)
  then (failure 403 "Invalid master security code. Access denied.", store)
  else
    match Users.findById validId store id with
    | Threw e => (failed "Failed to reset password" e, store)
    | Returned None => (failure 404 "Employee not found", store)
    | Returned (Some employee) =>
        if negb (User.isEmployee employee)
        then (failure 404 "Employee not found", store)
        else
          match User.validatePassword tempPassword with
          | _ :: _ as errors =>
              (failed "Failed to reset password" (ValidationError "User" errors), store)
          | [] =>
              let changed :=
                User.mk (User._id employee) (User.name employee) (User.email employee)
                  (User.role employee) (Some (bcryptHash tempPassword))
                  (User.phone employee) (User.department employee)
                  (User.status employee) (User.permissions employee)
                  (User.isEmailVerified employee) true (User.createdBy employee)
                  (User.createdAt employee) now in
              let store' := writeBack store changed (Some (bcryptHash tempPassword)) in
              match user req with
              | None => (failed "Failed to reset password" noUser, store')
              | Some _ =>
                  (json 200
                     (VObj [("success", VBool true);
                            ("temporaryPassword", VStr tempPassword);
                            ("message", VStr "Password reset successfully")]),
                   store')
              end
          end
    end.

Definition resetRoute (store : list User.t) (req : Request) (id : string)
    (now : Z) (tempPassword : string) (body : Body) : Response * list User.t :=
  match requireNewPermission CHANGE_USER_PASSWORDS req with
  | Respond r => (r, store)
  | CallNext => resetPassword store req id now tempPassword body
  end.

End Routes.

End Employees.

(** ** models/Event.js *)

Module Event.

Import Js.

(** A document of the [Event] collection: the paths of [eventSchema] and the
    two timestamps that [timestamps: true] adds. *)
Record t : Type := mk {
  _id : string;
  title : string;
  description : string;
  date : Z;
  time : string;
  location : string;
  type : string;
  status : string;
  isFeatured : bool;
  registeredAttendees : Z;
  imageUrl : string;
  registrationUrl : string;
  organizer : string;
  createdAt : Z;
  updatedAt : Z
}.

Definition typeEnum : list string :=
  ["workshop"; "seminar"; "support-group"; "training"; "community"].

Definition statusEnum : list string :=
  ["upcoming"; "ongoing"; "completed"; "cancelled"].

(** The stored document as a plain object ([lean()]). *)
Definition fields (e : t) : list (string * Value) :=
  [("_id", VStr (_id e)); ("title", VStr (title e));
   ("description", VStr (description e)); ("date", VDate (date e));
   ("time", VStr (time e)); ("location", VStr (location e));
   ("type", VStr (type e)); ("status", VStr (status e));
   ("isFeatured", VBool (isFeatured e));
   ("registeredAttendees", VNum (registeredAttendees e));
   ("imageUrl", VStr (imageUrl e)); ("registrationUrl", VStr (registrationUrl e));
   ("organizer", VStr (organizer e));
   ("createdAt", VDate (createdAt e)); ("updatedAt", VDate (updatedAt e))].

Definition toObject (e : t) : Value := VObj (fields e).

(** [select('a b c')] on a lean document: the named paths and [_id]. *)
Definition project (paths : list string) (e : t) : Value :=
  VObj (List.filter (λ kv, bool_decide (fst kv ∈ "_id" :: paths)) (fields e)).

Section Json.

(** [date.toLocaleDateString('en-US', ...)] of the [formattedDate] virtual. *)
Variable toLocaleDateString : Z → string.

(** [doc.toJSON()] with [virtuals: true]. *)
Definition toJSON (e : t) : Value :=
  VObj (fields e ++ [("formattedDate", VStr (toLocaleDateString (date e)));
                     ("id", VStr (_id e))]).

End Json.

(** Writing one path of the document. *)
Definition set_title (x : string) (e : t) : t :=
  mk (_id e) x (description e) (date e) (time e) (location e) (type e) (status e)
    (isFeatured e) (registeredAttendees e) (imageUrl e) (registrationUrl e)
    (organizer e) (createdAt e) (updatedAt e).
Definition set_description (x : string) (e : t) : t :=
  mk (_id e) (title e) x (date e) (time e) (location e) (type e) (status e)
    (isFeatured e) (registeredAttendees e) (imageUrl e) (registrationUrl e)
    (organizer e) (createdAt e) (updatedAt e).
Definition set_date (x : Z) (e : t) : t :=
  mk (_id e) (title e) (description e) x (time e) (location e) (type e) (status e)
    (isFeatured e) (registeredAttendees e) (imageUrl e) (registrationUrl e)
    (organizer e) (createdAt e) (updatedAt e).
Definition set_time (x : string) (e : t) : t :=
  mk (_id e) (title e) (description e) (date e) x (location e) (type e) (status e)
    (isFeatured e) (registeredAttendees e) (imageUrl e) (registrationUrl e)
    (organizer e) (createdAt e) (updatedAt e).
Definition set_location (x : string) (e : t) : t :=
  mk (_id e) (title e) (description e) (date e) (time e) x (type e) (status e)
    (isFeatured e) (registeredAttendees e) (imageUrl e) (registrationUrl e)
    (organizer e) (createdAt e) (updatedAt e).
Definition set_type (x : string) (e : t) : t :=
  mk (_id e) (title e) (description e) (date e) (time e) (location e) x (status e)
    (isFeatured e) (registeredAttendees e) (imageUrl e) (registrationUrl e)
    (organizer e) (createdAt e) (updatedAt e).
Definition set_status (x : string) (e : t) : t :=
  mk (_id e) (title e) (description e) (date e) (time e) (location e) (type e) x
    (isFeatured e) (registeredAttendees e) (imageUrl e) (registrationUrl e)
    (organizer e) (createdAt e) (updatedAt e).
Definition set_isFeatured (x : bool) (e : t) : t :=
  mk (_id e) (title e) (description e) (date e) (time e) (location e) (type e)
    (status e) x (registeredAttendees e) (imageUrl e) (registrationUrl e)
    (organizer e) (createdAt e) (updatedAt e).
Definition set_registeredAttendees (x : Z) (e : t) : t :=
  mk (_id e) (title e) (description e) (date e) (time e) (location e) (type e)
    (status e) (isFeatured e) x (imageUrl e) (registrationUrl e)
    (organizer e) (createdAt e) (updatedAt e).
Definition set_imageUrl (x : string) (e : t) : t :=
  mk (_id e) (title e) (description e) (date e) (time e) (location e) (type e)
    (status e) (isFeatured e) (registeredAttendees e) x (registrationUrl e)
    (organizer e) (createdAt e) (updatedAt e).
Definition set_registrationUrl (x : string) (e : t) : t :=
  mk (_id e) (title e) (description e) (date e) (time e) (location e) (type e)
    (status e) (isFeatured e) (registeredAttendees e) (imageUrl e) x
    (organizer e) (createdAt e) (updatedAt e).
Definition set_organizer (x : string) (e : t) : t :=
  mk (_id e) (title e) (description e) (date e) (time e) (location e) (type e)
    (status e) (isFeatured e) (registeredAttendees e) (imageUrl e)
    (registrationUrl e) x (createdAt e) (updatedAt e).
Definition set_updatedAt (x : Z) (e : t) : t :=
  mk (_id e) (title e) (description e) (date e) (time e) (location e) (type e)
    (status e) (isFeatured e) (registeredAttendees e) (imageUrl e)
    (registrationUrl e) (organizer e) (createdAt e) x.

(** The [CastError] of a value that does not fit the type of its path. *)
Definition castFail (kind path : string) : Exn :=
  CastError kind ("Cast to " +:+ kind +:+ " failed at path " +:+ path).

Definition castString (path : string) (v : Value) (k : string → t) : Try t :=
  match v with
  | VStr x => Returned (k x)
  | _ => Threw (castFail "string" path)
  end.

(** One key of a [$set]: the value is cast to the type of the path and goes
    through the setters of the schema ([trim]).  [None] when the key is not a
    path that the schema declares. *)
Definition castSet (key : string) (v : Value) (e : t) : option (Try t) :=
  if String.eqb key "title" then Some (castString key v (λ x, set_title (trim x) e))
  else if String.eqb key "description"
  then Some (castString key v (λ x, set_description (trim x) e))
  else if String.eqb key "date"
  then Some (match v with
             | VDate x => Returned (set_date x e)
             | _ => Threw (castFail "date" key)
             end)
  else if String.eqb key "time" then Some (castString key v (λ x, set_time (trim x) e))
  else if String.eqb key "location"
  then Some (castString key v (λ x, set_location (trim x) e))
  else if String.eqb key "type" then Some (castString key v (λ x, set_type x e))
  else if String.eqb key "status" then Some (castString key v (λ x, set_status x e))
  else if String.eqb key "isFeatured"
  then Some (match v with
             | VBool x => Returned (set_isFeatured x e)
             | _ => Threw (castFail "Boolean" key)
             end)
  else if String.eqb key "registeredAttendees"
  then Some (match v with
             | VNum x => Returned (set_registeredAttendees x e)
             | _ => Threw (castFail "Number" key)
             end)
  else if String.eqb key "imageUrl"
  then Some (castString key v (λ x, set_imageUrl (trim x) e))
  else if String.eqb key "registrationUrl"
  then Some (castString key v (λ x, set_registrationUrl (trim x) e))
  else if String.eqb key "organizer"
  then Some (castString key v (λ x, set_organizer x e))
  else None.

(** An update document applied as [$set] under the schema's default
    [strict] option: keys that are not paths of the schema are left out. *)
Fixpoint applyUpdate (update : list (string * Value)) (e : t) : Try t :=
  match update with
  | [] => Returned e
  | (key, v) :: rest =>
      match castSet key v e with
      | None => applyUpdate rest e
      | Some (Threw x) => Threw x
      | Some (Returned e') => applyUpdate rest e'
      end
  end.

Section Validators.

(** [new URL(v)] succeeds. *)
Variable isUrl : string → bool.

Definition longer (limit : nat) (x : string) : bool := Nat.ltb limit (String.length x).

(** One validator: when [bad], the path fails with the message. *)
Definition check (bad : bool) (path msg : string) : list (string * string) :=
  if bad then [(path, msg)] else [].

(** The failures of the validators of one path, on the document that the
    update produces. *)
Definition validatePath (key : string) (e : t) : list (string * string) :=
  if String.eqb key "title"
  then check (negb (truthy (title e))) key "Event title is required"
       ++ check (longer 200 (title e)) key "Title cannot exceed 200 characters"
  else if String.eqb key "description"
  then check (negb (truthy (description e))) key "Event description is required"
       ++ check (longer 2000 (description e)) key
            "Description cannot exceed 2000 characters"
  else if String.eqb key "time"
  then check (negb (truthy (time e))) key "Event time is required"
  else if String.eqb key "location"
  then check (negb (truthy (location e))) key "Event location is required"
       ++ check (longer 200 (location e)) key "Location cannot exceed 200 characters"
  else if String.eqb key "type"
  then check (negb (truthy (type e))) key "Event type is required"
       ++ check (truthy (type e) && negb (bool_decide (type e ∈ typeEnum))) key
            "Event type must be one of: workshop, seminar, support-group, training, community"
  else if String.eqb key "status"
  then check (negb (bool_decide (status e ∈ statusEnum))) key
         "Status must be one of: upcoming, ongoing, completed, cancelled"
  else if String.eqb key "registeredAttendees"
  then check (registeredAttendees e <? 0) key "Registered attendees cannot be negative"
  else if String.eqb key "registrationUrl"
  then check (negb (String.eqb (registrationUrl e) "" || isUrl (registrationUrl e))) key
         "Please provide a valid registration URL"
  else if String.eqb key "organizer"
  then check (negb (truthy (organizer e))) key "Event organizer is required"
  else [].

(** [runValidators: true]: the validators of the paths in the update. *)
Definition validateUpdate (update : list (string * Value)) (e : t)
    : list (string * string) :=
  concat ((λ kv, validatePath (fst kv) e) <$> update).

Variable validId : string → bool.

Definition has_id (id : string) (e : t) : bool := String.eqb (_id e) id.

Definition findById (store : list t) (id : string) : Try (option t) :=
  if validId id then Returned (List.find (has_id id) store)
  else Threw (Mongo.objectIdError id "Event").

Fixpoint replace (store : list t) (e : t) : list t :=
  match store with
  | [] => []
  | x :: rest => if has_id (_id e) x then e :: rest else x :: replace rest e
  end.

(** [Event.findByIdAndUpdate(id, update, { new: true, runValidators: true })]
    at time [now]: the document as updated, or [null], and the collection
    afterwards. *)
Definition findByIdAndUpdate (store : list t) (id : string)
    (update : list (string * Value)) (now : Z) : Try (option t * list t) :=
  match findById store id with
  | Threw x => Threw x
  | Returned found =>
      match found with
      | None => Returned (None, store)
      | Some e =>
          match applyUpdate update e with
          | Threw x => Threw x
          | Returned e' =>
              match validateUpdate update e' with
              | [] => let e'' := set_updatedAt now e' in
                      Returned (Some e'', replace store e'')
              | errors => Threw (ValidationError "" errors)
              end
          end
      end
  end.

(** [Event.findByIdAndDelete(id)]: the first document with that [_id]
    goes. *)
Fixpoint findByIdAndDelete (store : list t) (id : string) : list t :=
  match store with
  | [] => []
  | x :: rest => if has_id id x then rest else x :: findByIdAndDelete rest id
  end.

(** [x = x.trim()] on a path with the [trim] setter, done when [x] is
    truthy. *)
Definition retrim (x : string) : string := if truthy x then trim (trim x) else x.

(** The [pre('save')] hook of the schema. *)
Definition preSave (e : t) : t :=
  mk (_id e) (retrim (title e)) (retrim (description e)) (date e) (retrim (time e))
    (retrim (location e)) (type e) (status e) (isFeatured e)
    (if registeredAttendees e <? 0 then 0 else registeredAttendees e)
    (retrim (imageUrl e)) (retrim (registrationUrl e)) (organizer e) (createdAt e)
    (updatedAt e).

(** The paths of the schema that have validators, in the order of their
    declaration. *)
Definition schemaPaths : list string :=
  ["title"; "description"; "time"; "location"; "type"; "status";
   "registeredAttendees"; "registrationUrl"; "organizer"].

(** The document that [new Event] starts from: the defaults of the schema
    and the timestamps; the required paths are still unset. *)
Definition blank (newId : string) (now : Z) : t :=
  mk newId "" "" 0 "" "" "" "upcoming" false 0 "" "" "" now now.

(** One key of the object given to [new Event]: as [castSet], and the
    organizer has to be an [ObjectId]. *)
Definition castNew (key : string) (v : Value) (e : t) : option (Try t) :=
  if String.eqb key "organizer"
  then Some (match v with
             | VStr x => if validId x then Returned (set_organizer x e)
                         else Threw (castFail "ObjectId" key)
             | _ => Threw (castFail "ObjectId" key)
             end)
  else castSet key v e.

(** The message that the validation reports for a value that does not cast
    to the type of its path. *)
Variable castMessage : string → Value → string.

(** [new Event(data)]: the keys of [data] that are paths of the schema are
    cast and set; a value that does not cast leaves its path as it was and
    is kept as a failure of that path. *)
Fixpoint construct (data : list (string * Value)) (e : t)
    : t * list (string * string) :=
  match data with
  | [] => (e, [])
  | (key, v) :: rest =>
      match castNew key v e with
      | None => construct rest e
      | Some (Threw _) =>
          let '(e', failures) := construct rest e in
          (e', (key, castMessage key v) :: failures)
      | Some (Returned e') => construct rest e'
      end
  end.

(** The order in which [Object.values(err.errors)] lists the failures of a
    validation. *)
Variable reported : list (string * string) → list (string * string).

(** The error of an insert whose [_id] is already in the collection. *)
Definition duplicateKey : Exn :=
  MongoError "MongoServerError" 11000 "E11000 duplicate key error collection".

(** [Event.create(data)] at time [now], [newId] being the identifier that
    the new document draws: the document is validated, goes through the
    [pre('save')] hook and is inserted. *)
Definition create (newId : string) (now : Z) (data : list (string * Value))
    (store : list t) : Try (t * list t) :=
  let '(doc, castFailures) := construct data (blank newId now) in
  let failed := fst <$> castFailures in
  let errors :=
    (castFailures
     ++ check (negb (bool_decide ("date" ∈ fst <$> data))) "date" "Event date is required"
     ++ concat ((λ key, validatePath key doc)
                <$> List.filter (λ key, negb (bool_decide (key ∈ failed))) schemaPaths))%list in
  match errors with
  | [] =>
      if existsb (has_id newId) store then Threw duplicateKey
      else let saved := preSave doc in Returned (saved, (store ++ [saved])%list)
  | _ :: _ => Threw (ValidationError "Event" (reported errors))
  end.

End Validators.

(** [eventSchema.methods.isUpcoming] and [isPast]; [now] is the value of
    [new Date()]. *)
Definition isUpcoming (now : Z) (e : t) : bool :=
  String.eqb (status e) "upcoming" && (now <? date e).

Definition isPast (now : Z) (e : t) : bool :=
  String.eqb (status e) "completed" || (date e <? now).

(** [sort({ date: 1 })]. *)
Definition byDate (a b : t) : bool := date a <=? date b.

Section Statics.

Variable regexEngine : string → string → bool.

(** [eventSchema.statics.findUpcoming] and [findFeatured]. *)
Definition findUpcoming (now : Z) (store : list t) : list t :=
  Mongo.sort_by byDate
    (Mongo.selectDocs regexEngine toObject
       (<["date" := Mongo.QField (Mongo.CRange (Some now) None)]>
          {["status" := Mongo.QField (Mongo.CIn [VStr "upcoming"; VStr "ongoing"])]})
       store).

Definition findFeatured (store : list t) : list t :=
  Mongo.sort_by byDate
    (Mongo.selectDocs regexEngine toObject
       {["isFeatured" := Mongo.QField (Mongo.CEq (VBool true))]} store).

End Statics.

End Event.

(** ** routes/eventRoutes.js *)

Module Events.

Import Js Http Auth.

(** The fields that the handlers read from the JSON body. *)
Record Body : Type := mkBody {
  b_title : option string;
  b_description : option string;
  b_date : option string;
  b_time : option string;
  b_location : option string;
  b_type : option string;
  b_status : option string;
  b_isFeatured : option bool;
  b_registeredAttendees : option Z;
  b_imageUrl : option string;
  b_registrationUrl : option string
}.

(** [if (x !== undefined) updateData.k = v]. *)
Definition put (key : string) (v : option Value) : list (string * Value) :=
  match v with
  | Some x => [(key, x)]
  | None => []
  end.

(** [x || d] and [x ? f(x) : d] on strings. *)
Definition or_empty (x : string) : string := if truthy x then x else "".

Section Routes.

Variable isUrl : string → bool.
Variable validId : string → bool.
Variable toLocaleDateString : Z → string.

(** [new Date(s)]: the time value, or [None] for an invalid date. *)
Variable parseDate : string → option Z.

Definition newDate (s : string) : Value :=
  match parseDate s with
  | Some ms => VDate ms
  | None => VStr "Invalid Date"
  end.

(** The update document of [PUT /api/events/:id]: only the fields that the
    body provides, then who updated the event. *)
Definition updateData (body : Body) (caller : Principal.t) : list (string * Value) :=
  put "title" (VStr ∘ trim <$> b_title body)
  ++ put "description" (VStr ∘ trim <$> b_description body)
  ++ put "date" (newDate <$> b_date body)
  ++ put "time" (VStr ∘ trim <$> b_time body)
  ++ put "location" (VStr ∘ trim <$> b_location body)
  ++ put "type" (VStr <$> b_type body)
  ++ put "status" (VStr <$> b_status body)
  ++ put "isFeatured" (VBool <$> b_isFeatured body)
  ++ put "registeredAttendees" (VNum <$> b_registeredAttendees body)
  ++ put "imageUrl" (VStr ∘ or_empty <$> b_imageUrl body)
  ++ put "registrationUrl" (VStr ∘ trim ∘ or_empty <$> b_registrationUrl body)
  ++ [("updatedBy", VStr (Principal.id caller))].

(** The [catch] block of the update handler. *)
Definition rescueUpdate (err : Exn) : Response :=
  match err with
  | ValidationError _ errors =>
      failure 400 ("Validation error: " +:+ String.concat ", " (snd <$> errors))
  | CastError kind _ =>
      if String.eqb kind "ObjectId" then failure 404 "Event not found"
      else failure 500 "Server error while updating event"
  | MongoError _ code _ =>
      if code =? 11000 then failure 400 "Event with this information already exists"
      else failure 500 "Server error while updating event"
  | TypeError _ | SystemError _ _ => failure 500 "Server error while updating event"
  end.

(** [PUT /api/events/:id], after its guard. *)
Definition updateEvent (store : list Event.t) (req : Request) (id : string)
    (now : Z) (body : Body) : Response * list Event.t :=
  match user req with
  | None => (rescueUpdate (TypeError "Cannot read properties of undefined"), store)
  | Some caller =>
      match Event.findById validId store id with
      | Threw x => (rescueUpdate x, store)
      | Returned None => (failure 404 "Event not found", store)
      | Returned (Some _) =>
          match Event.findByIdAndUpdate isUrl validId store id
                  (updateData body caller) now with
          | Threw x => (rescueUpdate x, store)
          | Returned (None, store') =>
              (rescueUpdate (TypeError "Cannot read properties of null"), store')
          | Returned (Some event, store') =>
              (json 200
                 (VObj [("success", VBool true);
                        ("message", VStr "Event updated successfully");
                        ("data", Event.toJSON toLocaleDateString event)]),
               store')
          end
      end
  end.

Definition updateRoute (store : list Event.t) (req : Request) (id : string)
    (now : Z) (body : Body) : Response * list Event.t :=
  match requireEmployee req with
  | Respond r => (r, store)
  | CallNext => updateEvent store req id now body
  end.

(** The [catch] block of the handlers that read or delete one event: an
    identifier that does not cast counts as an event that does not exist. *)
Definition notFoundOr (msg : string) (err : Exn) : Response :=
  match err with
  | CastError kind _ =>
      if String.eqb kind "ObjectId" then failure 404 "Event not found"
      else failure 500 msg
  | ValidationError _ _ | MongoError _ _ _ | TypeError _ | SystemError _ _ =>
      failure 500 msg
  end.

(** [GET /api/events/:id], after its guard. *)
Definition getEvent (store : list Event.t) (id : string) : Response :=
  match Event.findById validId store id with
  | Threw x => notFoundOr "Server error while fetching event" x
  | Returned None => failure 404 "Event not found"
  | Returned (Some event) =>
      json 200 (VObj [("success", VBool true);
                      ("data", Event.toJSON toLocaleDateString event)])
  end.

Definition getRoute (store : list Event.t) (req : Request) (id : string) : Response :=
  match requireEmployee req with
  | Respond r => r
  | CallNext => getEvent store id
  end.

(** [DELETE /api/events/:id], after its guard. *)
Definition deleteEvent (store : list Event.t) (req : Request) (id : string)
    : Response * list Event.t :=
  let oops := notFoundOr "Server error while deleting event" in
  match user req with
  | None => (oops (TypeError "Cannot read properties of undefined"), store)
  | Some _ =>
      match Event.findById validId store id with
      | Threw x => (oops x, store)
      | Returned None => (failure 404 "Event not found", store)
      | Returned (Some _) =>
          (json 200 (VObj [("success", VBool true);
                           ("message", VStr "Event deleted successfully");
                           ("data", VObj [])]),
           Event.findByIdAndDelete store id)
      end
  end.

Definition deleteRoute (store : list Event.t) (req : Request) (id : string)
    : Response * list Event.t :=
  match requireEmployee req with
  | Respond r => (r, store)
  | CallNext => deleteEvent store req id
  end.

(** [!x] on a string that may be undefined. *)
Definition absent (x : option string) : bool :=
  match x with
  | Some s => negb (truthy s)
  | None => true
  end.

Definition text (x : option string) : string := default "" x.

Variable castMessage : string → Value → string.
Variable reported : list (string * string) → list (string * string).

(** The object that [POST /api/events] gives to [Event.create]. *)
Definition eventData (body : Body) (caller : Principal.t) : list (string * Value) :=
  [("title", VStr (trim (text (b_title body))));
   ("description", VStr (trim (text (b_description body))));
   ("date", newDate (text (b_date body)));
   ("time", VStr (trim (text (b_time body))));
   ("location", VStr (trim (text (b_location body))));
   ("type", VStr (text (b_type body)));
   ("status", VStr (if absent (b_status body) then "upcoming" else text (b_status body)));
   ("isFeatured", VBool (default false (b_isFeatured body)));
   ("registeredAttendees", VNum (default 0 (b_registeredAttendees body)));
   ("imageUrl", VStr (or_empty (text (b_imageUrl body))));
   ("registrationUrl", VStr (trim (or_empty (text (b_registrationUrl body)))));
   ("organizer", VStr (Principal.id caller));
   ("createdBy", VStr (Principal.id caller))].

(** The [catch] block of the creation handler. *)
Definition rescueCreate (err : Exn) : Response :=
  match err with
  | ValidationError _ errors =>
      failure 400 ("Validation error: " +:+ String.concat ", " (snd <$> errors))
  | MongoError _ code _ =>
      if code =? 11000 then failure 400 "Event with this information already exists"
      else failure 500 "Server error while creating event"
  | CastError _ _ | TypeError _ | SystemError _ _ =>
      failure 500 "Server error while creating event"
  end.

(** [POST /api/events], after its guard.  [newId] is the identifier that
    the new document draws and [now] the time of the call. *)
Definition createEvent (store : list Event.t) (req : Request) (newId : string)
    (now : Z) (body : Body) : Response * list Event.t :=
  match user req with
  | None => (rescueCreate (TypeError "Cannot read properties of undefined"), store)
  | Some caller =>
      if absent (b_title body) || absent (b_description body) || absent (b_date body)
         || absent (b_time body) || absent (b_location body) || absent (b_type body)
      then (failure 400
              "Missing required fields: title, description, date, time, location, type",
            store)
      else
        match Event.create isUrl validId castMessage reported newId now
                (eventData body caller) store with
        | Threw x => (rescueCreate x, store)
        | Returned (event, store') =>
            (json 201
               (VObj [("success", VBool true);
                      ("message", VStr "Event created successfully");
                      ("data", Event.toJSON toLocaleDateString event)]),
             store')
        end
  end.

Definition createRoute (store : list Event.t) (req : Request) (newId : string)
    (now : Z) (body : Body) : Response * list Event.t :=
  match requireEmployee req with
  | Respond r => (r, store)
  | CallNext => createEvent store req newId now body
  end.

End Routes.

End Events.

(** ** routes/publicEventRoutes.js *)

Module PublicEvents.

Import Js Http Mongo.

(** Query string of [GET /api/public/events]. *)
Record Query : Type := mkQuery {
  q_search : option string;
  q_type : option string;
  q_dateRange : option string;
  q_page : option string;
  q_limit : option string
}.

Definition given (x : option string) : bool :=
  match x with
  | Some s => truthy s
  | None => false
  end.

Definition text (x : option string) : string := default "" x.

(** [sort({ isFeatured: -1, date: 1 })]. *)
Definition featuredThenDate (a b : Event.t) : bool :=
  if Bool.eqb (Event.isFeatured a) (Event.isFeatured b)
  then Event.date a <=? Event.date b
  else Event.isFeatured a.

Definition searchClause (term : string) : Clause :=
  QOr [("title", CRegex term); ("description", CRegex term); ("location", CRegex term)].

Definition open_statuses : Clause := QField (CIn [VStr "upcoming"; VStr "ongoing"]).

Section Routes.

Variable regexEngine : string → string → bool.
Variable regexError : string → option Exn.
Variable oddWindow : option Z → option Z → Try (nat * option nat).
Variable unboundedWindow : Number → Number → Try (nat * option nat).
Variable rounding : Rounding.
Variable toLocaleDateString : Z → string.

(** Calendar arithmetic of [Date]: [setDate(getDate() + n)] and
    [new Date(getFullYear(), getMonth() + k, day)]. *)
Variable addDays : Z → Z → Z.
Variable monthDate : Z → Z → Z → Z.

(** The filter object; [now] is the value of [new Date()]. *)
Definition buildQuery (now : Z) (q : Query) : gmap string Clause :=
  let query0 : gmap string Clause :=
    <["date" := QField (CRange (Some now) None)]> {["status" := open_statuses]} in
  let query1 :=
    if given (q_search q) then <["$or" := searchClause (text (q_search q))]> query0
    else query0 in
  let query2 :=
    if given (q_type q) && negb (String.eqb (text (q_type q)) "all")
    then <["type" := QField (CEq (VStr (text (q_type q))))]> query1
    else query1 in
  if given (q_dateRange q) then
    let today := now in
    let nextWeek := addDays today 7 in
    if String.eqb (text (q_dateRange q)) "next7days"
    then <["date" := QField (CRange (Some today) (Some nextWeek))]> query2
    else if String.eqb (text (q_dateRange q)) "thisMonth"
    then <["date" := QField (CRange (Some today) (Some (monthDate today 1 0)))]> query2
    else if String.eqb (text (q_dateRange q)) "nextMonth"
    then <["date" := QField (CRange (Some (monthDate today 1 1))
                               (Some (monthDate today 2 0)))]> query2
    else query2
  else query2.

(** The pagination window: page, page size and offset. *)
Definition paging (q : Query) : Number * Number * Number :=
  let page := parseIntOr rounding (q_page q) 1 in
  let limit := parseIntOr rounding (q_limit q) 6 in
  (page, limit, mul rounding (sub rounding page (Int 1)) limit).

(** The documents that the listing returns, or the exception of the query. *)
Definition listed (now : Z) (store : list Event.t) (q : Query) : Try (list Event.t) :=
  match (if given (q_search q) then badPattern regexError (text (q_search q)) else None) with
  | Some e => Threw e
  | None =>
      let '(page, limit, startIndex) := paging q in
      findPage regexEngine oddWindow unboundedWindow Event.toObject (buildQuery now q)
        featuredThenDate startIndex limit store
  end.

(** [GET /api/public/events]. *)
Definition listEvents (now : Z) (store : list Event.t) (q : Query) : Response :=
  match listed now store q with
  | Threw _ => failure 500 "Server error"
  | Returned events =>
      let '(page, limit, startIndex) := paging q in
      let total := countDocuments regexEngine Event.toObject (buildQuery now q) store in
      json 200
        (VObj [("success", VBool true);
               ("count", VNum (Z.of_nat (length events)));
               ("pagination",
                VObj [("total", VNum total); ("page", toValue page);
                      ("pages", ceilRatio total limit)]);
               ("data", VArr (Event.toJSON toLocaleDateString <$> events))])
  end.

Variable validId : string → bool.

(** [GET /api/public/events/:id]. *)
Definition getEvent (store : list Event.t) (id : string) : Response :=
  match Event.findById validId store id with
  | Threw (CastError kind _) =>
      if String.eqb kind "ObjectId" then failure 404 "Event not found"
      else failure 500 "Server error"
  | Threw _ => failure 500 "Server error"
  | Returned None => failure 404 "Event not found"
  | Returned (Some event) =>
      json 200 (VObj [("success", VBool true);
                      ("data", Event.toJSON toLocaleDateString event)])
  end.

(** The two filter objects of [GET /api/public/events/featured/current]. *)
Definition featuredQuery (now : Z) : gmap string Clause :=
  <["isFeatured" := QField (CEq (VBool true))]>
    (<["date" := QField (CRange (Some now) None)]> {["status" := open_statuses]}).

Definition upcomingQuery (now : Z) : gmap string Clause :=
  <["date" := QField (CRange (Some now) None)]>
    {["status" := QField (CEq (VStr "upcoming"))]}.

(** The event that the route picks and whether it is a featured one;
    [now] and [later] are the values of the two [new Date()]. *)
Definition currentEvent (now later : Z) (store : list Event.t)
    : option (bool * Event.t) :=
  match findOne regexEngine Event.toObject (featuredQuery now) Event.byDate store with
  | Some event => Some (true, event)
  | None =>
      match findOne regexEngine Event.toObject (upcomingQuery later) Event.byDate
              store with
      | Some nextEvent => Some (false, nextEvent)
      | None => None
      end
  end.

(** [GET /api/public/events/featured/current]. *)
Definition featuredCurrent (now later : Z) (store : list Event.t) : Response :=
  match currentEvent now later store with
  | None => failure 404 "No featured or upcoming events found"
  | Some (featured, event) =>
      json 200 (VObj [("success", VBool true);
                      ("featured", VBool featured);
                      ("data", Event.toJSON toLocaleDateString event)])
  end.

End Routes.

End PublicEvents.

(** ** routes/publicEventRoutes.js, the variant optimized for the free tier *)

Module PublicEventsOptimized.

Import Js Http Mongo.

Definition selected : list string :=
  ["title"; "description"; "date"; "time"; "location"; "type"; "status";
   "isFeatured"; "imageUrl"; "registrationUrl"].

(** [req.query.search && req.query.search.trim()]. *)
Definition searchTerm (search : option string) : option string :=
  match search with
  | Some s => if truthy s && truthy (trim s) then Some (trim s) else None
  | None => None
  end.

Section Routes.

Variable regexEngine : string → string → bool.
Variable regexError : string → option Exn.
Variable oddWindow : option Z → option Z → Try (nat * option nat).

(** [process.env.NODE_ENV]. *)
Variable NODE_ENV : option string.

(** The filter object: open statuses, and no condition on the date. *)
Definition buildQuery (search : option string) : gmap string Clause :=
  let query : gmap string Clause := {["status" := PublicEvents.open_statuses]} in
  match searchTerm search with
  | Some term => <["$or" := PublicEvents.searchClause term]> query
  | None => query
  end.

Definition listed (store : list Event.t) (search : option string) : Try (list Event.t) :=
  match searchTerm search ≫= badPattern regexError with
  | Some e => Threw e
  | None =>
      find regexEngine oddWindow Event.toObject (buildQuery search)
        PublicEvents.featuredThenDate (Some 0) (Some 50) store
  end.

(** [GET /api/public/events].  [duration] is the elapsed time as
    [toFixed(0)] prints it, [stamp] the value of [Date.now()] in decimal and
    [iso] the time of the error in ISO form. *)
Definition listEvents (store : list Event.t) (search : option string)
    (duration stamp iso : string) : Response :=
  match listed store search with
  | Returned events =>
      mkResponse
        [("Cache-Control", "public, max-age=300");
         ("ETag", dquote +:+ "events-" +:+ stamp +:+ dquote);
         ("X-Response-Time", duration +:+ "ms")]
        200
        (VObj [("success", VBool true);
               ("count", VNum (Z.of_nat (length events)));
               ("data", VArr (Event.project selected <$> events));
               ("cached", VBool false);
               ("responseTime", VStr (duration +:+ "ms"))])
  | Threw error =>
      let unavailable :=
        String.eqb (name error) "MongooseError" || String.eqb (name error) "MongoError" in
      json (if unavailable then 503 else 500)
        (VObj [("success", VBool false);
               ("error", VStr (if unavailable then "Database temporarily unavailable"
                               else "Failed to fetch events"));
               ("message", VStr (if bool_decide (NODE_ENV = Some "development")
                                 then message error else "Server error"));
               ("timestamp", VStr iso)])
  end.

End Routes.

End PublicEventsOptimized.

(** ** models/Practitioner.js *)

Module Practitioner.

Import Js.

Record t : Type := mk {
  _id : string;
  user : option string;
  name : string;
  title : string;
  specialty : string;
  experience : string;
  bio : string;
  locations : list string;
  email : string;
  phone : string;
  address : option string;
  website : option string;
  fees_initial : Z;
  fees_followUp : Z;
  insurances : list string;
  paymentOptions : list string;
  sessionTypes : list string;
  availability : option string;
  education : option string;
  imageUrl : option string;
  status : string;
  isFeatured : bool;
  createdAt : Z
}.

Definition opt (k : string) (v : option string) : list (string * Value) :=
  match v with
  | Some x => [(k, VStr x)]
  | None => []
  end.

Definition strings (l : list string) : Value := VArr (VStr <$> l).

(** The stored document as a plain object; the schema declares no virtuals
    for JSON, so this is also what [res.json] writes. *)
Definition fields (p : t) : list (string * Value) :=
  [("_id", VStr (_id p))]
  ++ opt "user" (user p)
  ++ [("name", VStr (name p)); ("title", VStr (title p));
      ("specialty", VStr (specialty p)); ("experience", VStr (experience p));
      ("bio", VStr (bio p)); ("locations", strings (locations p));
      ("email", VStr (email p)); ("phone", VStr (phone p))]
  ++ opt "address" (address p)
  ++ opt "website" (website p)
  ++ [("fees", VObj [("initial", VNum (fees_initial p));
                     ("followUp", VNum (fees_followUp p))]);
      ("insurances", strings (insurances p));
      ("paymentOptions", strings (paymentOptions p));
      ("sessionTypes", strings (sessionTypes p))]
  ++ opt "availability" (availability p)
  ++ opt "education" (education p)
  ++ opt "imageUrl" (imageUrl p)
  ++ [("status", VStr (status p)); ("isFeatured", VBool (isFeatured p));
      ("createdAt", VDate (createdAt p))].

Definition toObject (p : t) : Value := VObj (fields p).

(** [select('a b c')] on a lean document: the named paths and [_id]. *)
Definition project (paths : list string) (p : t) : Value :=
  VObj (List.filter (λ kv, bool_decide (fst kv ∈ "_id" :: paths)) (fields p)).

End Practitioner.

(** ** The listing routes of the practitioners *)

Module Practitioners.

Import Js Http Mongo Auth.

(** A query-string parameter: given once, or repeated. *)
Inductive Param : Type :=
| One (s : string)
| Many (l : list string).

Record Query : Type := mkQuery {
  q_search : option string;
  q_specialty : option Param;
  q_location : option Param;
  q_insurance : option Param;
  q_paymentOption : option Param;
  q_sessionType : option Param;
  q_maxFee : option string;
  q_status : option string;
  q_isFeatured : option string;
  q_page : option string;
  q_limit : option string
}.

Definition given (x : option string) : bool :=
  match x with
  | Some s => truthy s
  | None => false
  end.

Definition text (x : option string) : string := default "" x.

(** The parameter as the value that [req.query] holds. *)
Definition raw (x : Param) : Value :=
  match x with
  | One s => VStr s
  | Many l => VArr (VStr <$> l)
  end.

(** [if (x) query.key = x].  Mongoose casts the value to the type of the
    path: an array given for a path of type String becomes
    [{ $in: [...] }], an array given for an array path stays an equality
    with the whole array. *)
Definition asGiven (arrayPath : bool) (key : string) (x : option Param)
    (query : gmap string Clause) : gmap string Clause :=
  match x with
  | Some v =>
      if truthyV (Some (raw v))
      then match v with
           | Many l =>
               if arrayPath then <[key := QField (CEq (raw v))]> query
               else <[key := QField (CIn (VStr <$> l))]> query
           | One _ => <[key := QField (CEq (raw v))]> query
           end
      else query
  | None => query
  end.

Definition searchClause (term : string) : Clause :=
  QOr [("name", CRegex term); ("specialty", CRegex term); ("bio", CRegex term)].

(** [if (x) { Array.isArray(x) ? { $in: x } : x }]. *)
Definition oneOrMany (key : string) (x : option Param)
    (query : gmap string Clause) : gmap string Clause :=
  match x with
  | Some (One s) => if truthy s then <[key := QField (CEq (VStr s))]> query else query
  | Some (Many l) => <[key := QField (CIn (VStr <$> l))]> query
  | None => query
  end.

(** [sort({ isFeatured: -1, createdAt: -1 })]. *)
Definition featuredThenNewest (a b : Practitioner.t) : bool :=
  if Bool.eqb (Practitioner.isFeatured a) (Practitioner.isFeatured b)
  then Practitioner.createdAt b <=? Practitioner.createdAt a
  else Practitioner.isFeatured a.

(** [sort({ isFeatured: -1, rating: -1 })]: no document has a [rating]. *)
Definition featuredFirst (a b : Practitioner.t) : bool :=
  if Bool.eqb (Practitioner.isFeatured a) (Practitioner.isFeatured b)
  then true
  else Practitioner.isFeatured a.

(** [sort({ isFeatured: -1, name: 1 })]. *)
Definition featuredThenName (a b : Practitioner.t) : bool :=
  if Bool.eqb (Practitioner.isFeatured a) (Practitioner.isFeatured b)
  then String.leb (Practitioner.name a) (Practitioner.name b)
  else Practitioner.isFeatured a.

Section Routes.

Variable regexEngine : string → string → bool.
Variable regexError : string → option Exn.
Variable oddWindow : option Z → option Z → Try (nat * option nat).
Variable unboundedWindow : Number → Number → Try (nat * option nat).
Variable rounding : Rounding.

(** The pagination window: page, page size and offset. *)
Definition paging (q : Query) (size : Z) : Number * Number * Number :=
  let page := parseIntOr rounding (q_page q) 1 in
  let limit := parseIntOr rounding (q_limit q) size in
  (page, limit, mul rounding (sub rounding page (Int 1)) limit).

Definition checked (term : option string) : option Exn :=
  if given term then badPattern regexError (text term) else None.

(** *** routes/practitionerRoutes.js: [GET /api/practitioners] *)

Definition adminQuery (q : Query) : gmap string Clause :=
  let query0 : gmap string Clause :=
    if given (q_search q) then {["$or" := searchClause (text (q_search q))]} else ∅ in
  let query2 :=
    asGiven true "locations" (q_location q)
      (asGiven false "specialty" (q_specialty q) query0) in
  let query3 :=
    if given (q_status q)
    then <["status" := QField (CEq (VStr (text (q_status q))))]> query2
    else query2 in
  match q_isFeatured q with
  | Some x => <["isFeatured" := QField (CEq (VBool (String.eqb x "true")))]> query3
  | None => query3
  end.

Definition adminListed (store : list Practitioner.t) (q : Query)
    : Try (list Practitioner.t) :=
  match checked (q_search q) with
  | Some e => Threw e
  | None =>
      let '(page, limit, startIndex) := paging q 10 in
      findPage regexEngine oddWindow unboundedWindow Practitioner.toObject (adminQuery q)
        featuredThenNewest startIndex limit store
  end.

Definition listPractitioners (store : list Practitioner.t) (q : Query) : Response :=
  match adminListed store q with
  | Threw _ => failure 500 "Server error while fetching practitioners"
  | Returned practitioners =>
      let '(page, limit, startIndex) := paging q 10 in
      let totalCount :=
        countDocuments regexEngine Practitioner.toObject (adminQuery q) store in
      json 200
        (VObj [("success", VBool true);
               ("count", VNum (Z.of_nat (length practitioners)));
               ("totalCount", VNum totalCount);
               ("pagination",
                VObj [("total", VNum totalCount); ("page", toValue page);
                      ("pages", ceilRatio totalCount limit)]);
               ("data", VArr (Practitioner.toObject <$> practitioners))])
  end.

Definition listRoute (store : list Practitioner.t) (req : Request) (q : Query)
    : Response :=
  match requireEmployee req with
  | Respond r => r
  | CallNext => listPractitioners store q
  end.

(** *** routes/publicPractitionerRoutes.js: [GET /api/public/practitioners] *)

Definition publicQuery (q : Query) : gmap string Clause :=
  let query0 : gmap string Clause := {["status" := QField (CEq (VStr "active"))]} in
  let query1 :=
    if given (q_search q) then <["$or" := searchClause (text (q_search q))]> query0
    else query0 in
  let query2 :=
    oneOrMany "sessionTypes" (q_sessionType q)
      (oneOrMany "paymentOptions" (q_paymentOption q)
         (oneOrMany "insurances" (q_insurance q)
            (oneOrMany "locations" (q_location q)
               (oneOrMany "specialty" (q_specialty q) query1)))) in
  if given (q_maxFee q)
  then <["fees.followUp" :=
           QField (CLte (parseIntAuto rounding (text (q_maxFee q))))]> query2
  else query2.

(** Mongoose casts the filter object before it sends the query: [NaN] does
    not cast to the Number of [fees.followUp]. *)
Definition castError (q : Query) : option Exn :=
  if given (q_maxFee q)
  then match parseIntAuto rounding (text (q_maxFee q)) with
       | NaN => Some (numberError "fees.followUp" "Practitioner")
       | _ => None
       end
  else None.

Definition publicListed (store : list Practitioner.t) (q : Query)
    : Try (list Practitioner.t) :=
  match castError q with
  | Some e => Threw e
  | None =>
      match checked (q_search q) with
      | Some e => Threw e
      | None =>
          let '(page, limit, startIndex) := paging q 12 in
          findPage regexEngine oddWindow unboundedWindow Practitioner.toObject
            (publicQuery q) featuredFirst startIndex limit store
      end
  end.

Definition listPublic (store : list Practitioner.t) (q : Query) : Response :=
  match publicListed store q with
  | Threw _ => failure 500 "Server error"
  | Returned practitioners =>
      let '(page, limit, startIndex) := paging q 12 in
      let total :=
        countDocuments regexEngine Practitioner.toObject (publicQuery q) store in
      json 200
        (VObj [("success", VBool true);
               ("count", VNum (Z.of_nat (length practitioners)));
               ("pagination",
                VObj [("total", VNum total); ("page", toValue page);
                      ("pages", ceilRatio total limit)]);
               ("data", VArr (Practitioner.toObject <$> practitioners))])
  end.

(** *** The variant of the public listing optimized for the free tier *)

Definition selected : list string :=
  ["name"; "title"; "specialty"; "experience"; "bio"; "locations"; "email"; "phone";
   "fees"; "insurances"; "paymentOptions"; "sessionTypes"; "isFeatured"; "imageUrl";
   "status"].

Definition optimizedQuery (search : option string) : gmap string Clause :=
  let query : gmap string Clause := {["status" := QField (CEq (VStr "active"))]} in
  match PublicEventsOptimized.searchTerm search with
  | Some term => <["$or" := searchClause term]> query
  | None => query
  end.

Definition optimizedListed (store : list Practitioner.t) (search : option string)
    : Try (list Practitioner.t) :=
  match PublicEventsOptimized.searchTerm search ≫= badPattern regexError with
  | Some e => Threw e
  | None =>
      find regexEngine oddWindow Practitioner.toObject (optimizedQuery search)
        featuredThenName (Some 0) (Some 100) store
  end.

(** [process.env.NODE_ENV]. *)
Variable NODE_ENV : option string.

(** The route of the optimized variant; [duration], [stamp] and [iso] as in
    the optimized listing of the events. *)
Definition listOptimized (store : list Practitioner.t) (search : option string)
    (duration stamp iso : string) : Response :=
  match optimizedListed store search with
  | Returned practitioners =>
      mkResponse
        [("Cache-Control", "public, max-age=300");
         ("ETag", dquote +:+ "practitioners-" +:+ stamp +:+ dquote);
         ("X-Response-Time", duration +:+ "ms")]
        200
        (VObj [("success", VBool true);
               ("count", VNum (Z.of_nat (length practitioners)));
               ("data", VArr (Practitioner.project selected <$> practitioners));
               ("cached", VBool false);
               ("responseTime", VStr (duration +:+ "ms"))])
  | Threw error =>
      let unavailable :=
        String.eqb (name error) "MongooseError" || String.eqb (name error) "MongoError" in
      json (if unavailable then 503 else 500)
        (VObj [("success", VBool false);
               ("error", VStr (if unavailable then "Database temporarily unavailable"
                               else "Failed to fetch practitioners"));
               ("message", VStr (if bool_decide (NODE_ENV = Some "development")
                                 then message error else "Server error"));
               ("timestamp", VStr iso)])
  end.

(** *** routes/publicPractitionerRoutes.js: one practitioner, and the
    featured ones *)

Variable validId : string → bool.

(** A query without [sort]: the documents in the order of the
    collection. *)
Definition asStored (a b : Practitioner.t) : bool := true.

Definition activeWithId (id : string) : gmap string Clause :=
  <["_id" := QField (CEq (VStr id))]> {["status" := QField (CEq (VStr "active"))]}.

(** [Practitioner.findOne({ _id: id, status: 'active' })]. *)
Definition findActive (store : list Practitioner.t) (id : string)
    : Try (option Practitioner.t) :=
  if validId id
  then Returned (findOne regexEngine Practitioner.toObject (activeWithId id) asStored
                   store)
  else Threw (objectIdError id "Practitioner").

(** [GET /api/public/practitioners/:id]. *)
Definition getPublic (store : list Practitioner.t) (id : string) : Response :=
  match findActive store id with
  | Threw (CastError kind _) =>
      if String.eqb kind "ObjectId" then failure 404 "Practitioner not found"
      else failure 500 "Server error"
  | Threw _ => failure 500 "Server error"
  | Returned None => failure 404 "Practitioner not found"
  | Returned (Some practitioner) =>
      json 200 (VObj [("success", VBool true);
                      ("data", Practitioner.toObject practitioner)])
  end.

Definition featuredQuery : gmap string Clause :=
  <["isFeatured" := QField (CEq (VBool true))]>
    {["status" := QField (CEq (VStr "active"))]}.

(** [Practitioner.find({ status: 'active', isFeatured: true }).limit(5)]. *)
Definition featuredListed (store : list Practitioner.t) : Try (list Practitioner.t) :=
  find regexEngine oddWindow Practitioner.toObject featuredQuery asStored
    (Some 0) (Some 5) store.

(** [GET /api/public/practitioners/featured/list]. *)
Definition listFeatured (store : list Practitioner.t) : Response :=
  match featuredListed store with
  | Threw _ => failure 500 "Server error"
  | Returned practitioners =>
      json 200
        (VObj [("success", VBool true);
               ("count", VNum (Z.of_nat (length practitioners)));
               ("data", VArr (Practitioner.toObject <$> practitioners))])
  end.

End Routes.

End Practitioners.

(** ** routes/uploadRoutes.js: deleting and inspecting an uploaded file *)

Module Upload.

Import Js Http Auth.

(** What [fs.statSync] reports about an entry of the file system. *)
Record Stats : Type := mkStats {
  isDirectory : bool;
  size : Z;
  birthtime : Z;
  mtime : Z
}.

(** The calls that a handler makes on the [fs] module, in order. *)
Inductive FsCall : Type :=
| ExistsSync (path : string)
| UnlinkSync (path : string)
| StatSync (path : string).

(** [fs.existsSync]. *)
Definition existsSync (fs : gmap string Stats) (path : string) : bool :=
  bool_decide (is_Some (fs !! path)).

(** [fs.unlinkSync]: removes a file; throws on a directory or a missing
    entry. *)
Definition unlinkSync (fs : gmap string Stats) (path : string)
    : Try (gmap string Stats) :=
  match fs !! path with
  | Some st =>
      if isDirectory st then Threw (SystemError "EISDIR" "illegal operation on a directory")
      else Returned (delete path fs)
  | None => Threw (SystemError "ENOENT" "no such file or directory")
  end.

(** [fs.statSync]. *)
Definition statSync (fs : gmap string Stats) (path : string) : Try Stats :=
  match fs !! path with
  | Some st => Returned st
  | None => Threw (SystemError "ENOENT" "no such file or directory")
  end.

(** The validation of the [filename] parameter against directory
    traversal. *)
Definition traversal (filename : string) : bool :=
  includes ".." filename || includes "/" filename || includes "\" filename.

(** What a handler leaves behind: the response, the file system and the
    calls made on it. *)
Record Outcome : Type := mkOutcome {
  response : Response;
  files : gmap string Stats;
  calls : list FsCall
}.

Section Routes.

(** [path.join] and [process.cwd()]. *)
Variable pathJoin : list string → string.
Variable cwd : string.

(** [DELETE /api/upload/:filename], after its guard. *)
Definition deleteImage (fs : gmap string Stats) (filename : string) : Outcome :=
  if traversal filename
  then mkOutcome (failure 400 "Invalid filename") fs []
  else
    let filePath := pathJoin [cwd; "uploads"; filename] in
    if negb (existsSync fs filePath)
    then mkOutcome (failure 404 "File not found") fs [ExistsSync filePath]
    else
      match unlinkSync fs filePath with
      | Threw _ =>
          mkOutcome (failure 500 "Error deleting image") fs
            [ExistsSync filePath; UnlinkSync filePath]
      | Returned fs' =>
          mkOutcome
            (json 200 (VObj [("success", VBool true);
                             ("message", VStr "Image deleted successfully")]))
            fs' [ExistsSync filePath; UnlinkSync filePath]
      end.

(** [GET /api/upload/:filename], after its guard. *)
Definition imageInfo (fs : gmap string Stats) (filename : string) : Outcome :=
  if traversal filename
  then mkOutcome (failure 400 "Invalid filename") fs []
  else
    let filePath := pathJoin [cwd; "uploads"; filename] in
    if negb (existsSync fs filePath)
    then mkOutcome (failure 404 "File not found") fs [ExistsSync filePath]
    else
      match statSync fs filePath with
      | Threw _ =>
          mkOutcome (failure 500 "Error getting file information") fs
            [ExistsSync filePath; StatSync filePath]
      | Returned stats =>
          mkOutcome
            (json 200
               (VObj [("success", VBool true);
                      ("data",
                       VObj [("filename", VStr filename);
                             ("size", VNum (size stats));
                             ("created", VDate (birthtime stats));
                             ("modified", VDate (mtime stats));
                             ("url", VStr ("/uploads/" +:+ filename))])]))
            fs [ExistsSync filePath; StatSync filePath]
      end.

(** The two routes behind [authorize('admin')]. *)
Definition deleteRoute (fs : gmap string Stats) (req : Request) (filename : string)
    : Outcome :=
  match authorize ["admin"] req with
  | Respond r => mkOutcome r fs []
  | CallNext => deleteImage fs filename
  end.

Definition infoRoute (fs : gmap string Stats) (req : Request) (filename : string)
    : Outcome :=
  match authorize ["admin"] req with
  | Respond r => mkOutcome r fs []
  | CallNext => imageInfo fs filename
  end.

(** utils/imageUpload.js: [deleteFile] and [fileExists].  The result of
    [deleteFile], or the exception of [unlinkSync], and the file system
    afterwards. *)
Definition deleteFile (fs : gmap string Stats) (filename : string)
    : Try bool * gmap string Stats :=
  let filePath := pathJoin [cwd; "uploads"; filename] in
  if existsSync fs filePath
  then match unlinkSync fs filePath with
       | Threw e => (Threw e, fs)
       | Returned fs' => (Returned true, fs')
       end
  else (Returned false, fs).

Definition fileExists (fs : gmap string Stats) (filename : string) : bool :=
  existsSync fs (pathJoin [cwd; "uploads"; filename]).

End Routes.

(** The MIME types that the file filter lets through. *)
Definition allowedTypes : list string :=
  ["image/jpeg"; "image/jpg"; "image/png"; "image/gif"; "image/webp"].

(** What reaches the error handler of the upload: a [MulterError] with its
    code, or another error. *)
Inductive UploadError : Type :=
| MulterError (code message : string)
| PlainError (message : string).

(** [fileFilter]: [None] is [cb(null, true)], [Some err] is
    [cb(err, false)]. *)
Definition fileFilter (mimetype : string) : option UploadError :=
  if bool_decide (mimetype ∈ allowedTypes) then None
  else Some (PlainError ("Invalid file type. Only " +:+ String.concat ", " allowedTypes
                         +:+ " are allowed.")).

(** [handleMulterError]; [None] is a call without error. *)
Definition handleMulterError (err : option UploadError) : Step :=
  match err with
  | Some (MulterError code message) =>
      if String.eqb code "LIMIT_FILE_SIZE"
      then Respond (failure 413 "File too large. Maximum size allowed is 5MB.")
      else if String.eqb code "LIMIT_FILE_COUNT"
      then Respond (failure 400 "Too many files. Only one file is allowed.")
      else if String.eqb code "LIMIT_UNEXPECTED_FILE"
      then Respond (failure 400 "Unexpected field name for file upload.")
      else Respond (failure 400 ("Upload error: " +:+ message))
  | Some (PlainError message) => Respond (failure 400 message)
  | None => CallNext
  end.

End Upload.

(** * The vocabulary of the properties and the data of the examples *)

Section StringFactsTerms.

Import Js.

(** [s] contains [needle]: the meaning of [includes]. *)
Definition contains (needle s : string) : Prop :=
  ∃ pre post, s = pre +:+ needle +:+ post.

(** [s] contains [needle] when letter case is ignored. *)
Definition containsNoCase (needle s : string) : Prop :=
  contains (toLowerCase needle) (toLowerCase s).

(** [s] has no space in it. *)
Definition spaceless (s : string) : Prop := ¬ contains " " s.

End StringFactsTerms.

Section GuardTerms.

Import Js Http Auth.

(** The permission policy in the words of the specification: no principal is
    unauthenticated; role [admin] passes; otherwise the named permission
    must be in the principal's permission set. *)
Definition permissionPolicy (permission : string) (u : option Principal.t)
    : option Z :=
  match u with
  | None => Some 401
  | Some p =>
      if bool_decide (Principal.role p = "admin") then None
      else if bool_decide (permission ∈ default [] (Principal.permissions p)) then None
      else Some 403
  end.

(** An administrator whose account carries no permissions array. *)
Definition bare_admin : Principal.t :=
  Principal.mk "a1" "Ada" "ada@example.org" "admin" None None "active".

End GuardTerms.

Section CredentialVerifierTerms.

Import Js Http Auth.

Variable jwt_verify : string → option Payload.
Variable findById : string → Try (option User.t).

(** The request presents [token] as its bearer token: its [Authorization]
    header reads [Bearer], a space and the token.  More may follow the word
    [Bearer] before the space, and more may follow the token after another
    space; the token itself is not empty and has no space in it. *)
Definition presents (req : Request) (token : string) : Prop :=
  ∃ scheme rest,
    authorization req = Some ("Bearer" +:+ scheme +:+ " " +:+ token +:+ rest)
    ∧ spaceless scheme ∧ spaceless token ∧ token ≠ ""
    ∧ (rest = "" ∨ ∃ more, rest = " " +:+ more).

(** The four cases of the specification in which a request is refused: no
    bearer token is presented, the verification of the token fails, the
    identifier in the token resolves to no stored account, or the account
    has a status that is not [active]. *)
Inductive Refused (req : Request) : Prop :=
| NoToken :
    (∀ token, ¬ presents req token) → Refused req
| VerificationFails (token : string) :
    presents req token → jwt_verify token = None → Refused req
| NoStoredAccount (token : string) (decoded : Payload) :
    presents req token → jwt_verify token = Some decoded →
    findById (payload_id decoded) = Returned None → Refused req
| AccountNotActive (token : string) (decoded : Payload) (u : User.t) (s : User.Status) :
    presents req token → jwt_verify token = Some decoded →
    findById (payload_id decoded) = Returned (Some u) →
    User.status u = Some s → s ≠ User.Active → Refused req.

(** A fifth case: the token verifies, and the lookup of the account does
    not answer; the store throws. *)
Definition LookupFails (req : Request) : Prop :=
  ∃ token decoded error,
    presents req token ∧ jwt_verify token = Some decoded
    ∧ findById (payload_id decoded) = Threw error.

End CredentialVerifierTerms.

Section EmployeeDeletionData.

Import Js Http Auth Employees.

(** A collection with a single administrator and a member of staff. *)
Definition ada : User.t :=
  User.mk "a1" "Ada" "ada@example.org" "admin" (Some "$2a$10$hash") None
    (Some "IT") (Some User.Active) (Some ["delete_users"]) true false None 0 0.

Definition sam : User.t :=
  User.mk "s1" "Sam" "sam@example.org" "staff" (Some "$2a$10$other") None
    (Some "Desk") (Some User.Active) (Some []) true false (Some "a1") 5 5.

Definition grace : User.t :=
  User.mk "a2" "Grace" "grace@example.org" "admin" (Some "$2a$10$third") None
    (Some "IT") (Some User.Active) (Some []) true false (Some "a1") 7 7.

Definition as_caller (u : User.t) : Request :=
  mkRequest None (Some (principal_of u)).

Definition with_code (code : string) : Body :=
  mkBody None None None None None None None None (Some code).

End EmployeeDeletionData.

Section CredentialVerifierData.

Import Js Http Auth.

(** A verifier that accepts no token, a store that knows Ada, and a request
    with a token that has expired. *)
Definition reject_all : string → option Payload := λ _, None.

Definition lookup_ada (id : string) : Try (option User.t) :=
  Returned (if String.eqb id "a1" then Some (Users.deselect ada) else None).

Definition expired_request : Request := mkRequest (Some "Bearer expired.jwt") None.

(** A store that is out of reach. *)
Definition lookup_down (id : string) : Try (option User.t) :=
  Threw (MongoError "MongoNetworkError" 0 "connection refused").

End CredentialVerifierData.

Section UploadTraversalData.

Import Js Http Auth Upload.

(** An administrator asks for [../../etc/passwd] on a file system that holds
    one upload. *)
Definition one_upload : gmap string Stats :=
  {["/srv/app/uploads/image-1.png" := mkStats false 2048 10 10]}.

Definition join_with_slash (parts : list string) : string := String.concat "/" parts.

End UploadTraversalData.

Section PractitionerSearchTerms.

Import Js Http Mongo Practitioners.

(** The record shows the term in its name, its specialty or its bio. *)
Definition shows (term : string) (p : Practitioner.t) : Prop :=
  containsNoCase term (Practitioner.name p)
  ∨ containsNoCase term (Practitioner.specialty p)
  ∨ containsNoCase term (Practitioner.bio p).

End PractitionerSearchTerms.

Section PractitionerSearchData.

Import Js Http Mongo Practitioners.

Definition practitioner (id name specialty bio : string) (featured : bool)
    (created : Z) : Practitioner.t :=
  Practitioner.mk id None name "Therapist" specialty "5 years" bio ["Austin"]
    "office@example.org" "555-0100" None None 150 120 [] [] ["online"] None None
    None "active" featured created.

Definition directory : list Practitioner.t :=
  [practitioner "p1" "Yolanda" "Hot YOGA" "Teaches daily." false 1;
   practitioner "p2" "Bob" "Massage" "Deep tissue work." true 2;
   practitioner "p3" "Cy" "Reiki" "Loves yoga and tea." false 3].

Definition no_engine : string → string → bool := λ _ _, false.

Definition no_regex_error : string → option Exn := λ _, None.

Definition refuse_window : option Z → option Z → Try (nat * option nat) :=
  λ _ _, Threw (MongoError "MongoServerError" 2 "skip and limit must be positive").

Definition refuse_unbounded : Number → Number → Try (nat * option nat) :=
  λ _ _, Threw (MongoError "MongoServerError" 2 "skip and limit must be finite").

(** The double next to an integer, ties to the even one, and an infinity
    from [2^1024] on; [parseInt] is taken to round in the same way. *)
Definition nearest_double (n : Z) : Number :=
  let size := Z.log2 (Z.abs n) - 52 in
  if size <=? 0 then Int n
  else
    let q := Z.abs n / 2 ^ size in
    let r := Z.abs n mod 2 ^ size in
    let half := 2 ^ (size - 1) in
    let q' := if (half <? r) || ((r =? half) && Z.odd q) then q + 1 else q in
    if 2 ^ 1024 <=? q' * 2 ^ size then Infinity (n <? 0)
    else Int (Z.sgn n * (q' * 2 ^ size)).

Definition nearest : Rounding := mkRounding (λ _, nearest_double) nearest_double.

Definition search_yoga : Query :=
  mkQuery (Some "yoga") None None None None None None None None None None.

End PractitionerSearchData.

Section PaginationTerms.

(** The decimal numeral of a natural number, without sign or leading
    zeros. *)
Definition decimal (n : Z) : string := NilZero.string_of_uint (N.to_uint (Z.to_N n)).

(** A parameter of the query string asks for the number [n]: its text is
    the numeral of [n], or it is absent and [n] is the default [d]. *)
Definition asksFor (x : option string) (d n : Z) : Prop :=
  x = Some (decimal n) ∨ (x = None ∧ n = d).

End PaginationTerms.

Section PaginationData.

Import Js Http Mongo.

Definition letter (i : nat) : string := String (ascii_of_nat (65 + i)) EmptyString.

(** Twenty-five practitioners and twenty-five coming events. *)
Definition practitioners25 : list Practitioner.t :=
  (λ i, practitioner (letter i) "Name" "Counselling" "Bio." false (Z.of_nat i))
  <$> seq 0 25.

Definition events25 : list Event.t :=
  (λ i, Event.mk (letter i) "Open day" "Meet the team." (1000 + Z.of_nat i) "10:00"
          "Main hall" "community" "upcoming" false 0 "" "" "a1" 0 0)
  <$> seq 0 25.

Definition second_page : Practitioners.Query :=
  Practitioners.mkQuery None None None None None None None None None
    (Some "2") (Some "10").

Definition second_page_of_events : PublicEvents.Query :=
  PublicEvents.mkQuery None None None (Some "2") (Some "10").

Definition plain_date (t : Z) : string := "a date".

Definition add_days (t n : Z) : Z := t + n * 86400000.

Definition month_date (t k d : Z) : Z := t + k * 2592000000 + d * 86400000.

End PaginationData.

Section PublicEventDefaultsTerms.

Import Js Http Mongo.

(** The event is open: its status is [upcoming] or [ongoing], hence neither
    [cancelled] nor [completed]. *)
Definition isOpen (e : Event.t) : Prop :=
  Event.status e = "upcoming" ∨ Event.status e = "ongoing".

End PublicEventDefaultsTerms.

Section PublicEventDefaultsData.

Import Js Http Mongo.

(** An event of last week that nobody closed, and one of next week. *)
Definition last_week : Event.t :=
  Event.mk "e1" "Breathing workshop" "An evening class." 400 "18:00" "Studio 2"
    "workshop" "upcoming" false 12 "" "" "a1" 100 100.

Definition next_week : Event.t :=
  Event.mk "e2" "Support circle" "Monthly meeting." 1600 "17:00" "Room 4"
    "support-group" "upcoming" true 3 "" "" "a1" 200 200.

Definition no_filter : PublicEvents.Query :=
  PublicEvents.mkQuery None None None None None.

End PublicEventDefaultsData.

Section EventUpdateTerms.

Import Js Http Auth Events.

(** The body [{ status: "cancelled" }]. *)
Definition cancel : Body :=
  mkBody None None None None None None (Some "cancelled") None None None None.

End EventUpdateTerms.

Section EventUpdateData.

Import Js Http Auth Events.

Definition any_id : string → bool := λ _, true.

Definition any_url : string → bool := λ _, true.

Definition no_date : string → option Z := λ _, None.

End EventUpdateData.

Section PasswordFactsTerms.

Import Js Http Auth.

(** Two collections that agree on everything but the stored passwords. *)
Definition agree (s1 s2 : list User.t) : Prop :=
  Users.deselect <$> s1 = Users.deselect <$> s2.

End PasswordFactsTerms.

Section PasswordFlowTerms.

Import Js Http Auth Employees.

Variable validId : string → bool.
Variable regexEngine : string → string → bool.
Variable regexError : string → option Exn.
Variable oddWindow : option Z → option Z → Try (nat * option nat).
Variable unboundedWindow : Number → Number → Try (nat * option nat).
Variable rounding : Rounding.
Variable emailOk : string → bool.
Variable bcryptHash : string → string.
Variable MASTER_SECURITY_CODE : option string.

(** The answers of the employee routes to one request each, on a given
    collection: listing, reading, creating, updating, deleting and
    resetting the password. *)
Definition answers (store : list User.t) (req : Request) (q : ListQuery)
    (id newId tempPassword : string) (now : Z) (body : Body) : list Response :=
  [listEmployees regexEngine regexError oddWindow unboundedWindow rounding store q;
   getEmployee validId store id;
   (createRoute emailOk bcryptHash store req newId now body).1;
   (updateRoute validId emailOk store req id now body).1;
   (deleteRoute validId MASTER_SECURITY_CODE store req id body).1;
   (resetRoute validId bcryptHash MASTER_SECURITY_CODE store req id now tempPassword
      body).1].

(** The collections that the four writing routes leave behind. *)
Definition afterwards (store : list User.t) (req : Request)
    (id newId tempPassword : string) (now : Z) (body : Body) : list (list User.t) :=
  [(createRoute emailOk bcryptHash store req newId now body).2;
   (updateRoute validId emailOk store req id now body).2;
   (deleteRoute validId MASTER_SECURITY_CODE store req id body).2;
   (resetRoute validId bcryptHash MASTER_SECURITY_CODE store req id now tempPassword
      body).2].

End PasswordFlowTerms.

Section PasswordFlowData.

Import Js Http Auth Employees.

(** The same two accounts, stored with other password hashes. *)
Definition ada' : User.t := Users.withPassword (Some "$2a$10$changed") ada.

Definition sam' : User.t := Users.withPassword (Some "$2a$10$another") sam.

Definition any_email : string → bool := λ _, true.

Definition toy_hash (pw : string) : string := "$2a$10$" +:+ pw.

Definition list_all : ListQuery := mkListQuery None None None None None None.

Definition rename : Body :=
  mkBody (Some "Samuel") None None None None None None None (Some "s3cret").

End PasswordFlowData.

Section GuardChainData.

Import Js Http Auth.

(** A verifier that accepts the one token issued to Sam, and a store that
    knows Sam. *)
Definition accept_sam (token : string) : option Payload :=
  if String.eqb token "sam.jwt" then Some (mkPayload "s1" "staff" "sam@example.org")
  else None.

Definition lookup_sam (id : string) : Try (option User.t) :=
  Returned (if String.eqb id "s1" then Some (Users.deselect sam) else None).

Definition sam_request : Request := mkRequest (Some "Bearer sam.jwt") None.

End GuardChainData.

Section EmployeeInvariantTerms.

Import Js Http Auth Employees.

(** The permissions of the record, when it stores any, are among the five
    that the schema lists. *)
Definition grantable (u : User.t) : Prop :=
  ∀ ps p, User.permissions u = Some ps → p ∈ ps → p ∈ User.permissionEnum.

End EmployeeInvariantTerms.

Section EmployeeMutationData.

Import Js Http Auth Employees.

(** A member of the public, who is no employee, and the body that hires a
    new member of support. *)
Definition pat : User.t :=
  User.mk "u1" "Pat" "pat@example.org" "user" (Some "$2a$10$fourth") None None
    (Some User.Active) (Some []) true false None 9 9.

Definition hire : Body :=
  mkBody (Some "Lin") (Some "lin@example.org") None (Some "support") (Some "Desk")
    None None (Some "welcome1") None.

(** A record from before the schema had a status and permissions, and a
    body without any field. *)
Definition lee : User.t :=
  User.mk "l1" "Lee" "lee@example.org" "manager" (Some "$2a$10$fifth") None
    (Some "Desk") None None true false None 3 3.

Definition no_change : Body := mkBody None None None None None None None None None.

End EmployeeMutationData.

Section EventFrameTerms.

Import Js Http Auth Events.


End EventFrameTerms.

Section EventMutationData.

Import Js Http Auth Events.

(** A date parser that knows one date, the wording of a cast failure, the
    failures reported in the order found, and the body of a new workshop. *)
Definition one_date (s : string) : option Z :=
  if String.eqb s "2027-03-01" then Some 3000 else None.

Definition cast_message (path : string) (v : Value) : string :=
  "Cast failed at path " +:+ path.

Definition as_found (errors : list (string * string)) : list (string * string) :=
  errors.

Definition workshop : Body :=
  mkBody (Some " Breathing again ") (Some "A second evening class.")
    (Some "2027-03-01") (Some "18:00") (Some "Studio 2") (Some "workshop") None None
    None None None.

End EventMutationData.

Section OrderTerms.

(** The list is in the order of [le]: whatever comes earlier may come
    before whatever comes later. *)
Definition ordered {A : Type} (le : A → A → bool) (l : list A) : Prop :=
  ∀ i j a b, (i < j)%nat → l !! i = Some a → l !! j = Some b → le a b = true.

End OrderTerms.

Section PublicEventOrderTerms.

Import Js Http Mongo.

(** The events are listed with the featured ones first and, among events
    that are both featured or both not, by date, the earliest first. *)
Definition featuredThenEarliest (found : list Event.t) : Prop :=
  ∀ i j a b, (i < j)%nat → found !! i = Some a → found !! j = Some b →
    (Event.isFeatured b = true → Event.isFeatured a = true)
    ∧ (Event.isFeatured a = Event.isFeatured b → Event.date a <= Event.date b).

(** The event is open, featured and dated at or after [now]. *)
Definition featuredCandidate (now : Z) (e : Event.t) : Prop :=
  isOpen e ∧ now <= Event.date e ∧ Event.isFeatured e = true.

(** The event has status [upcoming] and is dated at or after [now]. *)
Definition upcomingCandidate (now : Z) (e : Event.t) : Prop :=
  Event.status e = "upcoming" ∧ now <= Event.date e.

End PublicEventOrderTerms.

(** * Properties *)

(** ** Strings *)

Section StringFacts.

Import Js.

Lemma prefix_spec (p s : string) :
  String.prefix p s = true ↔ ∃ post, s = p +:+ post.
Proof.
  revert s. induction p as [|c p IH]; intros s; simpl.
  - destruct s; simpl; split; eauto.
  - destruct s as [|d s]; simpl.
    + split; [done | intros [post H]; discriminate H].
    + destruct (ascii_dec c d) as [->|Hne].
      * rewrite IH. split; intros [post H]; exists post.
        -- by rewrite H.
        -- by injection H.
      * split; [done | intros [post H]; injection H; intros; by subst].
Qed.

Lemma includes_spec (needle s : string) :
  includes needle s = true ↔ contains needle s.
Proof.
  unfold contains. induction s as [|c s IH].
  - change (includes needle "") with (String.prefix needle "" || false).
    rewrite orb_false_r, prefix_spec. split.
    + intros [post H]. by exists "", post.
    + intros [[|d pre] [post H]]; [by exists post | discriminate H].
  - change (includes needle (String c s))
      with (String.prefix needle (String c s) || includes needle s).
    rewrite orb_true_iff, prefix_spec, IH. split.
    + intros [[post H] | [pre [post H]]].
      * by exists "", post.
      * exists (String c pre), post. by rewrite H.
    + intros [[|d pre] [post H]].
      * left. by exists post.
      * right. injection H as _ H. by exists pre, post.
Qed.

Lemma append_cons (c : ascii) (a b : string) : String c a +:+ b = String c (a +:+ b).
Proof. reflexivity. Qed.

Lemma append_nil_r (s : string) : s +:+ "" = s.
Proof. induction s as [|c s IH]; [done|]. by rewrite append_cons, IH. Qed.

Lemma append_assoc (a b c : string) : (a +:+ b) +:+ c = a +:+ b +:+ c.
Proof. induction a as [|x a IH]; [done|]. by rewrite !append_cons, IH. Qed.

Lemma spaceless_nil : spaceless "".
Proof. intros [[|c pre] [post H]]; discriminate H. Qed.

Lemma spaceless_cons (c : ascii) (s : string) :
  spaceless (String c s) ↔ c ≠ " "%char ∧ spaceless s.
Proof.
  unfold spaceless, contains. split.
  - intros H. split.
    + intros ->. apply H. by exists "", s.
    + intros (pre & post & ->). apply H. by exists (String c pre), post.
  - intros [Hc Hs] ([|d pre] & post & H).
    + injection H as -> _. by apply Hc.
    + injection H as _ ->. apply Hs. by exists pre, post.
Qed.

(** A string splits at its first space, when it has one. *)
Lemma first_space (s : string) :
  spaceless s ∨ ∃ a b, s = a +:+ " " +:+ b ∧ spaceless a.
Proof.
  induction s as [|c s IH]; [left; apply spaceless_nil|].
  destruct (ascii_dec c " ") as [->|Hc].
  - right. exists "", s. split; [done | apply spaceless_nil].
  - destruct IH as [Hs | (a & b & -> & Ha)].
    + left. by apply spaceless_cons.
    + right. exists (String c a), b. split; [done | by apply spaceless_cons].
Qed.

(** [split] at spaces: a piece ends at the first space. *)
Lemma split_aux_last (cur a : string) :
  spaceless a → split_aux " " cur a = [cur +:+ a].
Proof.
  revert cur. induction a as [|c a IH]; intros cur Ha.
  - by rewrite append_nil_r.
  - apply spaceless_cons in Ha as [Hc Ha]. cbn [split_aux].
    rewrite (proj2 (Ascii.eqb_neq c " ") Hc), IH by done.
    by rewrite append_assoc, append_cons.
Qed.

Lemma split_aux_first (cur a b : string) :
  spaceless a →
  split_aux " " cur (a +:+ " " +:+ b) = (cur +:+ a) :: split_aux " " "" b.
Proof.
  revert cur. induction a as [|c a IH]; intros cur Ha.
  - by rewrite append_nil_r.
  - apply spaceless_cons in Ha as [Hc Ha]. rewrite append_cons. cbn [split_aux].
    rewrite (proj2 (Ascii.eqb_neq c " ") Hc), IH by done.
    by rewrite append_assoc, append_cons.
Qed.

End StringFacts.

(** ** Authorization guard *)

Section Guard.

Import Js Http Auth.

Lemma requirePermission_policy (permission : string) (req : Request) :
  decision (requirePermission permission req) = permissionPolicy permission (user req).
Proof.
  unfold requirePermission, permissionPolicy, lacks.
  destruct (user req) as [p|]; [|done].
  destruct (String.eqb_spec (Principal.role p) "admin") as [Hr|Hr].
  - by rewrite (bool_decide_eq_true_2 _ Hr).
  - rewrite (bool_decide_eq_false_2 _ Hr).
    destruct (Principal.permissions p) as [ps|]; simpl.
    + by destruct (bool_decide (permission ∈ ps)).
    + reflexivity.
Qed.

Lemma requireNewPermission_policy (permission : string) (req : Request) :
  decision (requireNewPermission permission req)
  = permissionPolicy permission (user req).
Proof.
  unfold requireNewPermission, permissionPolicy, lacks.
  destruct (user req) as [p|]; [|done].
  destruct (String.eqb_spec (Principal.role p) "admin") as [Hr|Hr].
  - by rewrite (bool_decide_eq_true_2 _ Hr).
  - rewrite (bool_decide_eq_false_2 _ Hr).
    destruct (Principal.permissions p) as [ps|]; simpl.
    + by destruct (bool_decide (permission ∈ ps)).
    + reflexivity.
Qed.

(** C1. A principal whose role is [admin] passes both permission checks,
    the standard one and the elevated one, for every permission name and
    whatever its stored permissions are: a list with or without the
    permission, an empty list, or no list at all. *)
Theorem admin_passes_every_permission_check
    (permission : string) (req : Request) (u : Principal.t) :
  user req = Some u →
  Principal.role u = "admin" →
  requirePermission permission req = CallNext
  ∧ requireNewPermission permission req = CallNext.
Proof.
  intros Hu Hr. unfold requirePermission, requireNewPermission.
  rewrite Hu, Hr. by split.
Qed.

Lemma admin_passes_every_permission_check_witness :
  requirePermission "manage_users" (mkRequest None (Some bare_admin)) = CallNext
  ∧ requireNewPermission "delete_users" (mkRequest None (Some bare_admin)) = CallNext.
Proof.
  split.
  - apply (admin_passes_every_permission_check "manage_users"
             (mkRequest None (Some bare_admin)) bare_admin); reflexivity.
  - apply (admin_passes_every_permission_check "delete_users"
             (mkRequest None (Some bare_admin)) bare_admin); reflexivity.
Defined.

(** C8. The standard and the elevated permission check decide alike: for
    every request, with or without a principal, and every permission name
    they allow or refuse together and refuse with the same status, namely
    401 without a principal, pass for role [admin], pass when the
    permission is in the principal's set, and 403 otherwise. *)
Theorem permission_checks_agree (permission : string) (req : Request) :
  decision (requirePermission permission req)
  = decision (requireNewPermission permission req)
  ∧ decision (requirePermission permission req)
    = permissionPolicy permission (user req).
Proof.
  split.
  - by rewrite requirePermission_policy, requireNewPermission_policy.
  - apply requirePermission_policy.
Qed.

End Guard.

(** ** Credential verifier *)

Section CredentialVerifier.

Import Js Http Auth.

Variable jwt_verify : string → option Payload.
Variable findById : string → Try (option User.t).

Lemma truthy_spec (s : string) : truthy s = true ↔ s ≠ "".
Proof.
  unfold truthy. destruct (String.eqb_spec s ""); simpl; split; congruence.
Qed.

Lemma not_active_spec (u : User.t) :
  not_active u = true ↔ ∃ s, User.status u = Some s ∧ s ≠ User.Active.
Proof.
  unfold not_active. destruct (User.status u) as [s|]; simpl.
  - destruct s; simpl; split.
    + discriminate.
    + intros [s [[= <-] Hs]]. contradiction.
    + intros _. by exists User.Inactive.
    + done.
    + intros _. by exists User.Suspended.
    + done.
  - split; [discriminate | intros [s [[=] _]]].
Qed.

Lemma spaceless_Bearer (scheme : string) :
  spaceless scheme → spaceless ("Bearer" +:+ scheme).
Proof.
  intros H. cbn [String.append]. by repeat (apply spaceless_cons; split; [done|]).
Qed.

(** The token that the middleware reads off the header is the bearer token
    that the request presents. *)
Lemma bearerToken_spec (req : Request) (token : string) :
  bearerToken (authorization req) = Some token ∧ token ≠ "" ↔ presents req token.
Proof.
  unfold bearerToken, presents, startsWith, split. split.
  - intros [Htok Hne]. destruct (authorization req) as [h|]; [|done].
    destruct (truthy h); [|done]. cbn [andb] in Htok.
    destruct (String.prefix "Bearer" h) eqn:Hpre; [|done].
    apply prefix_spec in Hpre as [post ->].
    destruct (first_space post) as [Hpost | (scheme & b & -> & Hscheme)].
    { rewrite (split_aux_last "" _ (spaceless_Bearer post Hpost)) in Htok. done. }
    rewrite <- append_assoc in Htok.
    rewrite (split_aux_first "" _ b (spaceless_Bearer scheme Hscheme)) in Htok.
    destruct (first_space b) as [Hb | (t & more & -> & Ht)].
    + rewrite (split_aux_last "" b Hb) in Htok. injection Htok as <-.
      exists scheme, "". rewrite append_nil_r. repeat split; try done. by left.
    + rewrite (split_aux_first "" t more Ht) in Htok. injection Htok as <-.
      exists scheme, (" " +:+ more). repeat split; try done. right. by exists more.
  - intros (scheme & rest & -> & Hscheme & Htoken & Hne & Hrest). split; [|done].
    assert (String.prefix "Bearer" ("Bearer" +:+ scheme +:+ " " +:+ token +:+ rest) = true)
      as -> by (apply prefix_spec; eauto).
    change (truthy ("Bearer" +:+ scheme +:+ " " +:+ token +:+ rest)) with true.
    cbn [andb]. rewrite <- append_assoc.
    rewrite (split_aux_first "" _ _ (spaceless_Bearer scheme Hscheme)).
    destruct Hrest as [-> | [more ->]].
    + rewrite append_nil_r. by rewrite (split_aux_last "" token Htoken).
    + by rewrite (split_aux_first "" token more Htoken).
Qed.

Lemma presents_unique (req : Request) (t1 t2 : string) :
  presents req t1 → presents req t2 → t1 = t2.
Proof.
  intros H1 H2. apply bearerToken_spec in H1 as [H1 _], H2 as [H2 _]. congruence.
Qed.

(** The verifier answers exactly in the four cases and when the lookup
    throws. *)
Lemma authenticateToken_answers_iff (req : Request) :
  Refused jwt_verify findById req ∨ LookupFails jwt_verify findById req
  ↔ ∃ r, (authenticateToken jwt_verify findById req).2 = Respond r.
Proof.
  unfold authenticateToken.
  destruct (bearerToken (authorization req)) as [token|] eqn:Htok; simpl.
  2:{ split; [eauto|]. intros _. left. apply NoToken. intros t Ht.
      apply bearerToken_spec in Ht as [Ht _]. congruence. }
  destruct (truthy token) eqn:Htruthy; simpl.
  2:{ split; [eauto|]. intros _. left. apply NoToken. intros t Ht.
      apply bearerToken_spec in Ht as [Ht Hne].
      assert (t = token) as -> by congruence.
      apply truthy_spec in Hne. congruence. }
  assert (presents req token) as Hp
    by (apply bearerToken_spec; split; [done | by apply truthy_spec]).
  destruct (jwt_verify token) as [decoded|] eqn:Hver; simpl.
  2:{ split; [eauto|]. intros _. left.
      by apply (VerificationFails jwt_verify findById req token). }
  destruct (findById (payload_id decoded)) as [[u|]|e] eqn:Hfind; simpl.
  3:{ split; [eauto|]. intros _. right. by exists token, decoded, e. }
  2:{ split; [eauto|]. intros _. left.
      by apply (NoStoredAccount jwt_verify findById req token decoded). }
  destruct (not_active u) eqn:Hact; simpl.
  - split; [eauto|]. intros _. left. apply not_active_spec in Hact as [s [Hs Hne]].
    by apply (AccountNotActive jwt_verify findById req token decoded u s).
  - split; [|intros [r [=]]].
    intros [[Hno | t Hp' Hv | t d Hp' Hv Hnone | t d u' s Hp' Hv Hf Hs Hne]
            | (t & d & e & Hp' & Hv & Hf)].
    + by destruct (Hno token).
    + rewrite (presents_unique _ _ _ Hp' Hp) in Hv. congruence.
    + rewrite (presents_unique _ _ _ Hp' Hp), Hver in Hv. injection Hv as <-.
      congruence.
    + rewrite (presents_unique _ _ _ Hp' Hp), Hver in Hv. injection Hv as <-.
      rewrite Hfind in Hf. injection Hf as <-.
      assert (not_active u = true) as Hact' by (apply not_active_spec; eauto).
      congruence.
    + rewrite (presents_unique _ _ _ Hp' Hp), Hver in Hv. injection Hv as <-.
      congruence.
Qed.

(** Every answer of the verifier is a 401 and leaves the request as it
    was. *)
Lemma authenticateToken_answer (req : Request) (r : Response) :
  (authenticateToken jwt_verify findById req).2 = Respond r →
  status r = 401 ∧ (authenticateToken jwt_verify findById req).1 = req.
Proof.
  unfold authenticateToken.
  repeat match goal with
         | |- context [match ?x with _ => _ end] => destruct x; simpl
         end; intros [= <-]; by split.
Qed.

(** Otherwise the verifier attaches the principal of the stored account. *)
Lemma authenticateToken_next (req : Request) :
  (authenticateToken jwt_verify findById req).2 = CallNext →
  ∃ token decoded u,
    presents req token ∧ jwt_verify token = Some decoded
    ∧ findById (payload_id decoded) = Returned (Some u)
    ∧ (authenticateToken jwt_verify findById req).1
      = mkRequest (authorization req) (Some (principal_of u)).
Proof.
  unfold authenticateToken.
  destruct (bearerToken (authorization req)) as [token|] eqn:Htok; simpl; [|done].
  destruct (truthy token) eqn:Htruthy; simpl; [|done].
  destruct (jwt_verify token) as [decoded|] eqn:Hver; simpl; [|done].
  destruct (findById (payload_id decoded)) as [[u|]|e] eqn:Hfind; simpl; try done.
  destruct (not_active u) eqn:Hact; simpl; [done|]. intros _.
  exists token, decoded, u. repeat split; try done.
  apply bearerToken_spec. split; [done | by apply truthy_spec].
Qed.

(** C2, as amended.  The credential verifier refuses a request in exactly
    five cases: no bearer token is presented, the verification of the token
    fails, the identifier in the token resolves to no stored account, the
    account has a status that is not [active], or the lookup of the account
    throws.  The first four are the cases of the specification.  Each
    refusal has status 401, attaches no principal to the request, and keeps
    the route behind the verifier from running: the answer of the chain is
    the refusal, whatever the route is. *)
Theorem authenticateToken_refuses_exactly (req : Request) :
  (Refused jwt_verify findById req ∨ LookupFails jwt_verify findById req
   ↔ ∃ r, (authenticateToken jwt_verify findById req).2 = Respond r)
  ∧ (∀ r, (authenticateToken jwt_verify findById req).2 = Respond r →
       status r = 401
       ∧ user (authenticateToken jwt_verify findById req).1 = user req
       ∧ ∀ (A : Type) (route : Request → A) (answer : Response → A),
           behind (authenticateToken jwt_verify findById) route answer req = answer r).
Proof.
  split; [apply authenticateToken_answers_iff|].
  intros r Hr. destruct (authenticateToken_answer req r Hr) as [Hs Hreq].
  split; [done|]. split; [by rewrite Hreq|].
  intros A route answer. unfold behind.
  destruct (authenticateToken jwt_verify findById req) as [req' step].
  simpl in Hr. by rewrite Hr.
Qed.

End CredentialVerifier.

Section CredentialVerifierExample.

Import Js Http Auth.

Lemma presents_sam : presents sam_request "sam.jwt".
Proof.
  exists "", "". split; [reflexivity|].
  split; [apply spaceless_nil|]. split; [|split; [done | by left]].
  intros H. apply includes_spec in H. discriminate H.
Qed.

Lemma authenticateToken_refuses_exactly_witness :
  ∃ r, (authenticateToken reject_all lookup_ada expired_request).2 = Respond r
       ∧ status r = 401
       ∧ user (authenticateToken reject_all lookup_ada expired_request).1 = None.
Proof.
  destruct (authenticateToken_refuses_exactly reject_all lookup_ada expired_request)
    as [Hiff Hanswer].
  assert (Refused reject_all lookup_ada expired_request) as Hrefused.
  { apply (VerificationFails reject_all lookup_ada expired_request "expired.jwt");
      [|reflexivity].
    exists "", "". split; [reflexivity|].
    split; [apply spaceless_nil|]. split; [|split; [done | by left]].
    intros H. apply includes_spec in H. discriminate H. }
  destruct (proj1 Hiff (or_introl Hrefused)) as [r Hr].
  exists r. split; [exact Hr|].
  destruct (Hanswer r Hr) as (H401 & Huser & _). split; [exact H401 | exact Huser].
Defined.

(** C2, as stated, misses a case: a request whose token verifies is also
    refused when the lookup of the account throws, as it does while the
    store is out of reach, although none of the four cases holds. *)
Lemma failed_lookup_is_a_fifth_refusal :
  ¬ Refused accept_sam lookup_down sam_request
  ∧ (authenticateToken accept_sam lookup_down sam_request).2 = Respond unauthorized
  ∧ status unauthorized = 401.
Proof.
  split; [|by split].
  intros [Hno | t Hp Hv | t d Hp Hv Hnone | t d u s Hp Hv Hf Hs Hne].
  - apply (Hno "sam.jwt"). apply presents_sam.
  - rewrite (presents_unique _ _ _ Hp presents_sam) in Hv. discriminate Hv.
  - discriminate Hnone.
  - discriminate Hf.
Qed.

End CredentialVerifierExample.

(** ** Safeguards of the employee deletion *)

Section EmployeeDeletion.

Import Js Http Auth Employees.

Variable validId : string → bool.
Variable MASTER_SECURITY_CODE : option string.

(** The guard of the route lets through only requests with a principal. *)
Lemma requireNewPermission_next (permission : string) (req : Request) :
  requireNewPermission permission req = CallNext →
  ∃ caller, user req = Some caller.
Proof.
  unfold requireNewPermission. destruct (user req) as [caller|]; [eauto | done].
Qed.

Lemma admin_isEmployee (u : User.t) : User.role u = "admin" → User.isEmployee u = true.
Proof. unfold User.isEmployee. by intros ->. Qed.

(** C3, as amended.  A caller who holds the elevated permission and supplies
    the right master code asks to delete a stored employee record.  If the
    record has role [admin] and is the only such record, the request fails
    with status 400 and the message about the last admin, and the collection
    is unchanged.  Otherwise, if the record is the caller's own account, the
    request fails with status 400 and the message about the own account, and
    the collection is unchanged.  In both cases together: deleting one's own
    employee account always ends in a 400 that deletes nothing. *)
Theorem delete_safeguards
    (store : list User.t) (req : Request) (caller : Principal.t) (id : string)
    (body : Body) (target : User.t) :
  requireNewPermission DELETE_USERS req = CallNext →
  user req = Some caller →
  wrongCode MASTER_SECURITY_CODE (b_masterCode body) = false →
  Users.findById validId store id = Returned (Some target) →
  User.isEmployee target = true →
  let result := deleteRoute validId MASTER_SECURITY_CODE store req id body in
  (User.role target = "admin" → Users.countRole store "admin" = 1 →
   result = (failure 400 "Cannot delete the last admin user", store))
  ∧ (¬ (User.role target = "admin" ∧ Users.countRole store "admin" <= 1) →
     User._id target = Principal.id caller →
     result = (failure 400 "Cannot delete your own account", store))
  ∧ (User._id target = Principal.id caller →
     status result.1 = 400 ∧ result.2 = store).
Proof.
  intros Hguard Hcaller Hcode Hfind Hemp result.
  assert (result =
          if String.eqb (User.role target) "admin" && (Users.countRole store "admin" <=? 1)
          then (failure 400 "Cannot delete the last admin user", store)
          else if String.eqb (User._id target) (Principal.id caller)
               then (failure 400 "Cannot delete your own account", store)
               else (json 200
                       (VObj [("success", VBool true);
                              ("message", VStr "Employee deleted successfully")]),
                     Users.findByIdAndDelete store id)) as Hresult.
  { unfold result, deleteRoute, deleteEmployee.
    rewrite Hguard, Hcode, Hfind, Hemp, Hcaller. reflexivity. }
  rewrite Hresult. clear Hresult. split; [|split].
  - intros Hrole Hcount. rewrite Hrole, Hcount. reflexivity.
  - intros Hnot Hself.
    destruct (String.eqb_spec (User.role target) "admin") as [Hrole|Hrole];
      destruct (Z.leb_spec (Users.countRole store "admin") 1) as [Hle|Hgt]; simpl;
      try (exfalso; apply Hnot; by split);
      by rewrite Hself, String.eqb_refl.
  - intros Hself.
    destruct (String.eqb (User.role target) "admin" && (Users.countRole store "admin" <=? 1));
      [by split|].
    rewrite Hself, String.eqb_refl. by split.
Qed.

End EmployeeDeletion.

Section EmployeeDeletionExamples.

Import Js Http Auth Employees.

Lemma delete_safeguards_witness :
  deleteRoute (λ _, true) (Some "s3cret") [ada; sam] (as_caller ada) "a1"
    (with_code "s3cret")
  = (failure 400 "Cannot delete the last admin user", [ada; sam])
  ∧ deleteRoute (λ _, true) (Some "s3cret") [ada; grace] (as_caller ada) "a1"
      (with_code "s3cret")
    = (failure 400 "Cannot delete your own account", [ada; grace]).
Proof.
  split.
  - apply (delete_safeguards (λ _, true) (Some "s3cret") [ada; sam] (as_caller ada)
             (principal_of ada) "a1" (with_code "s3cret") (Users.deselect ada));
      reflexivity.
  - apply (delete_safeguards (λ _, true) (Some "s3cret") [ada; grace] (as_caller ada)
             (principal_of ada) "a1" (with_code "s3cret") (Users.deselect ada));
      try reflexivity.
    intros [_ Hcount]. vm_compute in Hcount. by apply Hcount.
Defined.

(** C3, as stated, fails where the two safeguards meet: the only
    administrator, holding the permission and supplying the right master
    code, asks to delete the own account.  The conditions of the claim hold,
    yet the answer carries the message about the last admin, not the one
    about the own account. *)
Lemma sole_admin_self_delete_counterexample :
  let req := as_caller ada in
  let result :=
    deleteRoute (λ _, true) (Some "s3cret") [ada; sam] req "a1" (with_code "s3cret") in
  requireNewPermission DELETE_USERS req = CallNext
  ∧ wrongCode (Some "s3cret") (b_masterCode (with_code "s3cret")) = false
  ∧ Users.findById (λ _, true) [ada; sam] "a1" = Returned (Some (Users.deselect ada))
  ∧ (∃ caller, user req = Some caller ∧ User._id ada = Principal.id caller)
  ∧ result = (failure 400 "Cannot delete the last admin user", [ada; sam])
  ∧ result ≠ (failure 400 "Cannot delete your own account", [ada; sam]).
Proof.
  repeat split; try reflexivity.
  - exists (principal_of ada). by split.
  - discriminate.
Qed.

End EmployeeDeletionExamples.

(** ** Upload routes: traversal is refused before the file system is touched *)

Section UploadTraversal.

Import Js Http Auth Upload.

Variable pathJoin : list string → string.
Variable cwd : string.

Lemma traversal_spec (filename : string) :
  traversal filename = true
  ↔ contains ".." filename ∨ contains "/" filename ∨ contains "\" filename.
Proof.
  unfold traversal. rewrite !orb_true_iff, !includes_spec. tauto.
Qed.

(** C9. A request to delete or to inspect an upload whose [filename]
    contains [..], [/] or a backslash makes no call on the file system and
    leaves it as it was; once past the guard of the route it is answered
    with status 400 and the message [Invalid filename]. *)
Theorem traversal_refused_without_fs_access
    (fs : gmap string Stats) (req : Request) (filename : string) :
  contains ".." filename ∨ contains "/" filename ∨ contains "\" filename →
  let deletion := deleteRoute pathJoin cwd fs req filename in
  let info := infoRoute pathJoin cwd fs req filename in
  calls deletion = [] ∧ files deletion = fs
  ∧ calls info = [] ∧ files info = fs
  ∧ (authorize ["admin"] req = CallNext →
     response deletion = failure 400 "Invalid filename"
     ∧ response info = failure 400 "Invalid filename").
Proof.
  intros Hbad. apply traversal_spec in Hbad. simpl.
  unfold deleteRoute, infoRoute, deleteImage, imageInfo. rewrite Hbad.
  destruct (authorize ["admin"] req); simpl; repeat split; done.
Qed.

End UploadTraversal.

Section UploadTraversalExample.

Import Js Http Auth Upload.

Lemma traversal_refused_without_fs_access_witness :
  let deletion :=
    deleteRoute join_with_slash "/srv/app" one_upload
      (mkRequest None (Some bare_admin)) "../../etc/passwd" in
  let info :=
    infoRoute join_with_slash "/srv/app" one_upload
      (mkRequest None (Some bare_admin)) "../../etc/passwd" in
  calls deletion = [] ∧ files deletion = one_upload
  ∧ calls info = [] ∧ files info = one_upload
  ∧ (authorize ["admin"] (mkRequest None (Some bare_admin)) = CallNext →
     response deletion = failure 400 "Invalid filename"
     ∧ response info = failure 400 "Invalid filename").
Proof.
  apply (traversal_refused_without_fs_access join_with_slash "/srv/app" one_upload
           (mkRequest None (Some bare_admin)) "../../etc/passwd").
  left. exists "", "/../etc/passwd". reflexivity.
Defined.

End UploadTraversalExample.

(** ** Numbers: reading a numeral, and arithmetic on exact integers *)

Section NumberFacts.

Import Js.

Variable rounding : Rounding.

Lemma exact_spec (n : Z) : exact n = true ↔ Z.abs n <= 2 ^ 53.
Proof. unfold exact. apply Z.leb_le. Qed.

Lemma number_exact (n : Z) : Z.abs n <= 2 ^ 53 → number rounding n = Int n.
Proof. intros H. unfold number. by rewrite (proj2 (exact_spec n) H). Qed.

(** The offset of a page, when the numbers involved are exact. *)
Lemma offset_exact (p l : Z) :
  1 <= p <= 2 ^ 53 → Z.abs ((p - 1) * l) <= 2 ^ 53 →
  mul rounding (sub rounding (Int p) (Int 1)) (Int l) = Int ((p - 1) * l).
Proof.
  intros Hp Hpl. unfold sub. rewrite number_exact by lia.
  unfold mul. by rewrite number_exact.
Qed.

Ltac read_digit :=
  match goal with
  | |- context [digit_of ?c] =>
      let v := eval vm_compute in (digit_of c) in change (digit_of c) with v
  end.

Lemma digits_of_uint_acc (d : Decimal.uint) (acc : positive) :
  digits (Z.pos acc) (NilEmpty.string_of_uint d) = Z.pos (Pos.of_uint_acc d acc).
Proof.
  revert acc. induction d as [|d IH|d IH|d IH|d IH|d IH|d IH|d IH|d IH|d IH|d IH];
    intros acc; [reflexivity|..];
    cbn [Pos.of_uint_acc]; rewrite <- IH;
    cbn [NilEmpty.string_of_uint digits]; read_digit; cbv beta iota;
    f_equal; lia.
Qed.

(** The digits of a numeral denote its number. *)
Lemma digits_of_uint (d : Decimal.uint) :
  digits 0 (NilEmpty.string_of_uint d) = Z.of_N (Pos.of_uint d).
Proof.
  induction d as [|d IH|d IH|d IH|d IH|d IH|d IH|d IH|d IH|d IH|d IH];
    [reflexivity|..];
    cbn [NilEmpty.string_of_uint digits Pos.of_uint]; read_digit; cbv beta iota.
  - exact IH.
  - apply (digits_of_uint_acc d 1).
  - apply (digits_of_uint_acc d 2).
  - apply (digits_of_uint_acc d 3).
  - apply (digits_of_uint_acc d 4).
  - apply (digits_of_uint_acc d 5).
  - apply (digits_of_uint_acc d 6).
  - apply (digits_of_uint_acc d 7).
  - apply (digits_of_uint_acc d 8).
  - apply (digits_of_uint_acc d 9).
Qed.

Lemma parseInt_numeral (d : Decimal.uint) :
  d ≠ Decimal.Nil →
  parseInt rounding (NilEmpty.string_of_uint d)
  = signed rounding 10 false (Some (digits 0 (NilEmpty.string_of_uint d))).
Proof. destruct d; [done | reflexivity..]. Qed.

(** [parseInt] reads the numeral of a natural number as that number, as
    long as a double holds it. *)
Lemma parseInt_decimal (n : Z) :
  0 <= n <= 2 ^ 53 → parseInt rounding (decimal n) = Int n.
Proof.
  intros Hn. unfold decimal.
  assert (N.to_uint (Z.to_N n) ≠ Decimal.Nil) as Hnil.
  { destruct (Z.to_N n) as [|q]; [done | apply Unsigned.to_uint_nonnil]. }
  assert (NilZero.string_of_uint (N.to_uint (Z.to_N n))
          = NilEmpty.string_of_uint (N.to_uint (Z.to_N n))) as ->.
  { by destruct (N.to_uint (Z.to_N n)). }
  rewrite parseInt_numeral, digits_of_uint by done.
  change (Pos.of_uint (N.to_uint (Z.to_N n))) with (N.of_uint (N.to_uint (Z.to_N n))).
  rewrite DecimalN.Unsigned.of_to, Z2N.id by lia.
  unfold signed. by rewrite (proj2 (exact_spec n)) by lia.
Qed.

(** A parameter that asks for a positive number yields that number. *)
Lemma parseIntOr_asked (x : option string) (d n : Z) :
  asksFor x d n → 1 <= n <= 2 ^ 53 → parseIntOr rounding x d = Int n.
Proof.
  intros [-> | [-> ->]] Hn; [|reflexivity].
  unfold parseIntOr. rewrite parseInt_decimal by lia.
  destruct (Z.eqb_spec n 0); [lia | done].
Qed.

End NumberFacts.

(** ** The query layer: sorting, windows and filter objects *)

Section QueryFacts.

Import Js Mongo.

Context {A : Type}.

Lemma insert_by_In (le : A → A → bool) (x y : A) (l : list A) :
  In y (insert_by le x l) ↔ y = x ∨ In y l.
Proof.
  induction l as [|z l IH]; simpl.
  - intuition.
  - destruct (le x z); simpl; [intuition|]. rewrite IH. intuition.
Qed.

Lemma sort_by_In (le : A → A → bool) (y : A) (l : list A) :
  In y (sort_by le l) ↔ In y l.
Proof.
  unfold sort_by. induction l as [|x l IH]; simpl; [done|].
  rewrite insert_by_In, IH. intuition.
Qed.

Lemma insert_by_length (le : A → A → bool) (x : A) (l : list A) :
  length (insert_by le x l) = S (length l).
Proof.
  induction l as [|z l IH]; simpl; [done|].
  destruct (le x z); simpl; [done | by rewrite IH].
Qed.

Lemma sort_by_length (le : A → A → bool) (l : list A) :
  length (sort_by le l) = length l.
Proof.
  unfold sort_by. induction l as [|x l IH]; simpl; [done|].
  by rewrite insert_by_length, IH.
Qed.

Lemma cut_In (offset : nat) (cap : option nat) (y : A) (l : list A) :
  In y (cut offset cap l) → In y l.
Proof.
  unfold cut. rewrite <- !list_elem_of_In. destruct cap as [n|]; intros H.
  - by apply subseteq_drop with offset, subseteq_take with n.
  - by apply subseteq_drop with offset.
Qed.

Variable oddWindow : option Z → option Z → Try (nat * option nat).
Variable unboundedWindow : Number → Number → Try (nat * option nat).
Variable rounding : Rounding.

(** Whatever the window is, it only returns documents it was given. *)
Lemma window_In (s n : option Z) (l found : list A) (y : A) :
  window oddWindow s n l = Returned found → In y found → In y l.
Proof.
  unfold window. intros H Hy.
  assert (∀ r, match oddWindow s n with
               | Threw e => Threw e
               | Returned (offset, cap) => Returned (cut offset cap l)
               end = Returned r → In y r → In y l) as Hodd.
  { intros r. destruct (oddWindow s n) as [[offset cap]|e]; [|done].
    intros [= <-]. apply cut_In. }
  destruct s as [s'|], n as [n'|]; try by eapply Hodd.
  destruct ((0 <=? s') && (0 <? n')); [|by eapply Hodd].
  injection H as <-.
  by apply (cut_In (Z.to_nat s') (Some (Z.to_nat n'))).
Qed.

(** A window with an offset from 0 and a positive size is the plain one. *)
Lemma window_regular (s n : Z) (l : list A) :
  0 <= s → 0 < n →
  window oddWindow (Some s) (Some n) l
  = Returned (take (Z.to_nat n) (drop (Z.to_nat s) l)).
Proof.
  intros Hs Hn. unfold window, cut.
  destruct (Z.leb_spec 0 s); [|lia]. destruct (Z.ltb_spec 0 n); [|lia]. done.
Qed.

(** The same holds of the window that a handler computed. *)
Lemma windowOf_cut (s n : Number) (l found : list A) :
  windowOf oddWindow unboundedWindow s n l = Returned found →
  ∃ offset cap, found = cut offset cap l.
Proof.
  assert (∀ s' n', window oddWindow s' n' l = Returned found →
            ∃ offset cap, found = cut offset cap l) as Hwindow.
  { intros s' n'. unfold window.
    assert (match oddWindow s' n' with
            | Threw e => Threw e
            | Returned (offset, cap) => Returned (cut offset cap l)
            end = Returned found → ∃ offset cap, found = cut offset cap l) as Hodd.
    { destruct (oddWindow s' n') as [[offset cap]|e]; [|done]. intros [= <-]. eauto. }
    destruct s' as [s'|], n' as [n'|]; try exact Hodd.
    destruct ((0 <=? s') && (0 <? n')); [|exact Hodd]. intros [= <-].
    by exists (Z.to_nat s'), (Some (Z.to_nat n')). }
  assert (match unboundedWindow s n with
          | Threw e => Threw e
          | Returned (offset, cap) => Returned (cut offset cap l)
          end = Returned found → ∃ offset cap, found = cut offset cap l) as Hunbounded.
  { destruct (unboundedWindow s n) as [[offset cap]|e]; [|done]. intros [= <-]. eauto. }
  unfold windowOf. destruct s as [s'|negative|], n as [n'|negative'|];
    repeat match goal with
           | |- context [if ?c then _ else _] => destruct c
           end;
    first [exact Hunbounded | apply Hwindow].
Qed.

Lemma windowOf_In (s n : Number) (l found : list A) (y : A) :
  windowOf oddWindow unboundedWindow s n l = Returned found → In y found → In y l.
Proof.
  intros H Hy. apply windowOf_cut in H as (offset & cap & ->). by eapply cut_In.
Qed.

Lemma windowOf_regular (s n : Z) (l : list A) :
  0 <= s <= 2 ^ 53 → 0 < n <= 2 ^ 53 →
  windowOf oddWindow unboundedWindow (Int s) (Int n) l
  = Returned (take (Z.to_nat n) (drop (Z.to_nat s) l)).
Proof.
  intros Hs Hn. unfold windowOf.
  rewrite (proj2 (exact_spec s)), (proj2 (exact_spec n)) by lia.
  apply window_regular; lia.
Qed.

Variable regexEngine : string → string → bool.
Variable toObject : A → Value.

(** A document that matches a filter object satisfies each of its keys. *)
Lemma matchesQuery_lookup (q : gmap string Clause) (doc : Value) (key : string)
    (cl : Clause) :
  matchesQuery regexEngine q doc = true → q !! key = Some cl →
  satisfies regexEngine doc key cl = true.
Proof.
  unfold matchesQuery. rewrite forallb_forall. intros Hall Hkey.
  apply (Hall (key, cl)). apply list_elem_of_In. by apply elem_of_map_to_list.
Qed.

Lemma selectDocs_In (q : gmap string Clause) (docs : list A) (d : A) :
  In d (selectDocs regexEngine toObject q docs)
  ↔ In d docs ∧ matchesQuery regexEngine q (toObject d) = true.
Proof. unfold selectDocs. apply filter_In. Qed.

(** Every document that [find] returns is in the collection and matches
    the filter object. *)
Lemma find_In (q : gmap string Clause) (le : A → A → bool) (s n : option Z)
    (docs found : list A) (d : A) :
  find regexEngine oddWindow toObject q le s n docs = Returned found →
  In d found →
  In d docs ∧ matchesQuery regexEngine q (toObject d) = true.
Proof.
  unfold find. intros H Hd. apply selectDocs_In.
  eapply sort_by_In. by eapply window_In.
Qed.

Lemma find_regular (q : gmap string Clause) (le : A → A → bool) (s n : Z)
    (docs : list A) :
  0 <= s → 0 < n →
  find regexEngine oddWindow toObject q le (Some s) (Some n) docs
  = Returned (take (Z.to_nat n)
                (drop (Z.to_nat s) (sort_by le (selectDocs regexEngine toObject q docs)))).
Proof. intros. unfold find. by apply window_regular. Qed.

Lemma findPage_In (q : gmap string Clause) (le : A → A → bool) (s n : Number)
    (docs found : list A) (d : A) :
  findPage regexEngine oddWindow unboundedWindow toObject q le s n docs = Returned found →
  In d found →
  In d docs ∧ matchesQuery regexEngine q (toObject d) = true.
Proof.
  unfold findPage. intros H Hd. apply selectDocs_In.
  eapply sort_by_In. by eapply windowOf_In.
Qed.

Lemma findPage_regular (q : gmap string Clause) (le : A → A → bool) (s n : Z)
    (docs : list A) :
  0 <= s <= 2 ^ 53 → 0 < n <= 2 ^ 53 →
  findPage regexEngine oddWindow unboundedWindow toObject q le (Int s) (Int n) docs
  = Returned (take (Z.to_nat n)
                (drop (Z.to_nat s) (sort_by le (selectDocs regexEngine toObject q docs)))).
Proof. intros. unfold findPage. by apply windowOf_regular. Qed.

End QueryFacts.

(** ** Practitioner listings: text search *)

Section PractitionerSearch.

Import Js Http Mongo Practitioners.

Variable regexEngine : string → string → bool.
Variable regexError : string → option Exn.
Variable oddWindow : option Z → option Z → Try (nat * option nat).
Variable unboundedWindow : Number → Number → Try (nat * option nat).
Variable rounding : Rounding.

Lemma path_name (p : Practitioner.t) :
  getPath (Practitioner.toObject p) "name" = Some (VStr (Practitioner.name p)).
Proof. unfold Practitioner.toObject, Practitioner.fields. by destruct (Practitioner.user p). Qed.

Lemma path_specialty (p : Practitioner.t) :
  getPath (Practitioner.toObject p) "specialty" = Some (VStr (Practitioner.specialty p)).
Proof. unfold Practitioner.toObject, Practitioner.fields. by destruct (Practitioner.user p). Qed.

Lemma path_bio (p : Practitioner.t) :
  getPath (Practitioner.toObject p) "bio" = Some (VStr (Practitioner.bio p)).
Proof. unfold Practitioner.toObject, Practitioner.fields. by destruct (Practitioner.user p). Qed.

(** The search clause holds when the term matches one of the three fields. *)
Lemma searchClause_satisfied (term key : string) (p : Practitioner.t) :
  satisfies regexEngine (Practitioner.toObject p) key (searchClause term) = true →
  regexMatch regexEngine term (Practitioner.name p) = true
  ∨ regexMatch regexEngine term (Practitioner.specialty p) = true
  ∨ regexMatch regexEngine term (Practitioner.bio p) = true.
Proof.
  unfold satisfies, searchClause. simpl existsb.
  rewrite path_name, path_specialty, path_bio. simpl.
  rewrite orb_false_r, !orb_true_iff. tauto.
Qed.

(** A term without metacharacters matches by occurrence, letter case
    aside. *)
Lemma regexMatch_literal (term subject : string) :
  literal term = true →
  (regexMatch regexEngine term subject = true ↔ containsNoCase term subject).
Proof.
  intros Hlit. unfold regexMatch, containsNoCase. rewrite Hlit. apply includes_spec.
Qed.

Lemma matching_shows (term : string) (q : gmap string Clause) (p : Practitioner.t) :
  literal term = true →
  q !! "$or" = Some (searchClause term) →
  matchesQuery regexEngine q (Practitioner.toObject p) = true →
  shows term p.
Proof.
  intros Hlit Hor Hmatch.
  pose proof (matchesQuery_lookup regexEngine q _ _ _ Hmatch Hor) as Hsat.
  apply searchClause_satisfied in Hsat. unfold shows.
  by rewrite <- !(regexMatch_literal term _ Hlit).
Qed.

Lemma asGiven_lookup_ne (arrayPath : bool) (key k : string) (x : option Param)
    (m : gmap string Clause) :
  key ≠ k → asGiven arrayPath key x m !! k = m !! k.
Proof.
  intros Hne. unfold asGiven. destruct x as [v|]; [|done].
  destruct (truthyV (Some (raw v))); [|done].
  destruct v, arrayPath; by rewrite lookup_insert_ne.
Qed.

Lemma oneOrMany_lookup_ne (key k : string) (x : option Param) (m : gmap string Clause) :
  key ≠ k → oneOrMany key x m !! k = m !! k.
Proof.
  intros Hne. unfold oneOrMany. destruct x as [[s|l]|]; [| |done].
  - destruct (truthy s); [|done]. by rewrite lookup_insert_ne.
  - by rewrite lookup_insert_ne.
Qed.

Lemma adminQuery_or (q : Query) (term : string) :
  q_search q = Some term → truthy term = true →
  adminQuery q !! "$or" = Some (searchClause term).
Proof.
  intros Hs Ht. unfold adminQuery, given. rewrite Hs, Ht. simpl.
  destruct (q_isFeatured q); [rewrite lookup_insert_ne by done|];
    (destruct (q_status q) as [st|]; [destruct (truthy st)|];
     try rewrite lookup_insert_ne by done;
     rewrite !asGiven_lookup_ne by done; by rewrite lookup_singleton_eq).
Qed.

Lemma publicQuery_or (q : Query) (term : string) :
  q_search q = Some term → truthy term = true →
  publicQuery rounding q !! "$or" = Some (searchClause term).
Proof.
  intros Hs Ht. unfold publicQuery, given. rewrite Hs, Ht. simpl.
  destruct (q_maxFee q) as [fee|]; [destruct (truthy fee)|];
    try rewrite lookup_insert_ne by done;
    rewrite !oneOrMany_lookup_ne by done; by rewrite lookup_insert_eq.
Qed.

Lemma checked_literal (term : string) :
  literal term = true → checked regexError (Some term) = None.
Proof.
  intros Hlit. unfold checked, badPattern. destruct (given (Some term)); [|done].
  change (text (Some term)) with term. by rewrite Hlit.
Qed.

(** Without [page] and [limit] the window is the first page of the default
    size. *)
Lemma paging_default (q : Query) (size : Z) :
  q_page q = None → q_limit q = None →
  paging rounding q size = (Int 1, Int size, Int 0).
Proof. intros Hp Hl. unfold paging. by rewrite Hp, Hl. Qed.

(** A [maxFee] whose text starts with no number makes the public listing
    fail: the cast of the filter object throws. *)
Lemma publicListed_castError (store : list Practitioner.t) (q : Query) (fee : string) :
  q_maxFee q = Some fee → fee ≠ "" → parseIntAuto rounding fee = NaN →
  ∃ e, publicListed regexEngine regexError oddWindow unboundedWindow rounding store q
       = Threw e.
Proof.
  intros Hfee Hne Hnan. unfold publicListed, castError, given, text.
  rewrite Hfee. cbn [default from_option id].
  rewrite (proj2 (truthy_spec fee) Hne), Hnan. eauto.
Qed.

(** C7. With [search=yoga], every record that a practitioner listing
    returns has [yoga] in its name, its specialty or its bio, letter case
    aside; a record that shows it in none of the three is not returned.
    This holds for the listing of the employees, for the public listing and
    for its optimized variant, whatever the other parameters are.  The
    listings do return: without [page] and [limit], the listing of the
    employees answers 200 with its records as [data], and so does the
    public listing when the request has no [maxFee]; a [maxFee] that starts
    with no number makes the public listing answer 500. *)
Theorem search_yoga_returns_only_matches (store : list Practitioner.t) (q : Query) :
  q_search q = Some "yoga" →
  (∀ found p,
     adminListed regexEngine regexError oddWindow unboundedWindow rounding store q
     = Returned found →
     In p found → In p store ∧ shows "yoga" p)
  ∧ (∀ found p,
       publicListed regexEngine regexError oddWindow unboundedWindow rounding store q
       = Returned found →
       In p found → In p store ∧ shows "yoga" p)
  ∧ (∀ found p,
       optimizedListed regexEngine regexError oddWindow store (q_search q) = Returned found →
       In p found → In p store ∧ shows "yoga" p)
  ∧ (q_page q = None → q_limit q = None →
     ∃ found,
       adminListed regexEngine regexError oddWindow unboundedWindow rounding store q
       = Returned found
       ∧ listPractitioners regexEngine regexError oddWindow unboundedWindow rounding
           store q
         = json 200
             (VObj [("success", VBool true);
                    ("count", VNum (Z.of_nat (length found)));
                    ("totalCount",
                     VNum (countDocuments regexEngine Practitioner.toObject
                             (adminQuery q) store));
                    ("pagination",
                     VObj [("total",
                            VNum (countDocuments regexEngine Practitioner.toObject
                                    (adminQuery q) store));
                           ("page", VNum 1);
                           ("pages",
                            VNum (ceil_div
                                    (countDocuments regexEngine Practitioner.toObject
                                       (adminQuery q) store) 10))]);
                    ("data", VArr (Practitioner.toObject <$> found))]))
  ∧ (q_page q = None → q_limit q = None → q_maxFee q = None →
     ∃ found,
       publicListed regexEngine regexError oddWindow unboundedWindow rounding store q
       = Returned found
       ∧ status (listPublic regexEngine regexError oddWindow unboundedWindow rounding
                   store q) = 200
       ∧ field "data"
           (body (listPublic regexEngine regexError oddWindow unboundedWindow rounding
                    store q))
         = Some (VArr (Practitioner.toObject <$> found)))
  ∧ (∀ fee, q_maxFee q = Some fee → fee ≠ "" → parseIntAuto rounding fee = NaN →
       listPublic regexEngine regexError oddWindow unboundedWindow rounding store q
       = failure 500 "Server error").
Proof.
  intros Hs. split; [|split; [|split; [|split; [|split]]]].
  - intros found p. unfold adminListed. rewrite Hs, checked_literal by done.
    destruct (paging rounding q 10) as [[page limit] startIndex].
    intros Hfind Hp. apply (findPage_In _ _ _ _ _ _ _ _ _ _ p) in Hfind as [Hin Hm]; [|done].
    split; [done|]. eapply matching_shows; [done | | exact Hm].
    by apply adminQuery_or.
  - intros found p. unfold publicListed. destruct (castError rounding q); [done|].
    rewrite Hs, checked_literal by done.
    destruct (paging rounding q 12) as [[page limit] startIndex].
    intros Hfind Hp. apply (findPage_In _ _ _ _ _ _ _ _ _ _ p) in Hfind as [Hin Hm]; [|done].
    split; [done|]. eapply matching_shows; [done | | exact Hm].
    by apply publicQuery_or.
  - intros found p. rewrite Hs.
    change (optimizedListed regexEngine regexError oddWindow store (Some "yoga"))
      with (find regexEngine oddWindow Practitioner.toObject (optimizedQuery (Some "yoga"))
              featuredThenName (Some 0) (Some 100) store).
    intros Hfind Hp. apply (find_In _ _ _ _ _ _ _ _ _ p) in Hfind as [Hin Hm]; [|done].
    split; [done|]. eapply matching_shows; [done | | exact Hm].
    change (optimizedQuery (Some "yoga"))
      with (<["$or" := searchClause "yoga"]>
              ({["status" := QField (CEq (VStr "active"))]} : gmap string Clause)).
    by rewrite lookup_insert_eq.
  - intros Hpage Hlimit.
    unfold listPractitioners, adminListed.
    rewrite Hs, checked_literal by done.
    rewrite !paging_default by done.
    rewrite !findPage_regular by done. eauto 10.
  - intros Hpage Hlimit Hfee.
    unfold listPublic, publicListed, castError, given. rewrite Hfee.
    rewrite Hs, checked_literal by done.
    rewrite !paging_default by done.
    rewrite !findPage_regular by done. eauto 10.
  - intros fee Hfee Hne Hnan.
    destruct (publicListed_castError store q fee Hfee Hne Hnan) as [e He].
    unfold listPublic. by rewrite He.
Qed.

End PractitionerSearch.

Section PractitionerSearchExample.

Import Js Http Mongo Practitioners.

(** On the directory, the search returns the two records that show the
    term, newest first, and leaves out the third. *)
Example search_yoga_on_directory :
  adminListed no_engine no_regex_error refuse_window refuse_unbounded nearest directory
    search_yoga
  = Returned [practitioner "p3" "Cy" "Reiki" "Loves yoga and tea." false 3;
              practitioner "p1" "Yolanda" "Hot YOGA" "Teaches daily." false 1].
Proof. vm_compute. reflexivity. Qed.

Lemma search_yoga_returns_only_matches_witness :
  (∀ found p,
     adminListed no_engine no_regex_error refuse_window refuse_unbounded nearest
       directory search_yoga
     = Returned found →
     In p found → In p directory ∧ shows "yoga" p)
  ∧ ∃ found,
      adminListed no_engine no_regex_error refuse_window refuse_unbounded nearest
        directory search_yoga
      = Returned found
      ∧ field "data"
          (body (listPractitioners no_engine no_regex_error refuse_window
                   refuse_unbounded nearest directory search_yoga))
        = Some (VArr (Practitioner.toObject <$> found)).
Proof.
  destruct (search_yoga_returns_only_matches no_engine no_regex_error refuse_window
              refuse_unbounded nearest directory search_yoga eq_refl)
    as (Hadmin & _ & _ & Hdefault & _).
  split; [exact Hadmin|].
  destruct (Hdefault eq_refl eq_refl) as (found & Hfound & Hresp).
  exists found. split; [exact Hfound|]. rewrite Hresp. reflexivity.
Defined.

(** A request of the public listing with [maxFee=abc] is answered with
    status 500, and one that repeats [specialty] in the listing of the
    employees gets the records of either specialty. *)
Example max_fee_without_number :
  listPublic no_engine no_regex_error refuse_window refuse_unbounded nearest directory
    (mkQuery None None None None None None (Some "abc") None None None None)
  = failure 500 "Server error".
Proof. vm_compute. reflexivity. Qed.

Example repeated_specialty :
  adminListed no_engine no_regex_error refuse_window refuse_unbounded nearest directory
    (mkQuery None (Some (Many ["Reiki"; "Massage"])) None None None None None None None
       None None)
  = Returned [practitioner "p2" "Bob" "Massage" "Deep tissue work." true 2;
              practitioner "p3" "Cy" "Reiki" "Loves yoga and tea." false 3].
Proof. vm_compute. reflexivity. Qed.

End PractitionerSearchExample.

(** ** Pagination *)

Section Pagination.

Import Js Http Mongo.

Variable regexEngine : string → string → bool.
Variable regexError : string → option Exn.
Variable oddWindow : option Z → option Z → Try (nat * option nat).
Variable unboundedWindow : Number → Number → Try (nat * option nat).
Variable rounding : Rounding.
Variable toLocaleDateString : Z → string.
Variable addDays : Z → Z → Z.
Variable monthDate : Z → Z → Z → Z.

(** [ceil_div] is the ceiling of the quotient. *)
Lemma ceil_div_spec (total limit : Z) :
  0 < limit →
  (ceil_div total limit - 1) * limit < total <= ceil_div total limit * limit.
Proof.
  intros Hl. unfold ceil_div.
  pose proof (Z.div_mod (- total) limit ltac:(lia)) as Hdm.
  pose proof (Z.mod_pos_bound (- total) limit Hl) as Hb.
  nia.
Qed.

Lemma take_at_most {A : Type} (n : nat) (l : list A) : (length (take n l) <= n)%nat.
Proof. rewrite length_take. lia. Qed.

(** The window of the listing of the practitioners, for a page and a size
    that the request asks for as numerals. *)
Lemma practitioners_page (practitioners : list Practitioner.t)
    (qp : Practitioners.Query) (p l : Z) :
  asksFor (Practitioners.q_page qp) 1 p → asksFor (Practitioners.q_limit qp) 10 l →
  1 <= p <= 2 ^ 53 → 1 <= l <= 2 ^ 53 → (p - 1) * l <= 2 ^ 53 →
  Practitioners.checked regexError (Practitioners.q_search qp) = None →
  let total :=
    countDocuments regexEngine Practitioner.toObject (Practitioners.adminQuery qp)
      practitioners in
  let found :=
    take (Z.to_nat l)
      (drop (Z.to_nat ((p - 1) * l))
         (sort_by Practitioners.featuredThenNewest
            (selectDocs regexEngine Practitioner.toObject (Practitioners.adminQuery qp)
               practitioners))) in
  Practitioners.paging rounding qp 10 = (Int p, Int l, Int ((p - 1) * l))
  ∧ Practitioners.listPractitioners regexEngine regexError oddWindow unboundedWindow
      rounding practitioners qp
    = json 200
        (VObj [("success", VBool true);
               ("count", VNum (Z.of_nat (length found)));
               ("totalCount", VNum total);
               ("pagination",
                VObj [("total", VNum total); ("page", VNum p);
                      ("pages", VNum (ceil_div total l))]);
               ("data", VArr (Practitioner.toObject <$> found))]).
Proof.
  intros Hp Hl Hpb Hlb Hpl Hok total found.
  assert (Practitioners.paging rounding qp 10 = (Int p, Int l, Int ((p - 1) * l)))
    as Hpaging.
  { unfold Practitioners.paging.
    rewrite (parseIntOr_asked rounding _ 1 p Hp Hpb),
      (parseIntOr_asked rounding _ 10 l Hl Hlb), offset_exact by (try done; nia).
    reflexivity. }
  split; [exact Hpaging|].
  unfold Practitioners.listPractitioners, Practitioners.adminListed.
  rewrite Hok, Hpaging, findPage_regular by nia. cbn [toValue ceilRatio].
  destruct (Z.eqb_spec l 0); [lia | reflexivity].
Qed.

(** The same for the public listing of the events. *)
Lemma events_page (events : list Event.t) (qe : PublicEvents.Query) (now p l : Z) :
  asksFor (PublicEvents.q_page qe) 1 p → asksFor (PublicEvents.q_limit qe) 6 l →
  1 <= p <= 2 ^ 53 → 1 <= l <= 2 ^ 53 → (p - 1) * l <= 2 ^ 53 →
  (if PublicEvents.given (PublicEvents.q_search qe)
   then badPattern regexError (PublicEvents.text (PublicEvents.q_search qe))
   else None) = None →
  let total :=
    countDocuments regexEngine Event.toObject
      (PublicEvents.buildQuery addDays monthDate now qe) events in
  let found :=
    take (Z.to_nat l)
      (drop (Z.to_nat ((p - 1) * l))
         (sort_by PublicEvents.featuredThenDate
            (selectDocs regexEngine Event.toObject
               (PublicEvents.buildQuery addDays monthDate now qe) events))) in
  PublicEvents.paging rounding qe = (Int p, Int l, Int ((p - 1) * l))
  ∧ PublicEvents.listEvents regexEngine regexError oddWindow unboundedWindow rounding
      toLocaleDateString addDays monthDate now events qe
    = json 200
        (VObj [("success", VBool true);
               ("count", VNum (Z.of_nat (length found)));
               ("pagination",
                VObj [("total", VNum total); ("page", VNum p);
                      ("pages", VNum (ceil_div total l))]);
               ("data", VArr (Event.toJSON toLocaleDateString <$> found))]).
Proof.
  intros Hp Hl Hpb Hlb Hpl Hok total found.
  assert (PublicEvents.paging rounding qe = (Int p, Int l, Int ((p - 1) * l)))
    as Hpaging.
  { unfold PublicEvents.paging.
    rewrite (parseIntOr_asked rounding _ 1 p Hp Hpb),
      (parseIntOr_asked rounding _ 6 l Hl Hlb), offset_exact by (try done; nia).
    reflexivity. }
  split; [exact Hpaging|].
  unfold PublicEvents.listEvents, PublicEvents.listed.
  rewrite Hok, Hpaging, findPage_regular by nia. cbn [toValue ceilRatio].
  destruct (Z.eqb_spec l 0); [lia | reflexivity].
Qed.

(** C6, as amended.  A listing asked for [page=2] and [limit=10] over 25
    matching records skips 10 records, returns at most 10, and reports a total of 25
    in 3 pages; this holds for the listing of the practitioners and for the
    public listing of the events.  In general, for a page [p] and a size
    [l] from 1 on that the request gives as numerals, or leaves to the
    defaults, page 1 and the size of the route, and as long as [p], [l] and
    [(p - 1) * l] do not exceed [2^53], the largest range in which a number
    of the handler holds every integer, the offset is [(p - 1) * l], the
    listing returns the [l] records from that offset on, and it reports the
    page [p] and the ceiling of [total / l] as the number of pages. *)
Theorem pagination_window
    (practitioners : list Practitioner.t) (qp : Practitioners.Query)
    (events : list Event.t) (qe : PublicEvents.Query) (now : Z) :
  let totalP :=
    countDocuments regexEngine Practitioner.toObject (Practitioners.adminQuery qp)
      practitioners in
  let totalE :=
    countDocuments regexEngine Event.toObject
      (PublicEvents.buildQuery addDays monthDate now qe) events in
  let matchesP :=
    sort_by Practitioners.featuredThenNewest
      (selectDocs regexEngine Practitioner.toObject (Practitioners.adminQuery qp)
         practitioners) in
  let matchesE :=
    sort_by PublicEvents.featuredThenDate
      (selectDocs regexEngine Event.toObject
         (PublicEvents.buildQuery addDays monthDate now qe) events) in
  let searchP := Practitioners.checked regexError (Practitioners.q_search qp) in
  let searchE :=
    if PublicEvents.given (PublicEvents.q_search qe)
    then badPattern regexError (PublicEvents.text (PublicEvents.q_search qe))
    else None in
  (Practitioners.q_page qp = Some "2" → Practitioners.q_limit qp = Some "10" →
   searchP = None → totalP = 25 →
   ∃ found,
     Practitioners.paging rounding qp 10 = (Int 2, Int 10, Int 10)
     ∧ found = take 10 (drop 10 matchesP)
     ∧ (length found <= 10)%nat
     ∧ Practitioners.listPractitioners regexEngine regexError oddWindow unboundedWindow
         rounding practitioners qp
       = json 200
           (VObj [("success", VBool true);
                  ("count", VNum (Z.of_nat (length found)));
                  ("totalCount", VNum 25);
                  ("pagination",
                   VObj [("total", VNum 25); ("page", VNum 2); ("pages", VNum 3)]);
                  ("data", VArr (Practitioner.toObject <$> found))]))
  ∧ (PublicEvents.q_page qe = Some "2" → PublicEvents.q_limit qe = Some "10" →
     searchE = None → totalE = 25 →
     ∃ found,
       PublicEvents.paging rounding qe = (Int 2, Int 10, Int 10)
       ∧ found = take 10 (drop 10 matchesE)
       ∧ (length found <= 10)%nat
       ∧ PublicEvents.listEvents regexEngine regexError oddWindow unboundedWindow
           rounding toLocaleDateString addDays monthDate now events qe
         = json 200
             (VObj [("success", VBool true);
                    ("count", VNum (Z.of_nat (length found)));
                    ("pagination",
                     VObj [("total", VNum 25); ("page", VNum 2); ("pages", VNum 3)]);
                    ("data", VArr (Event.toJSON toLocaleDateString <$> found))]))
  ∧ (∀ p l,
       asksFor (Practitioners.q_page qp) 1 p → asksFor (Practitioners.q_limit qp) 10 l →
       1 <= p <= 2 ^ 53 → 1 <= l <= 2 ^ 53 → (p - 1) * l <= 2 ^ 53 →
       searchP = None →
       ∃ found,
         Practitioners.paging rounding qp 10 = (Int p, Int l, Int ((p - 1) * l))
         ∧ found = take (Z.to_nat l) (drop (Z.to_nat ((p - 1) * l)) matchesP)
         ∧ (Z.of_nat (length found) <= l)
         ∧ Practitioners.listPractitioners regexEngine regexError oddWindow
             unboundedWindow rounding practitioners qp
           = json 200
               (VObj [("success", VBool true);
                      ("count", VNum (Z.of_nat (length found)));
                      ("totalCount", VNum totalP);
                      ("pagination",
                       VObj [("total", VNum totalP); ("page", VNum p);
                             ("pages", VNum (ceil_div totalP l))]);
                      ("data", VArr (Practitioner.toObject <$> found))]))
  ∧ (∀ p l,
       asksFor (PublicEvents.q_page qe) 1 p → asksFor (PublicEvents.q_limit qe) 6 l →
       1 <= p <= 2 ^ 53 → 1 <= l <= 2 ^ 53 → (p - 1) * l <= 2 ^ 53 →
       searchE = None →
       ∃ found,
         PublicEvents.paging rounding qe = (Int p, Int l, Int ((p - 1) * l))
         ∧ found = take (Z.to_nat l) (drop (Z.to_nat ((p - 1) * l)) matchesE)
         ∧ (Z.of_nat (length found) <= l)
         ∧ PublicEvents.listEvents regexEngine regexError oddWindow unboundedWindow
             rounding toLocaleDateString addDays monthDate now events qe
           = json 200
               (VObj [("success", VBool true);
                      ("count", VNum (Z.of_nat (length found)));
                      ("pagination",
                       VObj [("total", VNum totalE); ("page", VNum p);
                             ("pages", VNum (ceil_div totalE l))]);
                      ("data", VArr (Event.toJSON toLocaleDateString <$> found))]))
  ∧ (∀ total limit, 0 < limit →
       (ceil_div total limit - 1) * limit < total <= ceil_div total limit * limit).
Proof.
  intros totalP totalE matchesP matchesE searchP searchE.
  split; [|split; [|split; [|split]]].
  - intros Hp Hl Hok Htotal.
    destruct (practitioners_page practitioners qp 2 10) as [Hpaging Hanswer];
      try done; try (left; by rewrite ?Hp, ?Hl).
    eexists. split; [exact Hpaging|]. split; [reflexivity|].
    split; [apply take_at_most|].
    rewrite Hanswer. fold totalP. rewrite Htotal. reflexivity.
  - intros Hp Hl Hok Htotal.
    destruct (events_page events qe now 2 10) as [Hpaging Hanswer];
      try done; try (left; by rewrite ?Hp, ?Hl).
    eexists. split; [exact Hpaging|]. split; [reflexivity|].
    split; [apply take_at_most|].
    rewrite Hanswer. fold totalE. rewrite Htotal. reflexivity.
  - intros p l Hp Hl Hpb Hlb Hpl Hok.
    destruct (practitioners_page practitioners qp p l) as [Hpaging Hanswer]; try done.
    eexists. split; [exact Hpaging|]. split; [reflexivity|]. split; [|exact Hanswer].
    pose proof (take_at_most (Z.to_nat l) (drop (Z.to_nat ((p - 1) * l)) matchesP)). lia.
  - intros p l Hp Hl Hpb Hlb Hpl Hok.
    destruct (events_page events qe now p l) as [Hpaging Hanswer]; try done.
    eexists. split; [exact Hpaging|]. split; [reflexivity|]. split; [|exact Hanswer].
    pose proof (take_at_most (Z.to_nat l) (drop (Z.to_nat ((p - 1) * l)) matchesE)). lia.
  - apply ceil_div_spec.
Qed.

End Pagination.

Section PaginationExample.

Import Js Http Mongo.

Lemma pagination_window_witness :
  (∃ found,
     Practitioners.paging nearest second_page 10 = (Int 2, Int 10, Int 10)
     ∧ found = take 10 (drop 10 (sort_by Practitioners.featuredThenNewest
                                   (selectDocs no_engine Practitioner.toObject
                                      (Practitioners.adminQuery second_page)
                                      practitioners25)))
     ∧ (length found <= 10)%nat
     ∧ Practitioners.listPractitioners no_engine no_regex_error refuse_window
         refuse_unbounded nearest practitioners25 second_page
       = json 200
           (VObj [("success", VBool true);
                  ("count", VNum (Z.of_nat (length found)));
                  ("totalCount", VNum 25);
                  ("pagination",
                   VObj [("total", VNum 25); ("page", VNum 2); ("pages", VNum 3)]);
                  ("data", VArr (Practitioner.toObject <$> found))]))
  ∧ (∃ found,
       PublicEvents.paging nearest second_page_of_events = (Int 2, Int 10, Int 10)
       ∧ found = take 10 (drop 10 (sort_by PublicEvents.featuredThenDate
                                     (selectDocs no_engine Event.toObject
                                        (PublicEvents.buildQuery add_days month_date 1000
                                           second_page_of_events)
                                        events25)))
       ∧ (length found <= 10)%nat
       ∧ PublicEvents.listEvents no_engine no_regex_error refuse_window refuse_unbounded
           nearest plain_date add_days month_date 1000 events25 second_page_of_events
         = json 200
             (VObj [("success", VBool true);
                    ("count", VNum (Z.of_nat (length found)));
                    ("pagination",
                     VObj [("total", VNum 25); ("page", VNum 2); ("pages", VNum 3)]);
                    ("data", VArr (Event.toJSON plain_date <$> found))])).
Proof.
  destruct (pagination_window no_engine no_regex_error refuse_window refuse_unbounded
              nearest plain_date add_days month_date practitioners25 second_page events25
              second_page_of_events 1000) as (HP & HE & _).
  split.
  - apply HP; reflexivity.
  - apply HE; reflexivity.
Defined.

(** C6, as stated, fails beyond the integers that a number holds: for the
    page [2^53 + 1] and the size 10 the handler reads the page as [2^53],
    and its offset is the double next to the product, which is not
    [(page - 1) * limit]. *)
Lemma page_beyond_exact_integers :
  let q :=
    Practitioners.mkQuery None None None None None None None None None
      (Some "9007199254740993") (Some "10") in
  asksFor (Practitioners.q_page q) 1 9007199254740993
  ∧ asksFor (Practitioners.q_limit q) 10 10
  ∧ Practitioners.paging nearest q 10
    = (Int 9007199254740992, Int 10, Int 90071992547409904)
  ∧ 90071992547409904 ≠ (9007199254740993 - 1) * 10.
Proof.
  split; [by left|]. split; [by left|]. split; [vm_compute; reflexivity | done].
Qed.

End PaginationExample.

(** ** Public listing of the events: the default filter *)

Section PublicEventDefaults.

Import Js Http Mongo.

Variable regexEngine : string → string → bool.
Variable regexError : string → option Exn.
Variable oddWindow : option Z → option Z → Try (nat * option nat).
Variable unboundedWindow : Number → Number → Try (nat * option nat).
Variable rounding : Rounding.
Variable toLocaleDateString : Z → string.
Variable addDays : Z → Z → Z.
Variable monthDate : Z → Z → Z → Z.
Variable NODE_ENV : option string.

Lemma open_not_closed (e : Event.t) :
  isOpen e → Event.status e ≠ "cancelled" ∧ Event.status e ≠ "completed".
Proof. intros [H|H]; rewrite H; by split. Qed.

Lemma open_statuses_satisfied (key : string) (e : Event.t) :
  key = "status" →
  satisfies regexEngine (Event.toObject e) key PublicEvents.open_statuses = true →
  isOpen e.
Proof.
  intros ->. unfold satisfies, PublicEvents.open_statuses, isOpen.
  change (getPath (Event.toObject e) "status") with (Some (VStr (Event.status e))).
  cbn -[String.eqb]. rewrite orb_false_r, orb_true_iff, !String.eqb_eq. intuition.
Qed.

Lemma from_now_satisfied (now : Z) (upper : option Z) (e : Event.t) :
  satisfies regexEngine (Event.toObject e) "date" (QField (CRange (Some now) upper)) = true →
  now <= Event.date e.
Proof.
  unfold satisfies.
  change (getPath (Event.toObject e) "date") with (Some (VDate (Event.date e))).
  simpl. rewrite andb_true_iff. intros [H _]. by apply Z.leb_le.
Qed.

(** The filter object of the standard route keeps the condition on the
    status, whatever the request is: a date range only replaces the
    condition on the date. *)
Lemma buildQuery_status (now : Z) (q : PublicEvents.Query) :
  PublicEvents.buildQuery addDays monthDate now q !! "status"
  = Some PublicEvents.open_statuses.
Proof.
  unfold PublicEvents.buildQuery.
  destruct (PublicEvents.given (PublicEvents.q_dateRange q));
    repeat match goal with
           | |- context [if ?c then _ else _] => destruct c
           end;
    repeat rewrite lookup_insert_ne by done;
    by rewrite lookup_singleton_eq.
Qed.

(** Unless the request asks for the range [nextMonth], the condition on the
    date starts at the current date; without a range it has no end. *)
Lemma buildQuery_date (now : Z) (q : PublicEvents.Query) :
  PublicEvents.text (PublicEvents.q_dateRange q) ≠ "nextMonth" →
  ∃ upper,
    PublicEvents.buildQuery addDays monthDate now q !! "date"
    = Some (QField (CRange (Some now) upper))
    ∧ (PublicEvents.given (PublicEvents.q_dateRange q) = false → upper = None).
Proof.
  intros Hrange. unfold PublicEvents.buildQuery.
  destruct (String.eqb_spec (PublicEvents.text (PublicEvents.q_dateRange q)) "nextMonth");
    [contradiction|].
  repeat match goal with
         | |- context [if ?c then _ else _] => destruct c
         end;
    eexists;
    (split; [repeat rewrite lookup_insert_ne by done; by rewrite lookup_insert_eq | done]).
Qed.

Lemma optimized_status (search : option string) :
  PublicEventsOptimized.buildQuery search !! "status" = Some PublicEvents.open_statuses.
Proof.
  unfold PublicEventsOptimized.buildQuery.
  destruct (PublicEventsOptimized.searchTerm search);
    repeat rewrite lookup_insert_ne by done; by rewrite lookup_singleton_eq.
Qed.

(** C5, as amended.  Every event that a public listing returns is open:
    its status is [upcoming] or [ongoing], so it is neither cancelled nor
    completed; this holds for both variants of the route and for every
    request.  In the standard variant every returned event is also dated at
    or after the current date of the request, unless the request asks for
    the date range [nextMonth], whose lower end is the first day of the next
    month; in particular this holds of every request without a date range.
    The variant optimized for the free tier puts no condition on the date.
    With the default window both variants do return their events. *)
Theorem public_listing_defaults (now : Z) (store : list Event.t)
    (q : PublicEvents.Query) (search : option string) :
  (∀ found e,
     PublicEvents.listed regexEngine regexError oddWindow unboundedWindow rounding
       addDays monthDate now store q
     = Returned found →
     In e found →
     isOpen e ∧ Event.status e ≠ "cancelled" ∧ Event.status e ≠ "completed"
     ∧ (PublicEvents.text (PublicEvents.q_dateRange q) ≠ "nextMonth" →
        now <= Event.date e)
     ∧ (PublicEvents.given (PublicEvents.q_dateRange q) = false → now <= Event.date e))
  ∧ (∀ found e,
       PublicEventsOptimized.listed regexEngine regexError oddWindow store search
       = Returned found →
       In e found →
       isOpen e ∧ Event.status e ≠ "cancelled" ∧ Event.status e ≠ "completed")
  ∧ (PublicEvents.q_search q = None → PublicEvents.q_page q = None →
     PublicEvents.q_limit q = None →
     ∃ found,
       PublicEvents.listed regexEngine regexError oddWindow unboundedWindow rounding
         addDays monthDate now store q
       = Returned found
       ∧ field "data"
           (body (PublicEvents.listEvents regexEngine regexError oddWindow
                    unboundedWindow rounding toLocaleDateString addDays monthDate now
                    store q))
         = Some (VArr (Event.toJSON toLocaleDateString <$> found)))
  ∧ (search = None →
     ∀ duration stamp iso,
     ∃ found,
       PublicEventsOptimized.listed regexEngine regexError oddWindow store search
       = Returned found
       ∧ field "data"
           (body (PublicEventsOptimized.listEvents regexEngine regexError oddWindow
                    NODE_ENV store search duration stamp iso))
         = Some (VArr (Event.project PublicEventsOptimized.selected <$> found))).
Proof.
  split; [|split; [|split]].
  - intros found e Hlisted He.
    unfold PublicEvents.listed in Hlisted.
    destruct (if PublicEvents.given (PublicEvents.q_search q)
              then badPattern regexError (PublicEvents.text (PublicEvents.q_search q))
              else None); [done|].
    destruct (PublicEvents.paging rounding q) as [[page limit] startIndex].
    apply (findPage_In _ _ _ _ _ _ _ _ _ _ e) in Hlisted as [_ Hm]; [|done].
    assert (isOpen e) as Hopen.
    { apply (open_statuses_satisfied "status"); [done|].
      eapply matchesQuery_lookup; [exact Hm | apply buildQuery_status]. }
    assert (PublicEvents.text (PublicEvents.q_dateRange q) ≠ "nextMonth" →
            now <= Event.date e) as Hdate.
    { intros Hrange. destruct (buildQuery_date now q Hrange) as (upper & Hupper & _).
      apply (from_now_satisfied now upper). by eapply matchesQuery_lookup. }
    split; [done|]. destruct (open_not_closed e Hopen) as [Hc Hd].
    split; [done|]. split; [done|]. split; [done|].
    intros Hgiven. apply Hdate. intros Hnext.
    unfold PublicEvents.given, PublicEvents.text in Hgiven, Hnext.
    destruct (PublicEvents.q_dateRange q) as [r|]; [|done].
    simpl in Hnext. by subst r.
  - intros found e Hlisted He. unfold PublicEventsOptimized.listed in Hlisted.
    destruct (PublicEventsOptimized.searchTerm search ≫= badPattern regexError); [done|].
    apply (find_In _ _ _ _ _ _ _ _ _ e) in Hlisted as [_ Hm]; [|done].
    assert (isOpen e) as Hopen.
    { apply (open_statuses_satisfied "status"); [done|].
      eapply matchesQuery_lookup; [exact Hm | apply optimized_status]. }
    split; [done | by apply open_not_closed].
  - intros Hs Hp Hl.
    unfold PublicEvents.listEvents, PublicEvents.listed, PublicEvents.paging.
    rewrite Hs, Hp, Hl. simpl PublicEvents.given. cbv iota.
    change (parseIntOr rounding None 1) with (Int 1).
    change (parseIntOr rounding None 6) with (Int 6).
    change (mul rounding (sub rounding (Int 1) (Int 1)) (Int 6)) with (Int 0).
    rewrite findPage_regular by done. eauto.
  - intros -> duration stamp iso.
    unfold PublicEventsOptimized.listEvents, PublicEventsOptimized.listed.
    change (PublicEventsOptimized.searchTerm None ≫= badPattern regexError)
      with (@None Exn).
    rewrite find_regular by done. eauto.
Qed.

End PublicEventDefaults.

Section PublicEventDefaultsExample.

Import Js Http Mongo.

Lemma public_listing_defaults_witness :
  (∀ found e,
     PublicEvents.listed no_engine no_regex_error refuse_window refuse_unbounded nearest
       add_days month_date 1000 [last_week; next_week] no_filter
     = Returned found →
     In e found →
     isOpen e ∧ 1000 <= Event.date e)
  ∧ PublicEvents.listed no_engine no_regex_error refuse_window refuse_unbounded nearest
      add_days month_date 1000 [last_week; next_week] no_filter
    = Returned [next_week].
Proof.
  destruct (public_listing_defaults no_engine no_regex_error refuse_window
              refuse_unbounded nearest plain_date add_days month_date None 1000
              [last_week; next_week] no_filter None)
    as (Hstandard & _).
  split; [|reflexivity].
  intros found e Hfound He.
  destruct (Hstandard found e Hfound He) as (Hopen & _ & _ & _ & Hdate).
  split; [exact Hopen | apply Hdate; reflexivity].
Defined.

(** C5, as stated, fails on the variant of the route optimized for the free
    tier: asked without any filter at time 1000, it returns the event of
    time 400, which is past. *)
Lemma optimized_listing_returns_past_event :
  let now := 1000 in
  let found := [next_week; last_week] in
  PublicEventsOptimized.listed no_engine no_regex_error refuse_window
    [last_week; next_week] None
  = Returned found
  ∧ field "data"
      (body (PublicEventsOptimized.listEvents no_engine no_regex_error refuse_window
               None [last_week; next_week] None "3" "1000" "1970-01-01T00:00:01.000Z"))
    = Some (VArr (Event.project PublicEventsOptimized.selected <$> found))
  ∧ In last_week found
  ∧ ¬ (now <= Event.date last_week).
Proof.
  repeat split; try reflexivity.
  - right. by left.
  - vm_compute. congruence.
Qed.

End PublicEventDefaultsExample.

(** ** Updating an event *)

Section EventUpdate.

Import Js Http Auth Events.

Variable isUrl : string → bool.
Variable validId : string → bool.
Variable toLocaleDateString : Z → string.
Variable parseDate : string → option Z.

Lemma find_has_id (store : list Event.t) (id : string) (e : Event.t) :
  List.find (Event.has_id id) store = Some e → Event._id e = id.
Proof.
  intros H. apply find_some in H as [_ H]. by apply String.eqb_eq in H.
Qed.

(** After [replace], the collection holds the new document under the id. *)
Lemma replace_find (store : list Event.t) (e e' : Event.t) :
  List.find (Event.has_id (Event._id e')) store = Some e →
  List.find (Event.has_id (Event._id e')) (Event.replace store e') = Some e'.
Proof.
  induction store as [|x store IH]; simpl; [done|].
  destruct (Event.has_id (Event._id e') x) eqn:Hx; simpl.
  - intros _. unfold Event.has_id. by rewrite String.eqb_refl.
  - rewrite Hx. apply IH.
Qed.

(** [updatedBy] is not a path of the schema, so a [$set] of it is left
    out. *)
Lemma updatedBy_not_in_schema (v : Value) (e : Event.t) :
  Event.castSet "updatedBy" v e = None.
Proof. reflexivity. Qed.

(** What the update with [{ status: "cancelled" }] does to a stored event:
    the update document holds the status and the caller; the answer is a 200
    with the event as persisted; the persisted event differs from the old
    one in [status] and in the [updatedAt] timestamp only; and it has no
    [updatedBy]. *)
Lemma cancel_only_update (store : list Event.t) (req : Request)
    (caller : Principal.t) (id : string) (now : Z) (e : Event.t) :
  requireEmployee req = CallNext →
  user req = Some caller →
  Event.findById validId store id = Returned (Some e) →
  let e' := Event.set_updatedAt now (Event.set_status "cancelled" e) in
  updateData parseDate cancel caller
  = [("status", VStr "cancelled"); ("updatedBy", VStr (Principal.id caller))]
  ∧ updateRoute isUrl validId toLocaleDateString parseDate store req id now cancel
    = (json 200
         (VObj [("success", VBool true);
                ("message", VStr "Event updated successfully");
                ("data", Event.toJSON toLocaleDateString e')]),
       Event.replace store e')
  ∧ Event.findById validId (Event.replace store e') id = Returned (Some e')
  ∧ Event.set_updatedAt (Event.updatedAt e) (Event.set_status (Event.status e) e') = e
  ∧ field "updatedBy" (Event.toObject e') = None
  ∧ field "updatedBy" (Event.toJSON toLocaleDateString e') = None.
Proof.
  intros Hguard Hcaller Hfind e'.
  assert (validId id = true ∧ List.find (Event.has_id id) store = Some e) as [Hvalid Hin].
  { unfold Event.findById in Hfind. destruct (validId id); [|done].
    by injection Hfind as ->. }
  pose proof (find_has_id _ _ _ Hin) as Hid.
  split; [reflexivity|]. split; [|split; [|split; [|split]]].
  - unfold updateRoute, updateEvent, Event.findByIdAndUpdate.
    rewrite Hguard, Hcaller, Hfind. reflexivity.
  - unfold Event.findById. rewrite Hvalid. f_equal.
    assert (Event._id e' = id) as Hid' by done.
    rewrite <- Hid'. apply (replace_find store e e'). by rewrite Hid'.
  - by destruct e.
  - reflexivity.
  - reflexivity.
Qed.

End EventUpdate.

Section EventUpdateExample.

Import Js Http Auth Events.

(** C4.  Sam, a member of staff, sends [{ status: "cancelled" }] for the
    event of next week at time 2000.  Every field of the persisted event but
    [status] (and the [updatedAt] timestamp) is as before; the update
    document carries [updatedBy] with the identifier of Sam, but the event as
    persisted and as returned has no [updatedBy]: the schema of the events
    declares no such path. *)
Theorem cancelled_update_loses_updatedBy :
  let result :=
    updateRoute any_url any_id plain_date no_date [last_week; next_week]
      (as_caller sam) "e2" 2000 cancel in
  let persisted :=
    Event.mk "e2" "Support circle" "Monthly meeting." 1600 "17:00" "Room 4"
      "support-group" "cancelled" true 3 "" "" "a1" 200 2000 in
  assoc "updatedBy" (updateData no_date cancel (principal_of sam)) = Some (VStr "s1")
  ∧ status result.1 = 200
  ∧ result.2 = [last_week; persisted]
  ∧ field "data" (body result.1) = Some (Event.toJSON plain_date persisted)
  ∧ field "updatedBy" (Event.toObject persisted) = None
  ∧ field "updatedBy" (Event.toJSON plain_date persisted) = None.
Proof. vm_compute. repeat split. Qed.

Lemma cancel_only_update_example :
  updateRoute any_url any_id plain_date no_date [last_week; next_week]
    (as_caller sam) "e2" 2000 cancel
  = (json 200
       (VObj [("success", VBool true);
              ("message", VStr "Event updated successfully");
              ("data",
               Event.toJSON plain_date
                 (Event.set_updatedAt 2000 (Event.set_status "cancelled" next_week)))]),
     Event.replace [last_week; next_week]
       (Event.set_updatedAt 2000 (Event.set_status "cancelled" next_week))).
Proof.
  apply (cancel_only_update any_url any_id plain_date no_date [last_week; next_week]
           (as_caller sam) (principal_of sam) "e2" 2000 next_week); reflexivity.
Defined.

End EventUpdateExample.

(** ** Employee routes: the stored password never reaches a response *)

Section PasswordFacts.

Import Js Http Auth.

Lemma hasKey_arr (k : string) (items : list Value) :
  hasKey k (VArr items) = existsb (hasKey k) items.
Proof. induction items as [|x items IH]; simpl in *; [done | by rewrite IH]. Qed.

Lemma hasKey_obj (k : string) (fields : list (string * Value)) :
  hasKey k (VObj fields)
  = existsb (λ kv, String.eqb k kv.1 || hasKey k kv.2) fields.
Proof.
  induction fields as [|[k' x] fields IH]; simpl in *; [done | by rewrite IH].
Qed.

Lemma hasKey_strings (k : string) (l : list string) :
  hasKey k (VArr (List.map VStr l)) = false.
Proof. rewrite hasKey_arr. by induction l. Qed.

Lemma existsb_false {A : Type} (f : A → bool) (l : list A) :
  (∀ x, In x l → f x = false) → existsb f l = false.
Proof.
  induction l as [|x l IH]; simpl; [done|]. intros H.
  rewrite (H x) by auto. apply IH. auto.
Qed.

Lemma permissions_no_password (perms : option (list string)) :
  existsb (λ kv, String.eqb "password" kv.1 || hasKey "password" kv.2)
    (User.opt "permissions" (VArr ∘ List.map VStr <$> perms)) = false.
Proof.
  destruct perms as [l|]; [|done].
  change (hasKey "password" (VArr (List.map VStr l)) || false = false).
  by rewrite hasKey_strings.
Qed.

(** A document read without its password serializes without the key. *)
Lemma toJSON_deselect_no_password (u : User.t) :
  hasKey "password" (User.toJSON (Users.deselect u)) = false.
Proof.
  unfold User.toJSON. rewrite hasKey_obj, !existsb_app.
  destruct u as [id name email role pw phone dep st perms v m cb ca ua].
  unfold Users.deselect, Users.withPassword. cbn [User.password User.phone
    User.department User.status User.permissions User._id User.name User.email
    User.role User.isEmailVerified User.mustChangePassword User.createdBy
    User.createdAt User.updatedAt].
  rewrite permissions_no_password.
  by destruct phone, dep, st, cb.
Qed.

(** Filling in the defaults neither adds a password nor changes what the
    routes compare. *)
Lemma applyDefaults_deselect (u : User.t) :
  User.applyDefaults (Users.deselect u) = Users.deselect (User.applyDefaults u).
Proof. by destruct u. Qed.

Lemma toJSON_hydrate_no_password (u : User.t) :
  hasKey "password" (User.toJSON (Users.hydrate u)) = false.
Proof.
  unfold Users.hydrate. rewrite applyDefaults_deselect.
  apply toJSON_deselect_no_password.
Qed.

Lemma hydrate_option (o : option User.t) :
  Users.hydrate <$> o = User.applyDefaults <$> (Users.deselect <$> o).
Proof. by destruct o. Qed.

Lemma deselect_idemp (u : User.t) : Users.deselect (Users.deselect u) = Users.deselect u.
Proof. by destruct u. Qed.

Lemma has_id_deselect (id : string) (u : User.t) :
  Users.has_id id (Users.deselect u) = Users.has_id id u.
Proof. by destruct u. Qed.

Lemma find_map {A : Type} (p : A → bool) (f : A → A) (l : list A) :
  (∀ x, p (f x) = p x) → List.find p (f <$> l) = f <$> List.find p l.
Proof.
  intros H. induction l as [|x l IH]; simpl; [done|].
  rewrite H. destruct (p x); [done | apply IH].
Qed.

Lemma filter_map_length {A : Type} (p : A → bool) (f : A → A) (l : list A) :
  (∀ x, p (f x) = p x) → length (List.filter p (f <$> l)) = length (List.filter p l).
Proof.
  intros H. induction l as [|x l IH]; simpl; [done|].
  rewrite H. destruct (p x); [simpl; f_equal|]; exact IH.
Qed.

Lemma existsb_map_same {A : Type} (p : A → bool) (f : A → A) (l : list A) :
  (∀ x, p (f x) = p x) → existsb p (f <$> l) = existsb p l.
Proof.
  intros H. induction l as [|x l IH]; simpl; [done|]. rewrite H. f_equal. exact IH.
Qed.

Lemma cons_eq_inv {A : Type} (x y : A) (l l' : list A) :
  x :: l = y :: l' → x = y ∧ l = l'.
Proof. intros H. by injection H. Qed.

Variable validId : string → bool.

Lemma findById_agree (s1 s2 : list User.t) (id : string) :
  agree s1 s2 → Users.findById validId s1 id = Users.findById validId s2 id.
Proof.
  intros H. unfold Users.findById. destruct (validId id); [|done]. f_equal.
  rewrite !hydrate_option. f_equal.
  rewrite <- (find_map (Users.has_id id) Users.deselect s1),
    <- (find_map (Users.has_id id) Users.deselect s2) by apply has_id_deselect.
  by rewrite H.
Qed.

Lemma countRole_agree (s1 s2 : list User.t) (r : string) :
  agree s1 s2 → Users.countRole s1 r = Users.countRole s2 r.
Proof.
  intros H. unfold Users.countRole. f_equal.
  rewrite <- (filter_map_length (λ u, String.eqb (User.role u) r) Users.deselect s1),
    <- (filter_map_length (λ u, String.eqb (User.role u) r) Users.deselect s2)
    by (by intros []).
  by rewrite H.
Qed.

Lemma emailTaken_agree (s1 s2 : list User.t) (e : string) :
  agree s1 s2 → Employees.emailTaken s1 e = Employees.emailTaken s2 e.
Proof.
  intros H. unfold Employees.emailTaken.
  rewrite <- (existsb_map_same (λ u, String.eqb (User.email u) e) Users.deselect s1),
    <- (existsb_map_same (λ u, String.eqb (User.email u) e) Users.deselect s2)
    by (by intros []).
  by rewrite H.
Qed.

Lemma findByIdAndDelete_agree (s1 s2 : list User.t) (id : string) :
  agree s1 s2 → agree (Users.findByIdAndDelete s1 id) (Users.findByIdAndDelete s2 id).
Proof.
  unfold agree. revert s2. induction s1 as [|u s1 IH]; intros [|v s2] H;
    try discriminate H; [done|].
  rewrite !fmap_cons in H. apply cons_eq_inv in H as [Huv H].
  cbn [Users.findByIdAndDelete].
  rewrite <- (has_id_deselect id u), <- (has_id_deselect id v), Huv.
  destruct (Users.has_id id (Users.deselect v)); [done|].
  rewrite !fmap_cons, Huv. f_equal. by apply IH.
Qed.

Lemma writeBack_agree (s1 s2 : list User.t) (new : User.t) (pw : option string) :
  agree s1 s2 → agree (Employees.writeBack s1 new pw) (Employees.writeBack s2 new pw).
Proof.
  unfold agree. revert s2. induction s1 as [|u s1 IH]; intros [|v s2] H;
    try discriminate H; [done|].
  rewrite !fmap_cons in H. apply cons_eq_inv in H as [Huv H].
  cbn [Employees.writeBack].
  rewrite <- (has_id_deselect _ u), <- (has_id_deselect _ v), Huv.
  destruct (Users.has_id (User._id new) (Users.deselect v)); rewrite !fmap_cons.
  - by rewrite H.
  - rewrite Huv. f_equal. by apply IH.
Qed.

End PasswordFacts.

Section PasswordFlow.

Import Js Http Auth Employees.

Variable validId : string → bool.
Variable regexEngine : string → string → bool.
Variable regexError : string → option Exn.
Variable oddWindow : option Z → option Z → Try (nat * option nat).
Variable unboundedWindow : Number → Number → Try (nat * option nat).
Variable rounding : Rounding.
Variable emailOk : string → bool.
Variable bcryptHash : string → string.
Variable MASTER_SECURITY_CODE : option string.

Lemma findById_deselected (store : list User.t) (id : string) (u : User.t) :
  Users.findById validId store id = Returned (Some u) → Users.deselect u = u.
Proof.
  unfold Users.findById. destruct (validId id); [|done].
  destruct (List.find (Users.has_id id) store) as [v|]; [|done].
  intros [= <-]. by destruct v.
Qed.

Ltac no_password :=
  unfold json; cbn [Http.body fst];
  rewrite hasKey_obj; cbn -[hasKey User.toJSON Users.deselect];
  rewrite ?toJSON_deselect_no_password; reflexivity.

Lemma hasKey_toValue (k : string) (n : Number) : hasKey k (toValue n) = false.
Proof. by destruct n. Qed.

Lemma hasKey_ceilRatio (k : string) (total : Z) (limit : Number) :
  hasKey k (ceilRatio total limit) = false.
Proof. destruct limit as [l| |]; try done. simpl. by destruct (l =? 0). Qed.

(** The refusals of the two permission guards carry no password. *)
Lemma requirePermission_no_password (permission : string) (req : Request) (r : Response) :
  requirePermission permission req = Respond r → hasKey "password" (Http.body r) = false.
Proof.
  unfold requirePermission. destruct (user req) as [u|]; [|by intros [= <-]].
  destruct (String.eqb _ _); [done|]. destruct (lacks _ _); [by intros [= <-] | done].
Qed.

Lemma requireNewPermission_no_password (permission : string) (req : Request)
    (r : Response) :
  requireNewPermission permission req = Respond r →
  hasKey "password" (Http.body r) = false.
Proof.
  unfold requireNewPermission. destruct (user req) as [u|]; [|by intros [= <-]].
  destruct (String.eqb _ _); [done|]. destruct (lacks _ _); [by intros [= <-] | done].
Qed.

Lemma listEmployees_no_password (store : list User.t) (q : ListQuery) :
  hasKey "password"
    (body (listEmployees regexEngine regexError oddWindow unboundedWindow rounding
             store q)) = false.
Proof.
  unfold listEmployees.
  destruct (if given (q_search q) then _ else _); [reflexivity|].
  destruct (Mongo.windowOf _ _ _ _ _) as [employees|e] eqn:Hw; [|reflexivity].
  assert (hasKey "password" (VArr (User.toJSON <$> (User.applyDefaults <$> employees)))
          = false) as Hdata.
  { rewrite hasKey_arr. apply existsb_false. intros x Hx.
    apply list_elem_of_In, list_elem_of_fmap in Hx as [u' [-> Hu']].
    apply list_elem_of_fmap in Hu' as [u [-> Hu]].
    apply list_elem_of_In in Hu.
    apply (windowOf_In _ _ _ _ _ _ _ Hw), sort_by_In, filter_In in Hu as [Hu _].
    apply list_elem_of_In, list_elem_of_fmap in Hu as [v [-> _]].
    apply toJSON_hydrate_no_password. }
  unfold json. cbn [Http.body]. rewrite hasKey_obj. cbn -[hasKey].
  rewrite Hdata, hasKey_toValue, hasKey_ceilRatio. reflexivity.
Qed.

Lemma getEmployee_no_password (store : list User.t) (id : string) :
  hasKey "password" (body (getEmployee validId store id)) = false.
Proof.
  unfold getEmployee.
  destruct (Users.findById validId store id) as [[u|]|e] eqn:Hfind; try reflexivity.
  destruct (negb (User.isEmployee u)); [reflexivity|].
  rewrite <- (findById_deselected _ _ _ Hfind). no_password.
Qed.

Lemma createRoute_no_password (store : list User.t) (req : Request)
    (newId : string) (now : Z) (body : Body) :
  hasKey "password" (Http.body (createRoute emailOk bcryptHash store req newId now body).1)
  = false.
Proof.
  unfold createRoute.
  destruct (requirePermission "manage_users" req) as [|r] eqn:Hguard;
    [|by apply (requirePermission_no_password _ _ _ Hguard)].
  unfold createEmployee.
  repeat match goal with
         | |- context [match ?x with _ => _ end] => destruct x; try reflexivity
         end.
  all: no_password.
Qed.

Lemma updateRoute_no_password (store : list User.t) (req : Request)
    (id : string) (now : Z) (body : Body) :
  hasKey "password" (Http.body (updateRoute validId emailOk store req id now body).1)
  = false.
Proof.
  unfold updateRoute.
  destruct (requirePermission "manage_users" req) as [|r] eqn:Hguard;
    [|by apply (requirePermission_no_password _ _ _ Hguard)].
  unfold updateEmployee.
  repeat match goal with
         | |- context [match ?x with _ => _ end] => destruct x; try reflexivity
         end.
  all: no_password.
Qed.

Lemma deleteRoute_no_password (store : list User.t) (req : Request)
    (id : string) (body : Body) :
  hasKey "password"
    (Http.body (deleteRoute validId MASTER_SECURITY_CODE store req id body).1) = false.
Proof.
  unfold deleteRoute.
  destruct (requireNewPermission DELETE_USERS req) as [|r] eqn:Hguard;
    [|by apply (requireNewPermission_no_password _ _ _ Hguard)].
  unfold deleteEmployee.
  repeat match goal with
         | |- context [match ?x with _ => _ end] => destruct x; try reflexivity
         end.
Qed.

Lemma resetRoute_no_password (store : list User.t) (req : Request)
    (id tempPassword : string) (now : Z) (body : Body) :
  hasKey "password"
    (Http.body (resetRoute validId bcryptHash MASTER_SECURITY_CODE store req id now
                  tempPassword body).1) = false.
Proof.
  unfold resetRoute.
  destruct (requireNewPermission CHANGE_USER_PASSWORDS req) as [|r] eqn:Hguard;
    [|by apply (requireNewPermission_no_password _ _ _ Hguard)].
  unfold resetPassword.
  repeat match goal with
         | |- context [match ?x with _ => _ end] => destruct x; try reflexivity
         end.
Qed.

Lemma createRoute_agree (s1 s2 : list User.t) (req : Request) (newId : string)
    (now : Z) (body : Body) :
  agree s1 s2 →
  (createRoute emailOk bcryptHash s1 req newId now body).1
  = (createRoute emailOk bcryptHash s2 req newId now body).1
  ∧ agree (createRoute emailOk bcryptHash s1 req newId now body).2
      (createRoute emailOk bcryptHash s2 req newId now body).2.
Proof.
  intros H. unfold createRoute, createEmployee.
  rewrite (emailTaken_agree s1 s2 _ H).
  repeat match goal with
         | |- context [match ?x with _ => _ end] => destruct x; try by split
         end.
  split; [done|]. cbn [snd]. unfold agree in *. by rewrite !fmap_app, H.
Qed.

Lemma updateRoute_agree (s1 s2 : list User.t) (req : Request) (id : string)
    (now : Z) (body : Body) :
  agree s1 s2 →
  (updateRoute validId emailOk s1 req id now body).1
  = (updateRoute validId emailOk s2 req id now body).1
  ∧ agree (updateRoute validId emailOk s1 req id now body).2
      (updateRoute validId emailOk s2 req id now body).2.
Proof.
  intros H. unfold updateRoute, updateEmployee.
  rewrite (findById_agree validId s1 s2 _ H).
  destruct (requirePermission "manage_users" req); [|by split].
  destruct (Users.findById validId s2 id) as [[employee|]|e]; try by split.
  rewrite (emailTaken_agree s1 s2 _ H).
  repeat match goal with
         | |- context [match ?x with _ => _ end] => destruct x; try by split
         end.
  split; [done|]. cbn [snd]. by apply writeBack_agree.
Qed.

Lemma deleteRoute_agree (s1 s2 : list User.t) (req : Request) (id : string)
    (body : Body) :
  agree s1 s2 →
  (deleteRoute validId MASTER_SECURITY_CODE s1 req id body).1
  = (deleteRoute validId MASTER_SECURITY_CODE s2 req id body).1
  ∧ agree (deleteRoute validId MASTER_SECURITY_CODE s1 req id body).2
      (deleteRoute validId MASTER_SECURITY_CODE s2 req id body).2.
Proof.
  intros H. unfold deleteRoute, deleteEmployee.
  rewrite (findById_agree validId s1 s2 _ H), (countRole_agree s1 s2 _ H).
  repeat match goal with
         | |- context [match ?x with _ => _ end] => destruct x; try by split
         end.
  split; [done|]. cbn [snd]. by apply findByIdAndDelete_agree.
Qed.

Lemma resetRoute_agree (s1 s2 : list User.t) (req : Request)
    (id tempPassword : string) (now : Z) (body : Body) :
  agree s1 s2 →
  (resetRoute validId bcryptHash MASTER_SECURITY_CODE s1 req id now tempPassword body).1
  = (resetRoute validId bcryptHash MASTER_SECURITY_CODE s2 req id now tempPassword body).1
  ∧ agree
      (resetRoute validId bcryptHash MASTER_SECURITY_CODE s1 req id now tempPassword
         body).2
      (resetRoute validId bcryptHash MASTER_SECURITY_CODE s2 req id now tempPassword
         body).2.
Proof.
  intros H. unfold resetRoute, resetPassword.
  rewrite (findById_agree validId s1 s2 _ H).
  repeat match goal with
         | |- context [match ?x with _ => _ end] => destruct x; try by split
         end;
    (split; [done|]; cbn [snd]; by apply writeBack_agree).
Qed.

(** C10.  No answer of the employee routes contains a [password] key, and
    the answers do not depend on the stored passwords: on two collections
    that agree on everything but the password hashes, the listing, the read
    of one employee, the creation, the update, the deletion and the password
    reset answer the same request with the same response, and leave behind
    collections that again agree on everything but the hashes. *)
Theorem stored_password_never_flows (s1 s2 : list User.t) (req : Request)
    (q : ListQuery) (id newId tempPassword : string) (now : Z) (body : Body) :
  agree s1 s2 →
  answers validId regexEngine regexError oddWindow unboundedWindow rounding
    emailOk bcryptHash MASTER_SECURITY_CODE s1 req q id newId tempPassword now body
  = answers validId regexEngine regexError oddWindow unboundedWindow rounding
      emailOk bcryptHash MASTER_SECURITY_CODE s2 req q id newId tempPassword now body
  ∧ Forall2 agree
      (afterwards validId emailOk bcryptHash MASTER_SECURITY_CODE
         s1 req id newId tempPassword now body)
      (afterwards validId emailOk bcryptHash MASTER_SECURITY_CODE
         s2 req id newId tempPassword now body)
  ∧ Forall (λ r, hasKey "password" (Http.body r) = false)
      (answers validId regexEngine regexError oddWindow unboundedWindow rounding
         emailOk bcryptHash MASTER_SECURITY_CODE s1 req q id newId tempPassword now body).
Proof.
  intros H.
  destruct (createRoute_agree s1 s2 req newId now body H) as [Hc1 Hc2].
  destruct (updateRoute_agree s1 s2 req id now body H) as [Hu1 Hu2].
  destruct (deleteRoute_agree s1 s2 req id body H) as [Hd1 Hd2].
  destruct (resetRoute_agree s1 s2 req id tempPassword now body H) as [Hr1 Hr2].
  split; [|split].
  - assert (listEmployees regexEngine regexError oddWindow unboundedWindow rounding s1 q
            = listEmployees regexEngine regexError oddWindow unboundedWindow rounding
              s2 q) as Hl.
    { unfold listEmployees. unfold agree in H. by rewrite H. }
    assert (getEmployee validId s1 id = getEmployee validId s2 id) as Hg.
    { unfold getEmployee. by rewrite (findById_agree validId s1 s2 _ H). }
    unfold answers. by rewrite Hl, Hg, Hc1, Hu1, Hd1, Hr1.
  - unfold afterwards. by repeat constructor.
  - unfold answers. repeat constructor.
    + apply listEmployees_no_password.
    + apply getEmployee_no_password.
    + apply createRoute_no_password.
    + apply updateRoute_no_password.
    + apply deleteRoute_no_password.
    + apply resetRoute_no_password.
Qed.

End PasswordFlow.

Section PasswordFlowExample.

Import Js Http Auth Employees.

Lemma stored_password_never_flows_witness :
  answers any_id no_engine no_regex_error refuse_window refuse_unbounded nearest
    any_email toy_hash (Some "s3cret") [ada; sam] (as_caller ada) list_all "s1" "n1"
    "temp-pass" 50 rename
  = answers any_id no_engine no_regex_error refuse_window refuse_unbounded nearest
      any_email toy_hash (Some "s3cret") [ada'; sam'] (as_caller ada) list_all "s1" "n1"
      "temp-pass" 50 rename
  ∧ Forall2 agree
      (afterwards any_id any_email toy_hash (Some "s3cret") [ada; sam] (as_caller ada)
         "s1" "n1" "temp-pass" 50 rename)
      (afterwards any_id any_email toy_hash (Some "s3cret") [ada'; sam'] (as_caller ada)
         "s1" "n1" "temp-pass" 50 rename)
  ∧ Forall (λ r, hasKey "password" (Http.body r) = false)
      (answers any_id no_engine no_regex_error refuse_window refuse_unbounded nearest
         any_email toy_hash
         (Some "s3cret") [ada; sam] (as_caller ada) list_all "s1" "n1" "temp-pass" 50
         rename).
Proof.
  apply (stored_password_never_flows any_id no_engine no_regex_error refuse_window
           refuse_unbounded nearest any_email toy_hash (Some "s3cret") [ada; sam]
           [ada'; sam']).
  reflexivity.
Defined.

(** On that collection the update renames Sam and answers with the account
    as saved, without its password; the stored hash stays. *)
Example rename_sam :
  updateRoute any_id any_email [ada; sam] (as_caller ada) "s1" 50 rename
  = (json 200
       (VObj [("success", VBool true);
              ("data",
               VObj [("_id", VStr "s1"); ("name", VStr "Samuel");
                     ("email", VStr "sam@example.org"); ("role", VStr "staff");
                     ("department", VStr "Desk"); ("status", VStr "active");
                     ("permissions", VArr []);
                     ("isEmailVerified", VBool true);
                     ("mustChangePassword", VBool false);
                     ("createdBy", VStr "a1"); ("createdAt", VDate 5);
                     ("updatedAt", VDate 50); ("isAdmin", VBool false);
                     ("isEmployee", VBool true); ("id", VStr "s1")]);
              ("message", VStr "Employee updated successfully")]),
     [ada;
      User.mk "s1" "Samuel" "sam@example.org" "staff" (Some "$2a$10$other") None
        (Some "Desk") (Some User.Active) (Some []) true false (Some "a1") 5 50]).
Proof. vm_compute. reflexivity. Qed.

End PasswordFlowExample.

(** ** The guards behind the credential verifier *)

Section GuardChain.

Import Js Http Auth.

Variable jwt_verify : string → option Payload.
Variable findById : string → Try (option User.t).

Lemma principal_of_status (u : User.t) :
  not_active u = false → Principal.status (principal_of u) = "active".
Proof.
  unfold not_active, principal_of. simpl.
  destruct (User.status u) as [[]|]; simpl; done.
Qed.

Lemma authenticateToken_pair (req req' : Request) :
  authenticateToken jwt_verify findById req = (req', CallNext) →
  ∃ token decoded u,
    presents req token ∧ jwt_verify token = Some decoded
    ∧ findById (payload_id decoded) = Returned (Some u)
    ∧ not_active u = false
    ∧ req' = mkRequest (authorization req) (Some (principal_of u)).
Proof.
  unfold authenticateToken.
  destruct (bearerToken (authorization req)) as [token|] eqn:Htok; simpl; [|done].
  destruct (truthy token) eqn:Htruthy; simpl; [|done].
  destruct (jwt_verify token) as [decoded|] eqn:Hver; simpl; [|done].
  destruct (findById (payload_id decoded)) as [[u|]|e] eqn:Hfind; simpl; try done.
  destruct (not_active u) eqn:Hact; simpl; [done|]. intros [= <-].
  exists token, decoded, u. repeat split; try done.
  apply bearerToken_spec. split; [done | by apply truthy_spec].
Qed.

(** X1. When the credential verifier lets a request through, it has
    attached the principal of the stored account that the token names: the
    identifier, the role and the permissions are those of the account, the
    permissions are an array even when the account stores none, the status
    reads [active], and the header of the request is as it was. *)
Theorem authenticated_principal_is_active (req req' : Request) :
  authenticateToken jwt_verify findById req = (req', CallNext) →
  authorization req' = authorization req
  ∧ ∃ p token decoded u,
      user req' = Some p
      ∧ presents req token ∧ jwt_verify token = Some decoded
      ∧ findById (payload_id decoded) = Returned (Some u)
      ∧ Principal.id p = User._id u
      ∧ Principal.role p = User.role u
      ∧ Principal.permissions p = Some (default [] (User.permissions u))
      ∧ Principal.status p = "active".
Proof.
  intros H. destruct (authenticateToken_pair req req' H)
    as (token & decoded & u & Hp & Hv & Hf & Hact & ->).
  split; [done|]. exists (principal_of u), token, decoded, u.
  repeat split; try done. by apply principal_of_status.
Qed.

(** X2. Behind the credential verifier no guard answers 401: a request that
    the verifier lets through either passes a guard or is refused by it with
    status 403, whichever of the five guards it is. *)
Theorem verified_request_never_401
    (req req' : Request) (permission : string) (roles : list string)
    (guard : Request → Step) :
  authenticateToken jwt_verify findById req = (req', CallNext) →
  guard ∈ [requirePermission permission; requireNewPermission permission;
           requireEmployee; requireAdmin; authorize roles] →
  guard req' = CallNext ∨ decision (guard req') = Some 403.
Proof.
  intros H Hg. destruct (authenticateToken_pair req req' H)
    as (token & decoded & u & _ & _ & _ & _ & ->).
  repeat (apply elem_of_cons in Hg as [-> | Hg]); [..|by apply elem_of_nil in Hg].
  - unfold requirePermission. cbn [user].
    destruct (String.eqb _ "admin"); [by left|]. destruct (lacks _ _); [by right|by left].
  - unfold requireNewPermission. cbn [user].
    destruct (String.eqb _ "admin"); [by left|]. destruct (lacks _ _); [by right|by left].
  - unfold requireEmployee. cbn [user]. destruct (negb _); [by right|by left].
  - unfold requireAdmin. cbn [user]. destruct (negb _); [by right|by left].
  - unfold authorize. cbn [user]. destruct (negb _); [by right|by left].
Qed.

End GuardChain.

Section GuardChainExample.

Import Js Http Auth.

Lemma authenticated_principal_is_active_witness :
  authorization (mkRequest (Some "Bearer sam.jwt") (Some (principal_of sam)))
  = authorization sam_request
  ∧ ∃ p token decoded u,
      user (mkRequest (Some "Bearer sam.jwt") (Some (principal_of sam))) = Some p
      ∧ presents sam_request token ∧ accept_sam token = Some decoded
      ∧ lookup_sam (payload_id decoded) = Returned (Some u)
      ∧ Principal.id p = User._id u
      ∧ Principal.role p = User.role u
      ∧ Principal.permissions p = Some (default [] (User.permissions u))
      ∧ Principal.status p = "active".
Proof.
  apply (authenticated_principal_is_active accept_sam lookup_sam sam_request).
  reflexivity.
Defined.

Lemma verified_request_never_401_witness :
  requirePermission "manage_users"
    (mkRequest (Some "Bearer sam.jwt") (Some (principal_of sam))) = CallNext
  ∨ decision (requirePermission "manage_users"
                (mkRequest (Some "Bearer sam.jwt") (Some (principal_of sam))))
    = Some 403.
Proof.
  apply (verified_request_never_401 accept_sam lookup_sam sam_request
           (mkRequest (Some "Bearer sam.jwt") (Some (principal_of sam)))
           "manage_users" []).
  - reflexivity.
  - left.
Defined.

End GuardChainExample.

(** ** Role guards and the permission method of the model *)

Section RoleGuards.

Import Js Http Auth.

Lemma requireEmployee_next (req : Request) :
  requireEmployee req = CallNext
  ↔ ∃ p, user req = Some p ∧ Principal.role p ∈ User.employeeRoles.
Proof.
  unfold requireEmployee, User.employeeRoles. destruct (user req) as [p|].
  - case_bool_decide as Hin; simpl; split.
    + intros _. by exists p.
    + done.
    + done.
    + intros (p' & [= <-] & Hin'). contradiction.
  - split; [done | by intros (p & [=] & _)].
Qed.

Lemma requireAdmin_next (req : Request) :
  requireAdmin req = CallNext ↔ ∃ p, user req = Some p ∧ Principal.role p = "admin".
Proof.
  unfold requireAdmin. destruct (user req) as [p|].
  - destruct (String.eqb_spec (Principal.role p) "admin") as [Hr|Hr]; simpl; split.
    + intros _. by exists p.
    + done.
    + done.
    + intros (p' & [= <-] & Hr'). contradiction.
  - split; [done | by intros (p & [=] & _)].
Qed.

(** X3. The role guards form a hierarchy.  [requireAdmin] decides as
    [authorize('admin')] does and [requireEmployee] as [authorize] with the
    four employee roles, status included; [requireEmployee] passes exactly
    the principals whose role is one of the four; and whoever passes
    [requireAdmin] passes [requireEmployee] and both permission checks for
    every permission. *)
Theorem role_guards_hierarchy (req : Request) :
  decision (requireAdmin req) = decision (authorize ["admin"] req)
  ∧ decision (requireEmployee req)
    = decision (authorize ["admin"; "manager"; "staff"; "support"] req)
  ∧ (requireEmployee req = CallNext
     ↔ ∃ p, user req = Some p ∧ Principal.role p ∈ User.employeeRoles)
  ∧ (requireAdmin req = CallNext →
     requireEmployee req = CallNext
     ∧ ∀ permission, requirePermission permission req = CallNext
                     ∧ requireNewPermission permission req = CallNext).
Proof.
  split; [|split; [|split]].
  - unfold requireAdmin, authorize. destruct (user req) as [p|]; [|done].
    destruct (String.eqb_spec (Principal.role p) "admin") as [Hr|Hr]; simpl.
    + rewrite bool_decide_eq_true_2; [done | rewrite Hr; left].
    + rewrite bool_decide_eq_false_2; [done|].
      intros Hin. apply list_elem_of_singleton in Hin. contradiction.
  - unfold requireEmployee, authorize. destruct (user req) as [p|]; [|done].
    by case_bool_decide.
  - apply requireEmployee_next.
  - intros Hadmin. apply requireAdmin_next in Hadmin as (p & Hp & Hr). split.
    + apply requireEmployee_next. exists p. split; [done|]. rewrite Hr. left.
    + intros permission. unfold requirePermission, requireNewPermission.
      by rewrite Hp, Hr.
Qed.

(** X4. The permission method of the model and the permission guard agree
    on every stored account: a request made as the account passes
    [requirePermission] for a permission exactly when the account's
    [hasPermission] returns [true] for it. *)
Theorem hasPermission_matches_guard
    (u : User.t) (permission : string) (header : option string) :
  requirePermission permission (mkRequest header (Some (principal_of u))) = CallNext
  ↔ User.hasPermission u permission = true.
Proof.
  unfold requirePermission, User.hasPermission, lacks, principal_of.
  cbn [user Principal.role Principal.permissions].
  destruct (String.eqb (User.role u) "admin").
  - rewrite orb_true_r. done.
  - rewrite orb_false_r. destruct (User.permissions u) as [ps|]; simpl.
    + by destruct (bool_decide (permission ∈ ps)).
    + done.
Qed.

End RoleGuards.

(** ** Employee routes: what a request can change *)

Section EmployeeStoreFacts.

Import Js Http Auth Employees.

Variable validId : string → bool.

Lemma find_split {A : Type} (f : A → bool) (l : list A) (u : A) :
  List.find f l = Some u →
  ∃ l1 l2, l = (l1 ++ u :: l2)%list ∧ f u = true ∧ Forall (λ v, f v = false) l1.
Proof.
  induction l as [|x l IH]; simpl; [done|].
  destruct (f x) eqn:Hx.
  - intros [= <-]. exists [], l. by repeat split.
  - intros H. destruct (IH H) as (l1 & l2 & -> & Hu & Hl1).
    exists (x :: l1), l2. repeat split; [done|]. by constructor.
Qed.

Lemma findById_found (store : list User.t) (id : string) (employee : User.t) :
  Users.findById validId store id = Returned (Some employee) →
  ∃ u, List.find (Users.has_id id) store = Some u ∧ employee = Users.hydrate u.
Proof.
  unfold Users.findById. destruct (validId id); [|done].
  destruct (List.find (Users.has_id id) store) as [u|]; [|done].
  intros [= <-]. by exists u.
Qed.

Lemma findByIdAndDelete_split (l1 l2 : list User.t) (u : User.t) (id : string) :
  Users.has_id id u = true → Forall (λ v, Users.has_id id v = false) l1 →
  Users.findByIdAndDelete (l1 ++ u :: l2) id = (l1 ++ l2)%list.
Proof.
  intros Hu Hl1. induction Hl1 as [|x l1 Hx _ IH]; simpl.
  - by rewrite Hu.
  - by rewrite Hx, IH.
Qed.

Lemma writeBack_split (l1 l2 : list User.t) (u new : User.t) (pw : option string) :
  Users.has_id (User._id new) u = true →
  Forall (λ v, Users.has_id (User._id new) v = false) l1 →
  writeBack (l1 ++ u :: l2) new pw
  = (l1 ++ Users.withPassword
             (match pw with Some h => Some h | None => User.password u end) new
        :: l2)%list.
Proof.
  intros Hu Hl1. induction Hl1 as [|x l1 Hx _ IH]; simpl.
  - by rewrite Hu.
  - by rewrite Hx, IH.
Qed.

Lemma countRole_app (l1 l2 : list User.t) (r : string) :
  Users.countRole (l1 ++ l2) r = Users.countRole l1 r + Users.countRole l2 r.
Proof.
  unfold Users.countRole. rewrite List.filter_app, length_app. lia.
Qed.

Lemma countRole_cons (u : User.t) (l : list User.t) (r : string) :
  Users.countRole (u :: l) r
  = (if String.eqb (User.role u) r then 1 else 0) + Users.countRole l r.
Proof.
  unfold Users.countRole. simpl. destruct (String.eqb (User.role u) r); simpl; lia.
Qed.

End EmployeeStoreFacts.

Section EmployeeDeletionEffect.

Import Js Http Auth Employees.

Variable validId : string → bool.
Variable MASTER_SECURITY_CODE : option string.

(** The two ways in which the deletion route ends. *)
Lemma deleteRoute_cases (store : list User.t) (req : Request) (id : string)
    (body : Body) :
  let result := deleteRoute validId MASTER_SECURITY_CODE store req id body in
  (status result.1 ≠ 200 ∧ result.2 = store)
  ∨ (∃ caller u l1 l2,
       status result.1 = 200
       ∧ requireNewPermission DELETE_USERS req = CallNext
       ∧ wrongCode MASTER_SECURITY_CODE (b_masterCode body) = false
       ∧ user req = Some caller
       ∧ store = (l1 ++ u :: l2)%list ∧ result.2 = (l1 ++ l2)%list
       ∧ User._id u = id ∧ Forall (λ v, User._id v ≠ id) l1
       ∧ User.isEmployee u = true
       ∧ User._id u ≠ Principal.id caller
       ∧ (User.role u = "admin" → 1 < Users.countRole store "admin")).
Proof.
  unfold deleteRoute, deleteEmployee.
  destruct (requireNewPermission DELETE_USERS req) as [|r] eqn:Hguard.
  2:{ left. split; [|done]. simpl. unfold requireNewPermission in Hguard.
      destruct (user req); [|by injection Hguard as <-].
      destruct (String.eqb _ "admin"); [done|].
      destruct (lacks _ _); [by injection Hguard as <-|done]. }
  destruct (wrongCode _ _) eqn:Hcode; [by left|].
  destruct (Users.findById validId store id) as [[employee|]|e] eqn:Hfind;
    [|by left..].
  destruct (findById_found validId store id employee Hfind) as (u & Hu & ->).
  destruct (User.isEmployee (Users.hydrate u)) eqn:Hemp; simpl; [|by left].
  destruct (String.eqb_spec (User.role u) "admin") as [Hrole|Hrole]; simpl.
  - destruct (Z.leb_spec (Users.countRole store "admin") 1) as [Hle|Hgt]; [by left|].
    destruct (user req) as [caller|] eqn:Hcaller; [|by left].
    destruct (String.eqb_spec (User._id u) (Principal.id caller)) as [Hself|Hself];
      [by left|].
    right. destruct (find_split _ _ _ Hu) as (l1 & l2 & -> & Hid & Hl1).
    exists caller, u, l1, l2. apply String.eqb_eq in Hid as Hid'.
    repeat split; try done.
    + simpl. by apply findByIdAndDelete_split.
    + eapply Forall_impl; [exact Hl1|]. intros v Hv. simpl in Hv.
      by apply String.eqb_neq.
  - destruct (user req) as [caller|] eqn:Hcaller; [|by left].
    destruct (String.eqb_spec (User._id u) (Principal.id caller)) as [Hself|Hself];
      [by left|].
    right. destruct (find_split _ _ _ Hu) as (l1 & l2 & -> & Hid & Hl1).
    exists caller, u, l1, l2. apply String.eqb_eq in Hid as Hid'.
    repeat split; try done.
    + simpl. by apply findByIdAndDelete_split.
    + eapply Forall_impl; [exact Hl1|]. intros v Hv. simpl in Hv.
      by apply String.eqb_neq.
Qed.

(** X5. The deletion route never removes the last administrator: a
    collection with at least one record of role [admin] still has one after
    any request to the route, whoever sends it and whatever it names. *)
Theorem delete_keeps_an_admin (store : list User.t) (req : Request) (id : string)
    (body : Body) :
  1 <= Users.countRole store "admin" →
  1 <= Users.countRole (deleteRoute validId MASTER_SECURITY_CODE store req id body).2
         "admin".
Proof.
  intros Hone.
  destruct (deleteRoute_cases store req id body)
    as [[_ ->] | (caller & u & l1 & l2 & _ & _ & _ & _ & -> & -> & _ & _ & _ & _ & Hadm)];
    [done|].
  rewrite countRole_app. rewrite countRole_app, countRole_cons in Hone, Hadm.
  destruct (String.eqb_spec (User.role u) "admin") as [Hrole|Hrole].
  - specialize (Hadm Hrole). lia.
  - lia.
Qed.

(** X6. A request to the deletion route either changes nothing or removes
    exactly one record.  When the answer has status 200, the record removed
    is the first one with the identifier of the request, it is an employee
    record and not the caller's own, and every other record stays where it
    was; with any other status the collection is unchanged. *)
Theorem delete_removes_only_target (store : list User.t) (req : Request)
    (id : string) (body : Body) :
  let result := deleteRoute validId MASTER_SECURITY_CODE store req id body in
  (status result.1 = 200 →
   ∃ caller u l1 l2,
     user req = Some caller
     ∧ store = (l1 ++ u :: l2)%list ∧ result.2 = (l1 ++ l2)%list
     ∧ User._id u = id ∧ Forall (λ v, User._id v ≠ id) l1
     ∧ User.isEmployee u = true ∧ User._id u ≠ Principal.id caller)
  ∧ (status result.1 ≠ 200 → result.2 = store).
Proof.
  intros result. subst result.
  destruct (deleteRoute_cases store req id body)
    as [[Hs Hstore] | (caller & u & l1 & l2 & Hs & _ & _ & Hc & Hst & Hres & Hid & Hl1
                        & Hemp & Hself & _)].
  - split; [intros H; contradiction | done].
  - split; [|intros H; contradiction]. intros _. by exists caller, u, l1, l2.
Qed.

End EmployeeDeletionEffect.

Section EmployeePasswordReset.

Import Js Http Auth Employees.

Variable validId : string → bool.
Variable bcryptHash : string → string.
Variable MASTER_SECURITY_CODE : option string.

Lemma guard_refusal_status (permission : string) (req : Request) (r : Response) :
  requireNewPermission permission req = Respond r → status r ≠ 200.
Proof.
  unfold requireNewPermission. destruct (user req); [|by intros [= <-]].
  destruct (String.eqb _ "admin"); [done|].
  destruct (lacks _ _); [by intros [= <-] | done].
Qed.

Lemma validatePassword_ok (pw : string) :
  User.validatePassword pw = [] → (6 <= String.length pw)%nat.
Proof.
  unfold User.validatePassword, User.when.
  destruct (truthy pw); simpl; [|done].
  destruct (Nat.ltb_spec (String.length pw) 6); [done | lia].
Qed.

(** The code of a request is wrong exactly when it differs from the
    configured one; an absent code differs from a configured one. *)
Lemma wrongCode_spec (code : option string) :
  wrongCode MASTER_SECURITY_CODE code = true ↔ code ≠ MASTER_SECURITY_CODE.
Proof.
  unfold wrongCode. destruct code as [s|], MASTER_SECURITY_CODE as [e|]; simpl.
  - rewrite negb_true_iff. destruct (String.eqb_spec s e); split; congruence.
  - split; [discriminate | done].
  - split; [discriminate | done].
  - split; [discriminate | congruence].
Qed.

(** X7. The master code is compared before anything else is looked at.  A
    request to delete an employee or to reset a password whose code differs
    from the configured one, an absent code included, changes nothing and,
    once past the guard, gets status 403 with the message about the master
    code, whatever record it names.  A request whose code is the configured
    one never gets that answer. *)
Theorem wrong_master_code_changes_nothing
    (store : list User.t) (req : Request) (id : string) (now : Z)
    (tempPassword : string) (body : Body) :
  let deletion := deleteRoute validId MASTER_SECURITY_CODE store req id body in
  let reset :=
    resetRoute validId bcryptHash MASTER_SECURITY_CODE store req id now tempPassword
      body in
  let denied := failure 403 "Invalid master security code. Access denied." in
  (b_masterCode body ≠ MASTER_SECURITY_CODE →
   deletion.2 = store ∧ reset.2 = store
   ∧ (requireNewPermission DELETE_USERS req = CallNext → deletion.1 = denied)
   ∧ (requireNewPermission CHANGE_USER_PASSWORDS req = CallNext → reset.1 = denied))
  ∧ (b_masterCode body = MASTER_SECURITY_CODE →
     deletion.1 ≠ denied ∧ reset.1 ≠ denied).
Proof.
  simpl. unfold deleteRoute, resetRoute, deleteEmployee, resetPassword. split.
  - intros Hcode. apply wrongCode_spec in Hcode. rewrite Hcode.
    split; [|split; [|split]].
    + by destruct (requireNewPermission DELETE_USERS req).
    + by destruct (requireNewPermission CHANGE_USER_PASSWORDS req).
    + by intros ->.
    + by intros ->.
  - intros Hcode.
    assert (wrongCode MASTER_SECURITY_CODE (b_masterCode body) = false) as ->.
    { apply not_true_is_false. intros H. by apply wrongCode_spec in H. }
    split.
    + destruct (requireNewPermission DELETE_USERS req) as [|r] eqn:Hguard.
      2:{ unfold requireNewPermission in Hguard. destruct (user req); [|by injection Hguard as <-].
          destruct (String.eqb _ "admin"); [done|].
          destruct (lacks _ _); [by injection Hguard as <-|done]. }
      destruct (Users.findById validId store id) as [[employee|]|e]; [|done..].
      destruct (negb (User.isEmployee employee)); [done|].
      destruct (String.eqb (User.role employee) "admin" && _); [done|].
      destruct (user req) as [caller|]; [|done].
      by destruct (String.eqb (User._id employee) (Principal.id caller)).
    + destruct (requireNewPermission CHANGE_USER_PASSWORDS req) as [|r] eqn:Hguard.
      2:{ unfold requireNewPermission in Hguard. destruct (user req); [|by injection Hguard as <-].
          destruct (String.eqb _ "admin"); [done|].
          destruct (lacks _ _); [by injection Hguard as <-|done]. }
      destruct (Users.findById validId store id) as [[employee|]|e]; [|done..].
      destruct (negb (User.isEmployee employee)); [done|].
      destruct (User.validatePassword tempPassword); [|done].
      by destruct (user req).
Qed.

(** The two ways in which the reset route ends. *)
Lemma resetRoute_cases
    (store : list User.t) (req : Request) (id : string) (now : Z)
    (tempPassword : string) (body : Body) :
  let result :=
    resetRoute validId bcryptHash MASTER_SECURITY_CODE store req id now tempPassword
      body in
  (status result.1 ≠ 200 ∧ result.2 = store)
  ∨ (∃ u l1 l2,
       status result.1 = 200
       ∧ store = (l1 ++ u :: l2)%list
       ∧ result.2
         = (l1 ++ User.mk (User._id u) (User.name u) (User.email u) (User.role u)
                    (Some (bcryptHash tempPassword)) (User.phone u) (User.department u)
                    (Some (default User.Active (User.status u)))
                    (Some (default [] (User.permissions u)))
                    (User.isEmailVerified u) true
                    (User.createdBy u) (User.createdAt u) now
               :: l2)%list
       ∧ User._id u = id ∧ Forall (λ v, User._id v ≠ id) l1
       ∧ User.isEmployee u = true
       ∧ field "temporaryPassword" (Http.body result.1) = Some (VStr tempPassword)
       ∧ User.validatePassword tempPassword = []).
Proof.
  simpl. unfold resetRoute, resetPassword.
  destruct (requireNewPermission CHANGE_USER_PASSWORDS req) as [|r] eqn:Hguard.
  2:{ apply guard_refusal_status in Hguard. by left. }
  apply requireNewPermission_next in Hguard as [caller Hcaller].
  destruct (wrongCode _ _); [by left|].
  destruct (Users.findById validId store id) as [[employee|]|e] eqn:Hfind;
    [|by left..].
  destruct (findById_found validId store id employee Hfind) as (u & Hu & ->).
  destruct (User.isEmployee (Users.hydrate u)) eqn:Hemp; simpl; [|by left].
  destruct (User.validatePassword tempPassword) eqn:Hvalid; [|by left].
  rewrite Hcaller. simpl. right.
  destruct (find_split _ _ _ Hu) as (l1 & l2 & -> & Hid & Hl1).
  exists u, l1, l2. apply String.eqb_eq in Hid as Hid'.
  split; [done|]. split; [done|]. split.
  { rewrite writeBack_split;
      [reflexivity | apply String.eqb_refl | simpl; rewrite Hid'; exact Hl1]. }
  split; [done|]. split.
  { eapply Forall_impl; [exact Hl1|]. intros v Hv. simpl in Hv. by apply String.eqb_neq. }
  by repeat split.
Qed.

(** X8. A request to the reset route either changes nothing or rewrites one
    record.  When the answer has status 200, the record rewritten is the
    first one with the identifier of the request and it is an employee
    record; it now stores the hash of the temporary password, never the
    password itself, has [mustChangePassword] set and [updatedAt] at the
    time of the call; a status or a permissions array that the record
    lacked is written with the default of the schema, [active] and the
    empty array; every other path is kept; the other records stay as they
    were; and the answer carries the temporary password, which has at least
    six characters.  With any other status the collection is unchanged. *)
Theorem reset_rewrites_only_target
    (store : list User.t) (req : Request) (id : string) (now : Z)
    (tempPassword : string) (body : Body) :
  let result :=
    resetRoute validId bcryptHash MASTER_SECURITY_CODE store req id now tempPassword
      body in
  (status result.1 = 200 →
   ∃ u l1 l2,
     store = (l1 ++ u :: l2)%list
     ∧ result.2
       = (l1 ++ User.mk (User._id u) (User.name u) (User.email u) (User.role u)
                  (Some (bcryptHash tempPassword)) (User.phone u) (User.department u)
                  (Some (default User.Active (User.status u)))
                  (Some (default [] (User.permissions u)))
                  (User.isEmailVerified u) true
                  (User.createdBy u) (User.createdAt u) now
             :: l2)%list
     ∧ User._id u = id ∧ Forall (λ v, User._id v ≠ id) l1
     ∧ User.isEmployee u = true
     ∧ field "temporaryPassword" (Http.body result.1) = Some (VStr tempPassword)
     ∧ (6 <= String.length tempPassword)%nat)
  ∧ (status result.1 ≠ 200 → result.2 = store).
Proof.
  intros result. subst result.
  destruct (resetRoute_cases store req id now tempPassword body)
    as [[Hs Hstore] | (u & l1 & l2 & Hs & Hst & Hres & Hid & Hl1 & Hemp & Hf & Hv)].
  - split; [intros H; contradiction | done].
  - split; [|intros H; contradiction]. intros _. exists u, l1, l2.
    repeat split; try done. by apply validatePassword_ok.
Qed.

End EmployeePasswordReset.

Section EmployeeCreateUpdate.

Import Js Http Auth Employees.

Variable validId : string → bool.
Variable emailOk : string → bool.
Variable bcryptHash : string → string.

Lemma requirePermission_refusal_status (permission : string) (req : Request)
    (r : Response) :
  requirePermission permission req = Respond r → status r = 401 ∨ status r = 403.
Proof.
  unfold requirePermission. destruct (user req); [|intros [= <-]; by left].
  destruct (String.eqb _ "admin"); [done|].
  destruct (lacks _ _); [intros [= <-]; by right | done].
Qed.

Lemma requirePermission_next (permission : string) (req : Request) :
  requirePermission permission req = CallNext → ∃ caller, user req = Some caller.
Proof.
  unfold requirePermission. destruct (user req) as [caller|]; [eauto | done].
Qed.

Lemma given_Some (x : option string) :
  given x = true → ∃ s, x = Some s ∧ s ≠ "" ∧ ∀ d, or_else x d = s.
Proof.
  unfold given, or_else. destruct x as [s|]; [|done].
  intros Hs. exists s. rewrite Hs. split; [done|]. split; [by apply truthy_spec | done].
Qed.

Lemma emailTaken_spec (store : list User.t) (e : string) :
  emailTaken store e = false ↔ e ∉ (User.email <$> store).
Proof.
  unfold emailTaken. induction store as [|u store IH]; simpl.
  - split; [intros _; apply not_elem_of_nil | done].
  - rewrite orb_false_iff, IH, not_elem_of_cons.
    destruct (String.eqb_spec (User.email u) e); split; intros [? ?]; split;
      first [done | congruence].
Qed.

(** The two ways in which the creation route ends. *)
Lemma createRoute_cases (store : list User.t) (req : Request) (newId : string)
    (now : Z) (body : Body) :
  let result := createRoute emailOk bcryptHash store req newId now body in
  (status result.1 ≠ 201 ∧ result.2 = store)
  ∨ (∃ caller name email role pw department,
       status result.1 = 201
       ∧ user req = Some caller
       ∧ b_name body = Some name ∧ b_email body = Some email
       ∧ b_role body = Some role ∧ b_password body = Some pw
       ∧ b_department body = Some department
       ∧ role ∈ User.employeeRoles
       ∧ (email ∉ (User.email <$> store))
       ∧ User.validate emailOk
           (User.mkDraft name email role (Some pw) (b_phone body) (Some department)
              (or_else (b_status body) "active") (default [] (b_permissions body)))
         = []
       ∧ result.2
         = (store
            ++ [User.mk newId (trim name) email role (Some (bcryptHash pw))
                  (trim <$> b_phone body) (Some (trim department))
                  (User.parse_status (or_else (b_status body) "active"))
                  (Some (default [] (b_permissions body))) false false
                  (Some (Principal.id caller)) now now])%list).
Proof.
  unfold createRoute, createEmployee.
  destruct (requirePermission "manage_users" req) as [|r] eqn:Hguard.
  2:{ left. simpl. split; [|done].
      destruct (requirePermission_refusal_status _ _ _ Hguard) as [-> | ->]; done. }
  destruct (required_missing body) eqn:Hreq; [by left|].
  unfold required_missing in Hreq. rewrite !orb_false_iff, !negb_false_iff in Hreq.
  destruct Hreq as ((((Hn & He) & Hp) & Hr) & Hd).
  destruct (given_Some _ Hn) as (name & Hname & _ & Hname').
  destruct (given_Some _ He) as (email & Hemail & _ & Hemail').
  destruct (given_Some _ Hp) as (pw & Hpw & _ & _).
  destruct (given_Some _ Hr) as (role & Hrole & _ & Hrole').
  destruct (given_Some _ Hd) as (department & Hdep & _ & _).
  rewrite !Hname', !Hemail', !Hrole'.
  case_bool_decide as Hin; simpl; [|by left].
  destruct (emailTaken store email) eqn:Htaken; [by left|].
  destruct (user req) as [caller|] eqn:Hcaller; [|by left].
  rewrite Hpw, Hdep.
  destruct (User.validate emailOk _) eqn:Hvalid; [|by left].
  right. exists caller, name, email, role, pw, department.
  repeat split; try done. by apply emailTaken_spec.
Qed.

(** X9. A request to the creation route either changes nothing or appends
    one record.  When the answer has status 201 the new record carries the
    identifier drawn for it, the role of the body, which is one of the four
    employee roles, an email that no stored record had, the hash of the
    password of the body and never the password itself, the caller as its
    creator and the time of the call as both timestamps; the records stored
    before stay as they were.  With any other status the collection is
    unchanged. *)
Theorem create_appends_one_record (store : list User.t) (req : Request)
    (newId : string) (now : Z) (body : Body) :
  let result := createRoute emailOk bcryptHash store req newId now body in
  (status result.1 = 201 →
   ∃ caller pw e,
     user req = Some caller ∧ b_password body = Some pw
     ∧ result.2 = (store ++ [e])%list
     ∧ User._id e = newId
     ∧ b_role body = Some (User.role e) ∧ User.role e ∈ User.employeeRoles
     ∧ b_email body = Some (User.email e) ∧ (User.email e ∉ (User.email <$> store))
     ∧ User.password e = Some (bcryptHash pw)
     ∧ User.createdBy e = Some (Principal.id caller)
     ∧ User.createdAt e = now ∧ User.updatedAt e = now
     ∧ User.mustChangePassword e = false)
  ∧ (status result.1 ≠ 201 → result.2 = store).
Proof.
  intros result. subst result.
  destruct (createRoute_cases store req newId now body)
    as [[Hs Hstore] | (caller & name & email & role & pw & department & Hs & Hc & Hn & He
                        & Hr & Hp & Hd & Hin & Hfresh & Hvalid & Hres)].
  - split; [intros H; contradiction | done].
  - split; [|intros H; contradiction]. intros _.
    eexists caller, pw, _. split; [done|]. split; [done|]. split; [exact Hres|].
    simpl. by repeat split.
Qed.

End EmployeeCreateUpdate.

Section EmployeeUpdateEffect.

Import Js Http Auth Employees.

Variable validId : string → bool.
Variable emailOk : string → bool.

(** [save] keeps every path of the document it is given, except that it
    may stamp [updatedAt]. *)
Lemma stamp_fields (now : Z) (old new : User.t) :
  stamp now old new
  = User.mk (User._id new) (User.name new) (User.email new) (User.role new)
      (User.password new) (User.phone new) (User.department new) (User.status new)
      (User.permissions new) (User.isEmailVerified new) (User.mustChangePassword new)
      (User.createdBy new) (User.createdAt new)
      (if bool_decide (new = old) then User.updatedAt old else now).
Proof.
  unfold stamp. case_bool_decide as Heq; [|reflexivity].
  subst old. by destruct new.
Qed.

(** The two ways in which the update route ends. *)
Lemma updateRoute_cases (store : list User.t) (req : Request) (id : string)
    (now : Z) (body : Body) :
  let result := updateRoute validId emailOk store req id now body in
  (status result.1 ≠ 200 ∧ result.2 = store)
  ∨ (∃ u l1 l2,
       status result.1 = 200
       ∧ store = (l1 ++ u :: l2)%list
       ∧ result.2
         = (l1 ++ Users.withPassword (User.password u)
                    (stamp now (Users.hydrate u) (assign (Users.hydrate u) body))
               :: l2)%list
       ∧ User._id u = id ∧ Forall (λ v, User._id v ≠ id) l1
       ∧ User.isEmployee u = true
       ∧ (given (b_email body) = true →
          or_else (b_email body) "" ≠ User.email u →
          or_else (b_email body) "" ∉ (User.email <$> store))
       ∧ (given (b_role body) = true → or_else (b_role body) "" ∈ User.employeeRoles)
       ∧ List.filter (λ pm, assigned body pm.1)
           (User.validate emailOk (updateDraft (Users.hydrate u) body))
         = []).
Proof.
  unfold updateRoute, updateEmployee.
  destruct (requirePermission "manage_users" req) as [|r] eqn:Hguard.
  2:{ left. simpl. split; [|done].
      destruct (requirePermission_refusal_status _ _ _ Hguard) as [-> | ->]; done. }
  destruct (Users.findById validId store id) as [[employee|]|e] eqn:Hfind;
    [|by left..].
  destruct (findById_found validId store id employee Hfind) as (u & Hu & ->).
  destruct (User.isEmployee (Users.hydrate u)) eqn:Hemp; simpl; [|by left].
  destruct (given (b_email body)
            && negb (String.eqb (or_else (b_email body) "") (User.email u))
            && emailTaken store (or_else (b_email body) "")) eqn:Hemail; [by left|].
  destruct (given (b_role body)
            && negb (bool_decide (or_else (b_role body) "" ∈ User.employeeRoles)))
    eqn:Hrole; [by left|].
  destruct (List.filter _ _) eqn:Hbad; [|by left].
  right. destruct (find_split _ _ _ Hu) as (l1 & l2 & -> & Hid & Hl1).
  exists u, l1, l2. apply String.eqb_eq in Hid as Hid'.
  split; [done|]. split; [done|]. split.
  { simpl. rewrite writeBack_split; rewrite stamp_fields; simpl;
      [reflexivity | apply String.eqb_refl | rewrite Hid'; exact Hl1]. }
  split; [done|]. split.
  { eapply Forall_impl; [exact Hl1|]. intros v Hv. simpl in Hv. by apply String.eqb_neq. }
  split; [done|]. split; [|split; [|done]].
  - intros Hg Hne. apply emailTaken_spec. rewrite Hg in Hemail. simpl in Hemail.
    destruct (String.eqb_spec (or_else (b_email body) "") (User.email u));
      [contradiction | done].
  - intros Hg. rewrite Hg in Hrole. simpl in Hrole.
    apply negb_false_iff in Hrole. by apply bool_decide_eq_true in Hrole.
Qed.

Lemma not_given_or_else (x : option string) (d : string) :
  given x = false → or_else x d = d.
Proof. unfold given, or_else. destruct x as [s|]; [|done]. by intros ->. Qed.

(** A status that passes the validators of [save] is one of the enum. *)
Lemma update_status (employee : User.t) (body : Body) :
  given (b_status body) = true →
  List.filter (λ pm, assigned body pm.1)
    (User.validate emailOk (updateDraft employee body)) = [] →
  is_Some (User.parse_status (or_else (b_status body) "")).
Proof.
  intros Hg. unfold User.validate. rewrite !List.filter_app. intros H.
  do 8 (apply app_eq_nil in H as [_ H]). apply app_eq_nil in H as [H _].
  unfold updateDraft in H. cbn [User.d_status] in H.
  destruct (given_Some _ Hg) as (s & _ & _ & Hs). rewrite !Hs in H |- *.
  destruct (User.parse_status s) as [st|]; [by eexists|].
  exfalso. revert H. unfold User.when, assigned. rewrite Hg.
  rewrite (bool_decide_eq_false_2 (is_Some (@None User.Status))) by apply is_Some_None.
  cbn [negb List.filter fst andb]. rewrite String.eqb_refl, !orb_true_r. cbn [orb].
  discriminate.
Qed.

(** X10. A request to the update route either changes nothing or rewrites
    one record, and then only the paths that the body provides.  When the
    answer has status 200, the record rewritten is the first one with the
    identifier of the request and it is an employee record; the stored
    password, the identifier, the creator and the time of creation are as
    before, even when the body carries a password; the name, the email, the
    role, the phone and the department are as before when the body does not
    give them; the record now stores a status and a permissions array: when
    the body does not give them they are as before or, where the stored
    record lacked them, the defaults of the schema, [active] and the empty
    array; the role is still one of the four employee roles; [updatedAt] is
    the time of the call or, when no assignment changed a path, as before,
    and then the record is the stored one with those defaults filled in;
    and the other records stay as they were.  With any other status the
    collection is unchanged. *)
Theorem update_rewrites_only_given_paths (store : list User.t) (req : Request)
    (id : string) (now : Z) (body : Body) :
  let result := updateRoute validId emailOk store req id now body in
  (status result.1 = 200 →
   ∃ u u' l1 l2,
     store = (l1 ++ u :: l2)%list ∧ result.2 = (l1 ++ u' :: l2)%list
     ∧ User._id u = id ∧ Forall (λ v, User._id v ≠ id) l1
     ∧ User.isEmployee u = true ∧ User.isEmployee u' = true
     ∧ User._id u' = User._id u ∧ User.password u' = User.password u
     ∧ User.createdBy u' = User.createdBy u ∧ User.createdAt u' = User.createdAt u
     ∧ User.mustChangePassword u' = User.mustChangePassword u
     ∧ (given (b_name body) = false → User.name u' = User.name u)
     ∧ (given (b_email body) = false → User.email u' = User.email u)
     ∧ (given (b_role body) = false → User.role u' = User.role u)
     ∧ (b_phone body = None → User.phone u' = User.phone u)
     ∧ (given (b_department body) = false → User.department u' = User.department u)
     ∧ (given (b_status body) = false →
        User.status u' = Some (default User.Active (User.status u)))
     ∧ (b_permissions body = None →
        User.permissions u' = Some (default [] (User.permissions u)))
     ∧ is_Some (User.status u') ∧ is_Some (User.permissions u')
     ∧ (User.updatedAt u' = now
        ∨ User.updatedAt u' = User.updatedAt u
          ∧ u' = User.mk (User._id u) (User.name u) (User.email u) (User.role u)
                   (User.password u) (User.phone u) (User.department u)
                   (Some (default User.Active (User.status u)))
                   (Some (default [] (User.permissions u)))
                   (User.isEmailVerified u) (User.mustChangePassword u)
                   (User.createdBy u) (User.createdAt u) (User.updatedAt u)))
  ∧ (status result.1 ≠ 200 → result.2 = store).
Proof.
  intros result. subst result.
  destruct (updateRoute_cases store req id now body)
    as [[Hs Hstore] | (u & l1 & l2 & Hs & Hst & Hres & Hid & Hl1 & Hemp & _ & Hrole & Hbad)].
  - split; [intros H; contradiction | done].
  - split; [|intros H; contradiction]. intros _.
    eexists u, _, l1, l2. split; [done|]. split; [exact Hres|].
    assert (User.updatedAt
              (Users.withPassword (User.password u)
                 (stamp now (Users.hydrate u) (assign (Users.hydrate u) body))) = now
            ∨ User.updatedAt
                (Users.withPassword (User.password u)
                   (stamp now (Users.hydrate u) (assign (Users.hydrate u) body)))
              = User.updatedAt u
              ∧ Users.withPassword (User.password u)
                  (stamp now (Users.hydrate u) (assign (Users.hydrate u) body))
                = User.mk (User._id u) (User.name u) (User.email u) (User.role u)
                    (User.password u) (User.phone u) (User.department u)
                    (Some (default User.Active (User.status u)))
                    (Some (default [] (User.permissions u)))
                    (User.isEmailVerified u) (User.mustChangePassword u)
                    (User.createdBy u) (User.createdAt u) (User.updatedAt u)) as Hlast.
    { unfold stamp. case_bool_decide as Heq; [right; by split | by left]. }
    revert Hlast. rewrite stamp_fields. cbn -[given or_else trim User.isEmployee].
    intros Hlast.
    split; [done|]. split; [done|]. split; [done|]. split.
    { unfold User.isEmployee in *. cbn -[given or_else].
      destruct (given (b_role body)) eqn:Hg.
      - destruct (given_Some _ Hg) as (s & _ & _ & Hs'). rewrite Hs'.
        specialize (Hrole eq_refl). rewrite Hs' in Hrole. by apply bool_decide_eq_true.
      - by rewrite not_given_or_else. }
    split; [done|]. split; [done|]. split; [done|]. split; [done|]. split; [done|].
    split; [by intros ->|].
    split; [intros Hg; by apply not_given_or_else|].
    split; [intros Hg; by apply not_given_or_else|].
    split; [by intros ->|].
    split; [by intros ->|].
    split; [by intros ->|].
    split; [by intros ->|].
    split.
    { destruct (given (b_status body)) eqn:Hg; [|by eexists].
      by apply (update_status (Users.hydrate u) body). }
    split; [destruct (b_permissions body); by eexists|].
    exact Hlast.
Qed.

End EmployeeUpdateEffect.

Section EmployeeInvariants.

Import Js Http Auth Employees.

Variable validId : string → bool.
Variable emailOk : string → bool.
Variable bcryptHash : string → string.
Variable MASTER_SECURITY_CODE : option string.

Lemma NoDup_replace (l1 l2 : list string) (x y : string) :
  NoDup (l1 ++ x :: l2) → y = x ∨ y ∉ (l1 ++ x :: l2)%list → NoDup (l1 ++ y :: l2).
Proof.
  intros H [-> | Hy]; [done|].
  apply NoDup_app in H as (H1 & H12 & H2). apply NoDup_cons in H2 as [Hx H2].
  apply NoDup_app. split; [done|]. split.
  - intros z Hz Hzy. apply elem_of_cons in Hzy as [-> | Hz2].
    + apply Hy. apply elem_of_app. by left.
    + apply (H12 z Hz). by right.
  - apply NoDup_cons. split; [|done]. intros Hin. apply Hy.
    apply elem_of_app. right. by right.
Qed.

Lemma NoDup_remove_middle (l1 l2 : list string) (x : string) :
  NoDup (l1 ++ x :: l2) → NoDup (l1 ++ l2).
Proof.
  intros H. apply NoDup_app in H as (H1 & H12 & H2). apply NoDup_cons in H2 as [Hx H2].
  apply NoDup_app. split; [done|]. split; [|done].
  intros z Hz Hz2. apply (H12 z Hz). by right.
Qed.

(** X11. The four routes that write one employee keep the emails of the
    collection pairwise distinct: when no two stored records share an email,
    none do after a request to create, to update or to delete an employee or
    to reset a password, whatever the request is. *)
Theorem emails_stay_unique (store : list User.t) (req : Request) (id newId : string)
    (now : Z) (tempPassword : string) (body : Body) :
  NoDup (User.email <$> store) →
  NoDup (User.email <$> (createRoute emailOk bcryptHash store req newId now body).2)
  ∧ NoDup (User.email <$> (updateRoute validId emailOk store req id now body).2)
  ∧ NoDup (User.email <$> (deleteRoute validId MASTER_SECURITY_CODE store req id body).2)
  ∧ NoDup (User.email
           <$> (resetRoute validId bcryptHash MASTER_SECURITY_CODE store req id now
                  tempPassword body).2).
Proof.
  intros Hnd. split; [|split; [|split]].
  - destruct (createRoute_cases emailOk bcryptHash store req newId now body)
      as [[_ ->] | (caller & name & email & role & pw & department & _ & _ & _ & _ & _ & _
                    & _ & _ & Hfresh & _ & ->)]; [done|].
    rewrite fmap_app. apply NoDup_app. split; [done|]. split.
    + intros z Hz Hz'. apply list_elem_of_singleton in Hz'. simpl in Hz'. by subst z.
    + apply NoDup_singleton.
  - destruct (updateRoute_cases validId emailOk store req id now body)
      as [[_ ->] | (u & l1 & l2 & _ & Hst & -> & _ & _ & _ & Hemail & _)]; [done|].
    rewrite Hst in Hnd, Hemail. rewrite fmap_app, fmap_cons in Hnd, Hemail |- *.
    apply (NoDup_replace _ _ _ _ Hnd).
    rewrite stamp_fields. cbn -[given or_else].
    destruct (given (b_email body)) eqn:Hg.
    + destruct (given_Some _ Hg) as (s & _ & _ & Hs). rewrite Hs in Hemail |- *.
      destruct (decide (s = User.email u)) as [-> | Hne]; [by left|].
      right. by apply Hemail.
    + left. by apply not_given_or_else.
  - destruct (deleteRoute_cases validId MASTER_SECURITY_CODE store req id body)
      as [[_ ->] | (caller & u & l1 & l2 & _ & _ & _ & _ & Hst & -> & _)]; [done|].
    rewrite Hst in Hnd. rewrite fmap_app, fmap_cons in Hnd. rewrite fmap_app.
    by apply NoDup_remove_middle in Hnd.
  - destruct (resetRoute_cases validId bcryptHash MASTER_SECURITY_CODE store req id now
                tempPassword body)
      as [[_ ->] | (u & l1 & l2 & _ & Hst & -> & _)]; [done|].
    rewrite Hst in Hnd. rewrite fmap_app, fmap_cons in Hnd |- *. exact Hnd.
Qed.

End EmployeeInvariants.

Section EmployeePermissions.

Import Js Http Auth Employees.

Variable validId : string → bool.
Variable emailOk : string → bool.
Variable bcryptHash : string → string.
Variable MASTER_SECURITY_CODE : option string.

Lemma eachPermission_nil (i : nat) (ps : list string) (p : string) :
  User.eachPermission i ps = [] → p ∈ ps → p ∈ User.permissionEnum.
Proof.
  revert i. induction ps as [|x ps IH]; intros i H Hp.
  - by apply elem_of_nil in Hp.
  - simpl in H. apply app_eq_nil in H as [Hx Hrest].
    apply elem_of_cons in Hp as [-> | Hp]; [|by apply (IH (S i))].
    unfold User.when in Hx. by case_bool_decide.
Qed.

Lemma eachPermission_paths (i : nat) (ps : list string) :
  Forall (λ pm : string * string, String.prefix "permissions" pm.1 = true)
    (User.eachPermission i ps).
Proof.
  revert i. induction ps as [|x ps IH]; intros i; simpl; [constructor|].
  apply Forall_app. split; [|apply IH].
  unfold User.when. destruct (negb _); constructor; [reflexivity | constructor].
Qed.

Lemma validate_permissions (d : User.Draft) :
  User.validate emailOk d = [] → User.eachPermission 0 (User.d_permissions d) = [].
Proof.
  unfold User.validate. intros H.
  repeat (apply app_eq_nil in H as [_ H]). exact H.
Qed.

Lemma filter_nil_all {A : Type} (f : A → bool) (l : list A) :
  List.filter f l = [] → Forall (λ x, f x = true) l → l = [].
Proof.
  destruct l as [|x l]; [done|]. simpl. intros H Hall.
  apply Forall_cons in Hall as [Hx _]. by rewrite Hx in H.
Qed.

Lemma update_permissions (employee : User.t) (body : Body) (ps : list string) :
  b_permissions body = Some ps →
  List.filter (λ pm, assigned body pm.1)
    (User.validate emailOk (updateDraft employee body)) = [] →
  User.eachPermission 0 ps = [].
Proof.
  intros Hps. unfold User.validate. rewrite !List.filter_app. intros H.
  repeat (apply app_eq_nil in H as [_ H]).
  unfold updateDraft in H. cbn [User.d_permissions] in H. rewrite Hps in H.
  cbn [default from_option] in H. apply (filter_nil_all _ _ H).
  eapply Forall_impl; [apply eachPermission_paths|].
  intros [path msg] Hpath. unfold assigned. rewrite Hps. cbn [fst] in *.
  rewrite Hpath, (bool_decide_eq_true_2 (is_Some (Some ps))) by (by eexists).
  by rewrite !orb_true_r.
Qed.

Lemma grantable_elevated (u : User.t) (permission : string) (header : option string) :
  grantable u → permission ∉ User.permissionEnum →
  requireNewPermission permission (mkRequest header (Some (principal_of u))) = CallNext
  ↔ User.role u = "admin".
Proof.
  intros Hu Hp. unfold requireNewPermission, lacks, principal_of.
  cbn [user Principal.role Principal.permissions].
  destruct (String.eqb_spec (User.role u) "admin") as [Hr|Hr]; [done|].
  rewrite bool_decide_eq_false_2; [done|].
  destruct (User.permissions u) as [ps|] eqn:Hps; simpl.
  - intros Hin. apply Hp. by apply (Hu ps).
  - apply not_elem_of_nil.
Qed.

Lemma grantable_defaults (u : User.t) (ps : list string) (p : string) :
  grantable u → Some (default [] (User.permissions u)) = Some ps → p ∈ ps →
  p ∈ User.permissionEnum.
Proof.
  intros Hu [= <-] Hp. destruct (User.permissions u) as [ps|] eqn:Hps; simpl in Hp.
  - by apply (Hu ps).
  - by apply elem_of_nil in Hp.
Qed.

(** X12. The two elevated permissions cannot be granted through the four
    routes that write one employee, so that the routes they guard stay open
    to administrators only.  When every stored record has its permissions
    among the five of the schema, this is still so after a request to
    create, to update or to delete an employee or to reset a password; and a
    request made as such a record passes the guard of the deletion route or
    of the reset route exactly when the role of the record is [admin]. *)
Theorem elevated_permissions_not_grantable
    (store : list User.t) (req : Request) (id newId : string) (now : Z)
    (tempPassword : string) (body : Body) :
  Forall grantable store →
  Forall grantable (createRoute emailOk bcryptHash store req newId now body).2
  ∧ Forall grantable (updateRoute validId emailOk store req id now body).2
  ∧ Forall grantable (deleteRoute validId MASTER_SECURITY_CODE store req id body).2
  ∧ Forall grantable
      (resetRoute validId bcryptHash MASTER_SECURITY_CODE store req id now tempPassword
         body).2
  ∧ ∀ u header, u ∈ store →
      (requireNewPermission DELETE_USERS (mkRequest header (Some (principal_of u)))
       = CallNext ↔ User.role u = "admin")
      ∧ (requireNewPermission CHANGE_USER_PASSWORDS
           (mkRequest header (Some (principal_of u)))
         = CallNext ↔ User.role u = "admin").
Proof.
  intros Hall. split; [|split; [|split; [|split]]].
  - destruct (createRoute_cases emailOk bcryptHash store req newId now body)
      as [[_ ->] | (caller & name & email & role & pw & department & _ & _ & _ & _ & _ & _
                    & _ & _ & _ & Hvalid & ->)]; [done|].
    apply Forall_app. split; [done|]. constructor; [|constructor].
    intros ps p [= <-] Hp. apply validate_permissions in Hvalid.
    by apply (eachPermission_nil 0 (default [] (b_permissions body))).
  - destruct (updateRoute_cases validId emailOk store req id now body)
      as [[_ ->] | (u & l1 & l2 & _ & -> & -> & _ & _ & _ & _ & _ & Hbad)]; [done|].
    apply Forall_app in Hall as [H1 H2]. apply Forall_cons in H2 as [Hu H2].
    apply Forall_app. split; [done|]. constructor; [|done].
    rewrite stamp_fields. intros ps p. cbn.
    destruct (b_permissions body) as [ps'|] eqn:Hps.
    + intros [= <-] Hp. apply (eachPermission_nil 0 ps'); [|done].
      by apply (update_permissions (Users.hydrate u) body).
    + by apply grantable_defaults.
  - destruct (deleteRoute_cases validId MASTER_SECURITY_CODE store req id body)
      as [[_ ->] | (caller & u & l1 & l2 & _ & _ & _ & _ & -> & -> & _)]; [done|].
    apply Forall_app in Hall as [H1 H2]. apply Forall_cons in H2 as [Hu H2].
    apply Forall_app. by split.
  - destruct (resetRoute_cases validId bcryptHash MASTER_SECURITY_CODE store req id now
                tempPassword body)
      as [[_ ->] | (u & l1 & l2 & _ & -> & -> & _)]; [done|].
    apply Forall_app in Hall as [H1 H2]. apply Forall_cons in H2 as [Hu H2].
    apply Forall_app. split; [done|]. constructor; [|done].
    intros ps p. by apply grantable_defaults.
  - intros u header Hu. rewrite Forall_forall in Hall. specialize (Hall u Hu).
    split; apply grantable_elevated; try done.
    + unfold User.permissionEnum, DELETE_USERS. intros H.
      repeat (apply elem_of_cons in H as [H | H]; [discriminate|]).
      by apply elem_of_nil in H.
    + unfold User.permissionEnum, CHANGE_USER_PASSWORDS. intros H.
      repeat (apply elem_of_cons in H as [H | H]; [discriminate|]).
      by apply elem_of_nil in H.
Qed.

End EmployeePermissions.

Section WindowFacts.

Import Js Mongo.

Context {A : Type}.

Variable oddWindow : option Z → option Z → Try (nat * option nat).
Variable unboundedWindow : Number → Number → Try (nat * option nat).
Variable rounding : Rounding.

Lemma cut_length (offset : nat) (cap : option nat) (l : list A) :
  (length (cut offset cap l) <= length l)%nat.
Proof.
  unfold cut. destruct cap as [n|]; rewrite ?length_take, length_drop; lia.
Qed.

(** Whatever the window is, it returns no more documents than it was
    given. *)
Lemma window_length (s n : option Z) (l found : list A) :
  window oddWindow s n l = Returned found → (length found <= length l)%nat.
Proof.
  unfold window. intros H.
  assert (∀ r, match oddWindow s n with
               | Threw e => Threw e
               | Returned (offset, cap) => Returned (cut offset cap l)
               end = Returned r → (length r <= length l)%nat) as Hodd.
  { intros r. destruct (oddWindow s n) as [[offset cap]|e]; [|done].
    intros [= <-]. apply cut_length. }
  destruct s as [s'|], n as [n'|]; try by apply Hodd.
  destruct ((0 <=? s') && (0 <? n')); [|by apply Hodd].
  injection H as <-. apply (cut_length (Z.to_nat s') (Some (Z.to_nat n'))).
Qed.

Lemma windowOf_length (s n : Number) (l found : list A) :
  windowOf oddWindow unboundedWindow s n l = Returned found →
  (length found <= length l)%nat.
Proof.
  intros H. apply windowOf_cut in H as (offset & cap & ->). apply cut_length.
Qed.

End WindowFacts.

Section EmployeeScope.

Import Js Http Auth Employees.

Variable validId : string → bool.
Variable regexEngine : string → string → bool.
Variable regexError : string → option Exn.
Variable oddWindow : option Z → option Z → Try (nat * option nat).
Variable unboundedWindow : Number → Number → Try (nat * option nat).
Variable rounding : Rounding.
Variable emailOk : string → bool.
Variable bcryptHash : string → string.
Variable MASTER_SECURITY_CODE : option string.

Lemma findById_non_employee (store : list User.t) (id : string) (u : User.t) :
  List.find (Users.has_id id) store = Some u →
  Users.findById validId store id
  = if validId id then Returned (Some (Users.hydrate u))
    else Threw (Mongo.objectIdError id "User").
Proof. unfold Users.findById. by intros ->. Qed.

(** X13. The employee routes do not reach the accounts of other roles.
    When the identifier of the request names a stored account whose role is
    none of the four employee roles, the routes that read, update or delete
    one employee or reset a password never answer with a success status and
    leave the collection as it was; with an identifier that casts, the
    reading route answers 404 as if the account did not exist. *)
Theorem non_employees_out_of_reach
    (store : list User.t) (req : Request) (id : string) (now : Z)
    (tempPassword : string) (body : Body) (u : User.t) :
  List.find (Users.has_id id) store = Some u →
  User.isEmployee u = false →
  let got := getEmployee validId store id in
  let update := updateRoute validId emailOk store req id now body in
  let deletion := deleteRoute validId MASTER_SECURITY_CODE store req id body in
  let reset :=
    resetRoute validId bcryptHash MASTER_SECURITY_CODE store req id now tempPassword
      body in
  status got ≠ 200
  ∧ (validId id = true → got = failure 404 "Employee not found")
  ∧ status update.1 ≠ 200 ∧ update.2 = store
  ∧ status deletion.1 ≠ 200 ∧ deletion.2 = store
  ∧ status reset.1 ≠ 200 ∧ reset.2 = store.
Proof.
  intros Hfind Hemp. simpl.
  assert (User.isEmployee (Users.hydrate u) = false) as Hemp' by exact Hemp.
  unfold getEmployee, updateRoute, updateEmployee, deleteRoute, deleteEmployee,
    resetRoute, resetPassword.
  rewrite (findById_non_employee store id u Hfind).
  split; [|split; [|split; [|split; [|split; [|split; [|split]]]]]].
  - destruct (validId id); [by rewrite Hemp' | done].
  - intros ->. by rewrite Hemp'.
  - destruct (requirePermission "manage_users" req) as [|r] eqn:Hguard.
    + destruct (validId id); [by rewrite Hemp' | done].
    + destruct (requirePermission_refusal_status _ _ _ Hguard) as [H | H];
        simpl; rewrite H; done.
  - destruct (requirePermission "manage_users" req); [|done].
    destruct (validId id); [by rewrite Hemp' | done].
  - destruct (requireNewPermission DELETE_USERS req) as [|r] eqn:Hguard.
    + destruct (wrongCode _ _); [done|].
      destruct (validId id); [by rewrite Hemp' | done].
    + by apply guard_refusal_status in Hguard.
  - destruct (requireNewPermission DELETE_USERS req); [|done].
    destruct (wrongCode _ _); [done|].
    destruct (validId id); [by rewrite Hemp' | done].
  - destruct (requireNewPermission CHANGE_USER_PASSWORDS req) as [|r] eqn:Hguard.
    + destruct (wrongCode _ _); [done|].
      destruct (validId id); [by rewrite Hemp' | done].
    + by apply guard_refusal_status in Hguard.
  - destruct (requireNewPermission CHANGE_USER_PASSWORDS req); [|done].
    destruct (wrongCode _ _); [done|].
    destruct (validId id); [by rewrite Hemp' | done].
Qed.

Lemma matchesFilter_employee (q : ListQuery) (u : User.t) :
  matchesFilter regexEngine q u = true →
  User.isEmployee u = true
  ∧ (given (q_role q) = true → or_else (q_role q) "" ∈ User.employeeRoles →
     User.role u = or_else (q_role q) "")
  ∧ (given (q_status q) = true → User.status_name <$> User.status u = q_status q)
  ∧ (given (q_department q) = true → User.department u = q_department q).
Proof.
  unfold matchesFilter. rewrite !andb_true_iff. intros (((Hrole & _) & Hstatus) & Hdep).
  split; [|split; [|split]].
  - destruct (given (q_role q)); cbn [andb] in Hrole; [|done].
    destruct (bool_decide (or_else (q_role q) "" ∈ User.employeeRoles)) eqn:Hin; [|done].
    apply bool_decide_eq_true in Hin.
    apply String.eqb_eq in Hrole. unfold User.isEmployee.
    apply bool_decide_eq_true. by rewrite Hrole.
  - intros Hg Hin. rewrite Hg in Hrole. cbn [andb] in Hrole.
    rewrite bool_decide_eq_true_2 in Hrole by done. by apply String.eqb_eq.
  - intros Hg. rewrite Hg in Hstatus. by apply bool_decide_eq_true in Hstatus.
  - intros Hg. rewrite Hg in Hdep. by apply bool_decide_eq_true in Hdep.
Qed.

Lemma hydrate_complete (u : User.t) :
  is_Some (User.status u) → is_Some (User.permissions u) →
  Users.hydrate u = Users.deselect u.
Proof. destruct u as [? ? ? ? ? ? ? st ps]. by intros [? [= ->]] [? [= ->]]. Qed.

(** X14. The listing of the employees shows employees only.  Whenever it
    answers with status 200, every record of [data] is a stored record as
    the store hands it out, that is without its password and with the
    defaults of the schema where the record lacks a status or a permissions
    array, so it is the plain copy without password of a record that stores
    both; its role is one of the four employee roles, also when the query
    asks for another role; a role, a status or a department given in the
    query holds of every record shown, the role when it is an employee role;
    and [totalCount] is at least the number of records shown. *)
Theorem list_shows_only_employees (store : list User.t) (q : ListQuery) :
  let answer :=
    listEmployees regexEngine regexError oddWindow unboundedWindow rounding store q in
  status answer = 200 →
  ∃ employees total,
    field "data" (body answer) = Some (VArr (User.toJSON <$> employees))
    ∧ field "totalCount" (body answer) = Some (VNum total)
    ∧ Z.of_nat (length employees) <= total
    ∧ ∀ e, In e employees →
        (∃ u, In u store ∧ e = Users.hydrate u
              ∧ (is_Some (User.status u) → is_Some (User.permissions u) →
                 e = Users.deselect u))
        ∧ User.isEmployee e = true
        ∧ (given (q_role q) = true → or_else (q_role q) "" ∈ User.employeeRoles →
           User.role e = or_else (q_role q) "")
        ∧ (given (q_status q) = true → User.status_name <$> User.status e = q_status q)
        ∧ (given (q_department q) = true → User.department e = q_department q).
Proof.
  simpl. unfold listEmployees.
  destruct (if given (q_search q) then _ else _); [done|].
  set (found := List.filter (matchesFilter regexEngine q) (Users.deselect <$> store)).
  destruct (Mongo.windowOf _ _ _ _ _) as [employees|e] eqn:Hwin; [|done].
  intros _. exists (User.applyDefaults <$> employees), (Z.of_nat (length found)).
  split; [done|]. split; [done|]. split.
  - apply windowOf_length in Hwin as Hlen.
    rewrite sort_by_length in Hlen. rewrite length_fmap. lia.
  - intros e He. apply in_map_iff in He as (r & <- & Hr).
    eapply windowOf_In in Hwin; [|exact Hr].
    apply sort_by_In in Hwin. apply filter_In in Hwin as [Hin Hmatch].
    apply in_map_iff in Hin as (u & <- & Hu). split.
    { exists u. split; [done|]. split; [done|]. apply hydrate_complete. }
    destruct (matchesFilter_employee q _ Hmatch) as (Hemp & Hrole & Hstatus & Hdep).
    split; [exact Hemp|]. split; [exact Hrole|]. split; [|exact Hdep].
    intros Hg. specialize (Hstatus Hg). cbn [User.status User.applyDefaults] in *.
    destruct (User.status (Users.deselect u)) as [st|]; [done|].
    destruct (given_Some _ Hg) as (x & Hx & _). rewrite Hx in Hstatus. done.
Qed.

End EmployeeScope.

Section EmployeeMutationExamples.

Import Js Http Auth Employees.

Lemma delete_keeps_an_admin_witness :
  1 <= Users.countRole
         (deleteRoute any_id (Some "s3cret") [ada; grace; sam] (as_caller ada) "a2"
            (with_code "s3cret")).2 "admin".
Proof.
  apply (delete_keeps_an_admin any_id (Some "s3cret") [ada; grace; sam] (as_caller ada)
           "a2" (with_code "s3cret")).
  vm_compute. discriminate.
Defined.

Lemma delete_removes_only_target_witness :
  ∃ caller u l1 l2,
    user (as_caller ada) = Some caller
    ∧ [ada; grace; sam] = (l1 ++ u :: l2)%list
    ∧ (deleteRoute any_id (Some "s3cret") [ada; grace; sam] (as_caller ada) "a2"
         (with_code "s3cret")).2 = (l1 ++ l2)%list
    ∧ User._id u = "a2" ∧ Forall (λ v, User._id v ≠ "a2") l1
    ∧ User.isEmployee u = true ∧ User._id u ≠ Principal.id caller.
Proof.
  apply (proj1 (delete_removes_only_target any_id (Some "s3cret") [ada; grace; sam]
                  (as_caller ada) "a2" (with_code "s3cret"))).
  reflexivity.
Defined.

Lemma wrong_master_code_changes_nothing_witness :
  (deleteRoute any_id (Some "s3cret") [ada; sam] (as_caller ada) "s1"
     (with_code "guess")).2 = [ada; sam]
  ∧ (resetRoute any_id toy_hash (Some "s3cret") [ada; sam] (as_caller ada) "s1" 9
       "temporary1" (with_code "guess")).2 = [ada; sam]
  ∧ (deleteRoute any_id (Some "s3cret") [ada; sam] (as_caller ada) "s1"
       (with_code "guess")).1
    = failure 403 "Invalid master security code. Access denied.".
Proof.
  assert (b_masterCode (with_code "guess") ≠ Some "s3cret") as Hcode by discriminate.
  destruct (proj1 (wrong_master_code_changes_nothing any_id toy_hash (Some "s3cret")
                     [ada; sam] (as_caller ada) "s1" 9 "temporary1" (with_code "guess"))
              Hcode)
    as (Hd & Hr & Hdenied & _).
  split; [exact Hd|]. split; [exact Hr|]. apply Hdenied. reflexivity.
Defined.

Lemma reset_rewrites_only_target_witness :
  ∃ u l1 l2,
    [ada; sam] = (l1 ++ u :: l2)%list
    ∧ (resetRoute any_id toy_hash (Some "s3cret") [ada; sam] (as_caller ada) "s1" 9
         "temporary1" (with_code "s3cret")).2
      = (l1 ++ User.mk (User._id u) (User.name u) (User.email u) (User.role u)
                 (Some (toy_hash "temporary1")) (User.phone u) (User.department u)
                 (Some (default User.Active (User.status u)))
                 (Some (default [] (User.permissions u)))
                 (User.isEmailVerified u) true
                 (User.createdBy u) (User.createdAt u) 9
            :: l2)%list
    ∧ User._id u = "s1" ∧ Forall (λ v, User._id v ≠ "s1") l1
    ∧ User.isEmployee u = true
    ∧ field "temporaryPassword"
        (body (resetRoute any_id toy_hash (Some "s3cret") [ada; sam] (as_caller ada)
                 "s1" 9 "temporary1" (with_code "s3cret")).1)
      = Some (VStr "temporary1")
    ∧ (6 <= String.length "temporary1")%nat.
Proof.
  apply (proj1 (reset_rewrites_only_target any_id toy_hash (Some "s3cret") [ada; sam]
                  (as_caller ada) "s1" 9 "temporary1" (with_code "s3cret"))).
  reflexivity.
Defined.

Lemma create_appends_one_record_witness :
  ∃ caller pw e,
    user (as_caller ada) = Some caller ∧ b_password hire = Some pw
    ∧ (createRoute any_email toy_hash [ada; sam] (as_caller ada) "n1" 9 hire).2
      = ([ada; sam] ++ [e])%list
    ∧ User._id e = "n1"
    ∧ b_role hire = Some (User.role e) ∧ User.role e ∈ User.employeeRoles
    ∧ b_email hire = Some (User.email e)
    ∧ (User.email e ∉ (User.email <$> [ada; sam]))
    ∧ User.password e = Some (toy_hash pw)
    ∧ User.createdBy e = Some (Principal.id caller)
    ∧ User.createdAt e = 9 ∧ User.updatedAt e = 9
    ∧ User.mustChangePassword e = false.
Proof.
  apply (proj1 (create_appends_one_record any_email toy_hash [ada; sam] (as_caller ada)
                  "n1" 9 hire)).
  reflexivity.
Defined.

Lemma update_rewrites_only_given_paths_witness :
  (updateRoute any_id any_email [ada; sam] (as_caller ada) "s1" 9 rename).2
  = [ada;
     User.mk "s1" "Samuel" "sam@example.org" "staff" (Some "$2a$10$other") None
       (Some "Desk") (Some User.Active) (Some []) true false (Some "a1") 5 9].
Proof.
  destruct (proj1 (update_rewrites_only_given_paths any_id any_email [ada; sam]
                     (as_caller ada) "s1" 9 rename) eq_refl)
    as (u & u' & l1 & l2 & _).
  reflexivity.
Defined.

(** An update without any field writes the defaults that the stored record
    lacks, and leaves [updatedAt] as it was; a reset does the same and
    stamps the record. *)
Example empty_update_writes_defaults :
  (updateRoute any_id any_email [ada; lee] (as_caller ada) "l1" 9 no_change).2
  = [ada;
     User.mk "l1" "Lee" "lee@example.org" "manager" (Some "$2a$10$fifth") None
       (Some "Desk") (Some User.Active) (Some []) true false None 3 3].
Proof. vm_compute. reflexivity. Qed.

Example reset_writes_defaults :
  (resetRoute any_id toy_hash (Some "s3cret") [ada; lee] (as_caller ada) "l1" 9
     "temporary1" (with_code "s3cret")).2
  = [ada;
     User.mk "l1" "Lee" "lee@example.org" "manager" (Some "$2a$10$temporary1") None
       (Some "Desk") (Some User.Active) (Some []) true true None 3 9].
Proof. vm_compute. reflexivity. Qed.

Lemma emails_stay_unique_witness :
  NoDup (User.email
         <$> (createRoute any_email toy_hash [ada; sam] (as_caller ada) "n1" 9 hire).2).
Proof.
  apply (emails_stay_unique any_id any_email toy_hash (Some "s3cret") [ada; sam]
           (as_caller ada) "s1" "n1" 9 "temporary1" hire).
  apply (bool_decide_unpack _). vm_compute. exact I.
Defined.

Lemma elevated_permissions_not_grantable_witness :
  requireNewPermission DELETE_USERS (mkRequest None (Some (principal_of sam))) = CallNext
  ↔ User.role sam = "admin".
Proof.
  assert (Forall grantable [grace; sam]) as Hall.
  { apply Forall_cons_2; [|apply Forall_cons_2; [|apply Forall_nil_2]];
      intros ps p [= <-] Hp; by apply elem_of_nil in Hp. }
  destruct (elevated_permissions_not_grantable any_id any_email toy_hash (Some "s3cret")
              [grace; sam] (as_caller grace) "s1" "n1" 9 "temporary1" hire Hall)
    as (_ & _ & _ & _ & Hguard).
  apply (Hguard sam None). right. left.
Defined.

Lemma non_employees_out_of_reach_witness :
  getEmployee any_id [ada; pat] "u1" = failure 404 "Employee not found"
  ∧ (deleteRoute any_id (Some "s3cret") [ada; pat] (as_caller ada) "u1"
       (with_code "s3cret")).2 = [ada; pat].
Proof.
  destruct (non_employees_out_of_reach any_id any_email toy_hash (Some "s3cret")
              [ada; pat] (as_caller ada) "u1" 9 "temporary1" (with_code "s3cret") pat
              eq_refl eq_refl)
    as (_ & Hget & _ & _ & _ & Hdel & _).
  split; [by apply Hget | exact Hdel].
Defined.

Lemma list_shows_only_employees_witness :
  ∃ employees total,
    field "data" (body (listEmployees no_engine no_regex_error refuse_window
                          refuse_unbounded nearest [ada; pat; sam] list_all))
    = Some (VArr (User.toJSON <$> employees))
    ∧ field "totalCount" (body (listEmployees no_engine no_regex_error refuse_window
                                  refuse_unbounded nearest [ada; pat; sam] list_all))
      = Some (VNum total)
    ∧ Z.of_nat (length employees) <= total
    ∧ ∀ e, In e employees →
        (∃ u, In u [ada; pat; sam] ∧ e = Users.hydrate u
              ∧ (is_Some (User.status u) → is_Some (User.permissions u) →
                 e = Users.deselect u))
        ∧ User.isEmployee e = true
        ∧ (given (q_role list_all) = true →
           or_else (q_role list_all) "" ∈ User.employeeRoles →
           User.role e = or_else (q_role list_all) "")
        ∧ (given (q_status list_all) = true →
           User.status_name <$> User.status e = q_status list_all)
        ∧ (given (q_department list_all) = true →
           User.department e = q_department list_all).
Proof.
  apply (list_shows_only_employees no_engine no_regex_error refuse_window
           refuse_unbounded nearest [ada; pat; sam] list_all).
  reflexivity.
Defined.

End EmployeeMutationExamples.

(** ** Strings: [trim] *)

Section TrimFacts.

Import Js.

Lemma trimStart_length (s : string) :
  (String.length (trimStart s) <= String.length s)%nat.
Proof.
  induction s as [|c s IH]; simpl; [lia|]. destruct (is_space c); simpl; lia.
Qed.

Lemma trimStart_idemp (s : string) : trimStart (trimStart s) = trimStart s.
Proof.
  induction s as [|c s IH]; simpl; [done|].
  destruct (is_space c) eqn:Hc; [done|]. simpl. by rewrite Hc.
Qed.

Lemma trimEnd_idemp (s : string) : trimEnd (trimEnd s) = trimEnd s.
Proof.
  induction s as [|c s IH]; [done|].
  cbn [trimEnd]. destruct (trimEnd s) as [|d r] eqn:Hs.
  - destruct (is_space c) eqn:Hc; [done|]. cbn [trimEnd]. by rewrite Hc.
  - cbn [trimEnd]. cbn [trimEnd] in IH. by rewrite IH.
Qed.

Lemma trimStart_trimEnd (t : string) :
  trimStart t = t → trimStart (trimEnd t) = trimEnd t.
Proof.
  destruct t as [|c rest]; [done|]. intros Ht.
  assert (is_space c = false) as Hc.
  { destruct (is_space c) eqn:Hc; [|done]. simpl in Ht. rewrite Hc in Ht.
    pose proof (trimStart_length rest) as Hlen. rewrite Ht in Hlen. simpl in Hlen. lia. }
  cbn [trimEnd]. destruct (trimEnd rest); [rewrite Hc|]; simpl; by rewrite Hc.
Qed.

(** Trimming twice is trimming once. *)
Lemma trim_idemp (s : string) : trim (trim s) = trim s.
Proof.
  unfold trim. rewrite (trimStart_trimEnd (trimStart s)) by apply trimStart_idemp.
  apply trimEnd_idemp.
Qed.

End TrimFacts.

(** ** Event routes: what an update writes *)

Section EventUpdateFrame.

Import Js Http Auth Events.

Variable isUrl : string → bool.
Variable validId : string → bool.
Variable toLocaleDateString : Z → string.
Variable parseDate : string → option Z.

Lemma applyUpdate_app (l1 l2 : list (string * Value)) (e : Event.t) :
  Event.applyUpdate (l1 ++ l2) e
  = match Event.applyUpdate l1 e with
    | Returned e' => Event.applyUpdate l2 e'
    | Threw x => Threw x
    end.
Proof.
  revert e. induction l1 as [|[key v] l1 IH]; intros e; simpl; [done|].
  destruct (Event.castSet key v e) as [[e'|x]|]; by rewrite ?IH.
Qed.













(** The paths of a record, read off its constructor. *)
Local Ltac fields :=
  cbn [Event._id Event.title Event.description Event.date Event.time Event.location
       Event.type Event.status Event.isFeatured Event.registeredAttendees
       Event.imageUrl Event.registrationUrl Event.organizer Event.createdAt
       Event.updatedAt Event.set_date].



Lemma requireEmployee_refusal_status (req : Request) (r : Response) :
  requireEmployee req = Respond r → status r = 401 ∨ status r = 403.
Proof.
  unfold requireEmployee. destruct (user req); [|intros [= <-]; by left].
  destruct (negb _); [intros [= <-]; by right | done].
Qed.



Lemma check_nil (bad : bool) (path msg : string) :
  Event.check bad path msg = [] → bad = false.
Proof. by destruct bad. Qed.



Lemma validatePath_registeredAttendees (e : Event.t) :
  Event.validatePath isUrl "registeredAttendees" e = [] →
  0 <= Event.registeredAttendees e.
Proof.
  change (Event.validatePath isUrl "registeredAttendees" e)
    with (Event.check (Event.registeredAttendees e <? 0) "registeredAttendees"
            "Registered attendees cannot be negative").
  intros H. apply check_nil in H. by apply Z.ltb_ge.
Qed.



End EventUpdateFrame.

(** ** Event routes: creation, reading and deletion *)

Section EventCreation.

Import Js Http Auth Events.

Variable isUrl : string → bool.
Variable validId : string → bool.
Variable toLocaleDateString : Z → string.
Variable parseDate : string → option Z.
Variable castMessage : string → Value → string.
Variable reported : list (string * string) → list (string * string).

(** The document that [new Event] makes of the object of the route, and the
    values that did not cast. *)
Lemma construct_eventData (body : Body) (caller : Principal.t) (newId : string)
    (now : Z) :
  Event.construct validId castMessage (eventData parseDate body caller)
    (Event.blank newId now)
  = (Event.mk newId (trim (text (b_title body))) (trim (text (b_description body)))
       (default 0 (parseDate (text (b_date body)))) (trim (text (b_time body)))
       (trim (text (b_location body))) (text (b_type body))
       (if absent (b_status body) then "upcoming" else text (b_status body))
       (default false (b_isFeatured body)) (default 0 (b_registeredAttendees body))
       (trim (or_empty (text (b_imageUrl body))))
       (trim (or_empty (text (b_registrationUrl body))))
       (if validId (Principal.id caller) then Principal.id caller else "") now now,
     (match parseDate (text (b_date body)) with
      | Some _ => []
      | None => [("date", castMessage "date" (VStr "Invalid Date"))]
      end
      ++ if validId (Principal.id caller) then []
         else [("organizer", castMessage "organizer" (VStr (Principal.id caller)))])%list).
Proof.
  unfold eventData, newDate.
  destruct (parseDate (text (b_date body))) as [ms|];
    destruct (validId (Principal.id caller)) eqn:Hvalid;
    cbn; rewrite ?Hvalid; cbn; rewrite ?trim_idemp; reflexivity.
Qed.

Lemma retrim_trim (x : string) : Event.retrim (trim x) = trim x.
Proof. unfold Event.retrim. destruct (truthy (trim x)); by rewrite ?trim_idemp. Qed.

Lemma concat_fmap_nil {A B : Type} (f : A → list B) (l : list A) (k : A) :
  concat (f <$> l) = [] → k ∈ l → f k = [].
Proof.
  induction l as [|x l IH]; intros H Hk; [by apply elem_of_nil in Hk|].
  cbn in H. apply app_eq_nil in H as [Hx Hl].
  apply elem_of_cons in Hk as [-> | Hk]; [done | by apply IH].
Qed.


Lemma no_such_id (store : list Event.t) (id : string) :
  existsb (Event.has_id id) store = false → Forall (λ v, Event._id v ≠ id) store.
Proof.
  induction store as [|x store IH]; simpl; [constructor|].
  rewrite orb_false_iff. intros [Hx Hrest]. constructor; [|by apply IH].
  by apply String.eqb_neq.
Qed.

Lemma rescueCreate_status (x : Exn) : status (rescueCreate x) ≠ 201.
Proof.
  destruct x as [kind msg|model errors|name code msg|msg|code msg]; simpl; try done.
  by destruct (code =? 11000).
Qed.

Lemma date_key (body : Body) (caller : Principal.t) :
  bool_decide ("date" ∈ fst <$> eventData parseDate body caller) = true.
Proof. apply bool_decide_eq_true_2. unfold eventData. cbn. do 2 right. left. Qed.

(** The two ways in which the creation route ends. *)
Lemma event_createRoute_cases (store : list Event.t) (req : Request)
    (newId : string) (now : Z) (body : Body) :
  let result :=
    createRoute isUrl validId toLocaleDateString parseDate castMessage reported store
      req newId now body in
  (status result.1 ≠ 201 ∧ result.2 = store)
  ∨ (∃ caller ms,
       let e :=
         Event.mk newId (trim (text (b_title body))) (trim (text (b_description body)))
           ms (trim (text (b_time body))) (trim (text (b_location body)))
           (text (b_type body))
           (if absent (b_status body) then "upcoming" else text (b_status body))
           (default false (b_isFeatured body)) (default 0 (b_registeredAttendees body))
           (trim (or_empty (text (b_imageUrl body))))
           (trim (or_empty (text (b_registrationUrl body))))
           (Principal.id caller) now now in
       user req = Some caller
       ∧ parseDate (text (b_date body)) = Some ms
       ∧ Forall (λ v, Event._id v ≠ newId) store
       ∧ concat ((λ key, Event.validatePath isUrl key e) <$> Event.schemaPaths) = []
       ∧ result
         = (json 201
              (VObj [("success", VBool true);
                     ("message", VStr "Event created successfully");
                     ("data", Event.toJSON toLocaleDateString e)]),
            (store ++ [e])%list)).
Proof.
  unfold createRoute, createEvent.
  destruct (requireEmployee req) as [|r] eqn:Hguard.
  2:{ left. simpl. split; [|done].
      destruct (requireEmployee_refusal_status _ _ Hguard) as [-> | ->]; done. }
  destruct (user req) as [caller|] eqn:Hcaller; [|by left].
  match goal with
  | |- context [if ?c then (failure 400 _, store) else _] => destruct c; [by left|]
  end.
  unfold Event.create. rewrite construct_eventData, date_key.
  destruct (parseDate (text (b_date body))) as [ms|] eqn:Hparse;
    [|left; by cbn [app fst snd status rescueCreate failure json]].
  destruct (validId (Principal.id caller)) eqn:Hvalid;
    [|left; by cbn [app fst snd status rescueCreate failure json]].
  cbn [app fmap list_fmap negb Event.check].
  change (List.filter (λ key : string, negb (bool_decide (key ∈ []))) Event.schemaPaths)
    with Event.schemaPaths.
  cbn [default from_option id].
  destruct (concat _) as [|err errors] eqn:Hval; [|by left].
  destruct (existsb (Event.has_id newId) store) eqn:Hfresh; [by left|].
  right. exists caller, ms. cbn zeta.
  assert (0 <= default 0 (b_registeredAttendees body)) as Hnum.
  { apply (validatePath_registeredAttendees isUrl) with
      (e := Event.mk newId (trim (text (b_title body))) (trim (text (b_description body)))
              ms (trim (text (b_time body))) (trim (text (b_location body)))
              (text (b_type body))
              (if absent (b_status body) then "upcoming" else text (b_status body))
              (default false (b_isFeatured body)) (default 0 (b_registeredAttendees body))
              (trim (or_empty (text (b_imageUrl body))))
              (trim (or_empty (text (b_registrationUrl body))))
              (Principal.id caller) now now).
    apply (concat_fmap_nil _ _ _ Hval). unfold Event.schemaPaths. do 6 right. left. }
  assert (Event.preSave
            (Event.mk newId (trim (text (b_title body))) (trim (text (b_description body)))
               ms (trim (text (b_time body))) (trim (text (b_location body)))
               (text (b_type body))
               (if absent (b_status body) then "upcoming" else text (b_status body))
               (default false (b_isFeatured body)) (default 0 (b_registeredAttendees body))
               (trim (or_empty (text (b_imageUrl body))))
               (trim (or_empty (text (b_registrationUrl body))))
               (Principal.id caller) now now)
          = Event.mk newId (trim (text (b_title body))) (trim (text (b_description body)))
              ms (trim (text (b_time body))) (trim (text (b_location body)))
              (text (b_type body))
              (if absent (b_status body) then "upcoming" else text (b_status body))
              (default false (b_isFeatured body)) (default 0 (b_registeredAttendees body))
              (trim (or_empty (text (b_imageUrl body))))
              (trim (or_empty (text (b_registrationUrl body))))
              (Principal.id caller) now now) as Hsave.
  { unfold Event.preSave.
    cbn [Event._id Event.title Event.description Event.date Event.time Event.location
         Event.type Event.status Event.isFeatured Event.registeredAttendees
         Event.imageUrl Event.registrationUrl Event.organizer Event.createdAt
         Event.updatedAt].
    rewrite !retrim_trim.
    destruct (Z.ltb_spec (default 0 (b_registeredAttendees body)) 0); [lia | done]. }
  rewrite Hsave. split; [done|]. split; [done|]. split; [by apply no_such_id|].
  split; [exact Hval | reflexivity].
Qed.


Lemma find_app_fresh (store : list Event.t) (e : Event.t) (j : string) :
  Forall (λ v, Event._id v ≠ Event._id e) store →
  List.find (Event.has_id j) (store ++ [e])
  = if String.eqb (Event._id e) j then Some e else List.find (Event.has_id j) store.
Proof.
  intros Hfresh. induction Hfresh as [|x store Hx _ IH]; simpl.
  - unfold Event.has_id. by destruct (String.eqb (Event._id e) j).
  - unfold Event.has_id at 1 3. destruct (String.eqb_spec (Event._id x) j) as [Hj|Hj].
    + subst j. apply String.eqb_neq in Hx. rewrite String.eqb_sym in Hx.
      by rewrite Hx.
    + exact IH.
Qed.

(** X17. An event that the creation route stored can be read back.  After a
    creation that ends with status 201, reading the identifier of the new
    event returns with status 200 the very data that the creation returned,
    provided the identifier casts; reading any other identifier gives what
    it gave before. *)
Theorem event_create_then_get (store : list Event.t) (req : Request)
    (newId : string) (now : Z) (body : Body) :
  let result :=
    createRoute isUrl validId toLocaleDateString parseDate castMessage reported store
      req newId now body in
  status result.1 = 201 →
  (validId newId = true →
   status (getEvent validId toLocaleDateString result.2 newId) = 200
   ∧ field "data" (Http.body (getEvent validId toLocaleDateString result.2 newId))
     = field "data" (Http.body result.1))
  ∧ ∀ j, j ≠ newId →
      getEvent validId toLocaleDateString result.2 j
      = getEvent validId toLocaleDateString store j.
Proof.
  intros result. subst result.
  destruct (event_createRoute_cases store req newId now body)
    as [[Hs Hstore] | (caller & ms & Hc & Hparse & Hfresh & Hval & Hres)];
    [intros H; contradiction|].
  rewrite Hres. intros _. cbn [fst snd]. unfold getEvent, Event.findById.
  split.
  - intros ->. rewrite find_app_fresh by exact Hfresh.
    cbn [Event._id]. by rewrite String.eqb_refl.
  - intros j Hj. destruct (validId j); [|done].
    rewrite find_app_fresh by exact Hfresh. cbn [Event._id].
    apply not_eq_sym, String.eqb_neq in Hj. by rewrite Hj.
Qed.

End EventCreation.

Section EventDeletion.

Import Js Http Auth Events.

Variable validId : string → bool.
Variable toLocaleDateString : Z → string.

Lemma event_delete_split (l1 l2 : list Event.t) (e : Event.t) (id : string) :
  Event.has_id id e = true → Forall (λ v, Event.has_id id v = false) l1 →
  Event.findByIdAndDelete (l1 ++ e :: l2) id = (l1 ++ l2)%list.
Proof.
  intros He Hl1. induction Hl1 as [|x l1 Hx _ IH]; simpl.
  - by rewrite He.
  - by rewrite Hx, IH.
Qed.

Lemma find_without (l1 l2 : list Event.t) (e : Event.t) (j : string) :
  Event.has_id j e = false →
  List.find (Event.has_id j) (l1 ++ e :: l2) = List.find (Event.has_id j) (l1 ++ l2).
Proof.
  intros He. induction l1 as [|x l1 IH]; simpl.
  - by rewrite He.
  - by rewrite IH.
Qed.

Lemma find_absent (l : list Event.t) (id : string) :
  id ∉ (Event._id <$> l) → List.find (Event.has_id id) l = None.
Proof.
  induction l as [|x l IH]; simpl; [done|].
  rewrite not_elem_of_cons. intros [Hx Hl]. unfold Event.has_id at 1.
  apply not_eq_sym, String.eqb_neq in Hx. rewrite Hx. by apply IH.
Qed.

(** The two ways in which the deletion route of the events ends. *)
Lemma event_deleteRoute_cases (store : list Event.t) (req : Request) (id : string) :
  let result := deleteRoute validId store req id in
  (status result.1 ≠ 200 ∧ result.2 = store)
  ∨ (∃ e l1 l2,
       status result.1 = 200
       ∧ validId id = true
       ∧ store = (l1 ++ e :: l2)%list ∧ result.2 = (l1 ++ l2)%list
       ∧ Event._id e = id ∧ Forall (λ v, Event._id v ≠ id) l1).
Proof.
  unfold deleteRoute, deleteEvent.
  destruct (requireEmployee req) as [|r] eqn:Hguard.
  2:{ left. simpl. split; [|done].
      destruct (requireEmployee_refusal_status _ _ Hguard) as [-> | ->]; done. }
  destruct (user req) as [caller|]; [|by left].
  unfold Event.findById. destruct (validId id) eqn:Hvalid; [|by left].
  destruct (List.find (Event.has_id id) store) as [e|] eqn:Hfind; [|by left].
  right. destruct (find_split _ _ _ Hfind) as (l1 & l2 & -> & Hid & Hl1).
  exists e, l1, l2. split; [done|]. split; [done|]. split; [done|]. split.
  { simpl. by apply event_delete_split. }
  split; [by apply String.eqb_eq|].
  eapply Forall_impl; [exact Hl1|]. intros v Hv. simpl in Hv. by apply String.eqb_neq.
Qed.

(** X18. A request to the deletion route of the events either changes
    nothing or removes one event, after which the event is gone for the
    reading route.  In a collection whose identifiers are pairwise distinct,
    when the answer has status 200 the event with the identifier of the
    request is removed and the others stay in place, reading that
    identifier afterwards gives 404, and reading any other identifier gives
    what it gave before.  With any other status the collection is unchanged;
    and an employee who names an identifier that does not cast is answered
    404, as for an event that does not exist. *)
Theorem event_delete_then_get (store : list Event.t) (req : Request) (id : string) :
  NoDup (Event._id <$> store) →
  let result := deleteRoute validId store req id in
  (status result.1 = 200 →
   (∃ e l1 l2,
      store = (l1 ++ e :: l2)%list ∧ result.2 = (l1 ++ l2)%list ∧ Event._id e = id)
   ∧ getEvent validId toLocaleDateString result.2 id = failure 404 "Event not found"
   ∧ ∀ j, j ≠ id →
       getEvent validId toLocaleDateString result.2 j
       = getEvent validId toLocaleDateString store j)
  ∧ (status result.1 ≠ 200 → result.2 = store)
  ∧ (validId id = false → requireEmployee req = CallNext →
     result.1 = failure 404 "Event not found").
Proof.
  intros Hnd result. subst result. split; [|split].
  - destruct (event_deleteRoute_cases store req id)
      as [[Hs Hstore] | (e & l1 & l2 & Hs & Hvalid & Hst & Hres & Hid & Hl1)];
      [intros H; contradiction|].
    intros _. rewrite Hres. split; [by exists e, l1, l2|].
    unfold getEvent, Event.findById. split.
    + rewrite Hvalid, find_absent; [done|].
      rewrite Hst, fmap_app, fmap_cons, Hid in Hnd.
      apply NoDup_app in Hnd as (_ & H12 & H2). apply NoDup_cons in H2 as [Hx _].
      rewrite fmap_app. intros Hin. apply elem_of_app in Hin as [Hin | Hin].
      * apply (H12 id Hin). left.
      * contradiction.
    + intros j Hj. destruct (validId j); [|done]. rewrite Hst.
      rewrite find_without; [done|]. unfold Event.has_id. apply String.eqb_neq.
      by rewrite Hid.
  - destruct (event_deleteRoute_cases store req id)
      as [[Hs Hstore] | (e & l1 & l2 & Hs & _)]; [done | intros H; contradiction].
  - intros Hvalid Hguard. unfold deleteRoute, deleteEvent. rewrite Hguard.
    apply requireEmployee_next in Hguard as (p & -> & _).
    unfold Event.findById. by rewrite Hvalid.
Qed.

End EventDeletion.

Section EventMutationExamples.

Import Js Http Auth Events.



Lemma event_create_then_get_witness :
  status (getEvent any_id plain_date
            (createRoute any_url any_id plain_date one_date cast_message as_found
               [last_week; next_week] (as_caller sam) "e3" 2000 workshop).2 "e3")
  = 200.
Proof.
  apply (event_create_then_get any_url any_id plain_date one_date cast_message as_found
           [last_week; next_week] (as_caller sam) "e3" 2000 workshop);
    reflexivity.
Defined.

Lemma event_delete_then_get_witness :
  getEvent any_id plain_date
    (deleteRoute any_id [last_week; next_week] (as_caller sam) "e1").2 "e1"
  = failure 404 "Event not found".
Proof.
  assert (NoDup (Event._id <$> [last_week; next_week])) as Hnd.
  { apply (bool_decide_unpack _). vm_compute. exact I. }
  apply (proj1 (event_delete_then_get any_id plain_date [last_week; next_week]
                  (as_caller sam) "e1" Hnd)).
  reflexivity.
Defined.

End EventMutationExamples.

(** ** Sorting *)

Section SortFacts.

Import Js Mongo.

Context {A : Type}.

Variable le : A → A → bool.

Lemma ordered_cons (x : A) (l : list A) :
  ordered le (x :: l) ↔ (∀ y, y ∈ l → le x y = true) ∧ ordered le l.
Proof.
  unfold ordered. split.
  - intros H. split.
    + intros y Hy. apply list_elem_of_lookup in Hy as [k Hk].
      apply (H 0%nat (S k)); [lia | done | done].
    + intros i j a b Hij Ha Hb. apply (H (S i) (S j)); [lia | done | done].
  - intros [Hx Hl] i j a b Hij Ha Hb. destruct j as [|j]; [lia|].
    destruct i as [|i].
    + injection Ha as <-. apply Hx. by eapply list_elem_of_lookup_2.
    + apply (Hl i j); [lia | done | done].
Qed.

Lemma ordered_nil : ordered le [].
Proof. intros i j a b _ Ha. by rewrite lookup_nil in Ha. Qed.

Hypothesis le_total : ∀ a b, le a b = true ∨ le b a = true.
Hypothesis le_trans : ∀ a b c, le a b = true → le b c = true → le a c = true.

Lemma insert_by_ordered (x : A) (l : list A) :
  ordered le l → ordered le (insert_by le x l).
Proof.
  induction l as [|y l IH]; simpl; intros Hl.
  - apply ordered_cons. split; [|apply ordered_nil].
    intros y Hy. by apply elem_of_nil in Hy.
  - apply ordered_cons in Hl as [Hy Hl]. destruct (le x y) eqn:Hxy.
    + apply ordered_cons. split.
      * intros z Hz. apply elem_of_cons in Hz as [-> | Hz]; [done|].
        apply (le_trans x y z); [done | by apply Hy].
      * apply ordered_cons. by split.
    + apply ordered_cons. split; [|by apply IH].
      intros z Hz. apply list_elem_of_In, insert_by_In in Hz as [-> | Hz].
      * destruct (le_total y x) as [H | H]; [done | congruence].
      * apply Hy. by apply list_elem_of_In.
Qed.

(** The sort puts its result in the order of the comparison. *)
Lemma sort_by_ordered (l : list A) : ordered le (sort_by le l).
Proof.
  unfold sort_by. induction l as [|x l IH]; simpl; [apply ordered_nil|].
  by apply insert_by_ordered.
Qed.

(** The first of the sorted documents may come before every document. *)
Lemma sort_by_head (l : list A) (x : A) :
  head (sort_by le l) = Some x → In x l ∧ ∀ y, In y l → le x y = true.
Proof.
  intros Hhead. pose proof (sort_by_ordered l) as Hord.
  destruct (sort_by le l) as [|x' rest] eqn:Hsort; [done|].
  injection Hhead as ->. apply ordered_cons in Hord as [Hx _].
  assert (∀ y, In y l ↔ y = x ∨ y ∈ rest) as Hin.
  { intros y. rewrite <- (sort_by_In le y l), Hsort. simpl.
    rewrite list_elem_of_In. intuition. }
  split; [apply Hin; by left|].
  intros y Hy. apply Hin in Hy as [-> | Hy]; [|by apply Hx].
  by destruct (le_total x x).
Qed.

End SortFacts.

Section WindowOrder.

Import Js Mongo.

Context {A : Type}.

Variable le : A → A → bool.
Variable oddWindow : option Z → option Z → Try (nat * option nat).
Variable unboundedWindow : Number → Number → Try (nat * option nat).
Variable rounding : Rounding.

Lemma ordered_cut (offset : nat) (cap : option nat) (l : list A) :
  ordered le l → ordered le (cut offset cap l).
Proof.
  unfold ordered, cut. intros Hl i j a b Hij Ha Hb. destruct cap as [n|].
  - apply lookup_take_Some in Ha as [Ha _]. apply lookup_take_Some in Hb as [Hb _].
    rewrite lookup_drop in Ha, Hb.
    apply (Hl (offset + i)%nat (offset + j)%nat); [lia | done | done].
  - rewrite lookup_drop in Ha, Hb.
    apply (Hl (offset + i)%nat (offset + j)%nat); [lia | done | done].
Qed.

(** Whatever the window is, it keeps the order of the documents. *)
Lemma window_ordered (s n : option Z) (l found : list A) :
  window oddWindow s n l = Returned found → ordered le l → ordered le found.
Proof.
  unfold window. intros H Hl.
  assert (∀ r, match oddWindow s n with
               | Threw e => Threw e
               | Returned (offset, cap) => Returned (cut offset cap l)
               end = Returned r → ordered le r) as Hodd.
  { intros r. destruct (oddWindow s n) as [[offset cap]|e]; [|done].
    intros [= <-]. by apply ordered_cut. }
  destruct s as [s'|], n as [n'|]; try by apply Hodd.
  destruct ((0 <=? s') && (0 <? n')); [|by apply Hodd].
  injection H as <-. by apply (ordered_cut (Z.to_nat s') (Some (Z.to_nat n'))).
Qed.

Lemma windowOf_ordered (s n : Number) (l found : list A) :
  windowOf oddWindow unboundedWindow s n l = Returned found →
  ordered le l → ordered le found.
Proof.
  intros H Hl. apply windowOf_cut in H as (offset & cap & ->). by apply ordered_cut.
Qed.

End WindowOrder.

(** ** Public events: order of the listings and the current event *)

Section PublicEventOrder.

Import Js Http Mongo.

Variable regexEngine : string → string → bool.
Variable regexError : string → option Exn.
Variable oddWindow : option Z → option Z → Try (nat * option nat).
Variable unboundedWindow : Number → Number → Try (nat * option nat).
Variable rounding : Rounding.
Variable toLocaleDateString : Z → string.
Variable addDays : Z → Z → Z.
Variable monthDate : Z → Z → Z → Z.
Variable validId : string → bool.

Lemma featuredThenDate_total (a b : Event.t) :
  PublicEvents.featuredThenDate a b = true ∨ PublicEvents.featuredThenDate b a = true.
Proof.
  unfold PublicEvents.featuredThenDate.
  destruct (Event.isFeatured a), (Event.isFeatured b); simpl; try tauto.
  all: rewrite !Z.leb_le; lia.
Qed.

Lemma featuredThenDate_trans (a b c : Event.t) :
  PublicEvents.featuredThenDate a b = true → PublicEvents.featuredThenDate b c = true →
  PublicEvents.featuredThenDate a c = true.
Proof.
  unfold PublicEvents.featuredThenDate.
  destruct (Event.isFeatured a), (Event.isFeatured b), (Event.isFeatured c); simpl;
    try done.
  all: rewrite !Z.leb_le; lia.
Qed.

Lemma featuredThenDate_spec (found : list Event.t) :
  ordered PublicEvents.featuredThenDate found → featuredThenEarliest found.
Proof.
  intros Hord i j a b Hij Ha Hb. specialize (Hord i j a b Hij Ha Hb).
  unfold PublicEvents.featuredThenDate in Hord.
  destruct (Event.isFeatured a), (Event.isFeatured b); simpl in Hord; try done.
  all: split; [done|]; intros _; by apply Z.leb_le.
Qed.

(** X19. Both public listings of the events return them in a fixed order:
    the featured events first and, among events that are both featured or
    both not, the earliest date first.  This holds for every page and every
    filter of the standard route and for the route optimized for the free
    tier. *)
Theorem public_event_listings_in_order (now : Z) (store : list Event.t)
    (q : PublicEvents.Query) (search : option string) :
  (∀ found,
     PublicEvents.listed regexEngine regexError oddWindow unboundedWindow rounding
       addDays monthDate now store q
     = Returned found →
     featuredThenEarliest found)
  ∧ (∀ found,
       PublicEventsOptimized.listed regexEngine regexError oddWindow store search
       = Returned found →
       featuredThenEarliest found).
Proof.
  split; intros found Hfound; apply featuredThenDate_spec.
  - unfold PublicEvents.listed in Hfound.
    destruct (if PublicEvents.given (PublicEvents.q_search q) then _ else _); [done|].
    destruct (PublicEvents.paging rounding q) as [[page limit] startIndex].
    unfold findPage in Hfound. eapply windowOf_ordered; [exact Hfound|].
    apply sort_by_ordered; [apply featuredThenDate_total | apply featuredThenDate_trans].
  - unfold PublicEventsOptimized.listed in Hfound.
    destruct (PublicEventsOptimized.searchTerm search ≫= badPattern regexError); [done|].
    unfold find in Hfound. eapply window_ordered; [exact Hfound|].
    apply sort_by_ordered; [apply featuredThenDate_total | apply featuredThenDate_trans].
Qed.

Lemma matchesQuery_iff (q : gmap string Clause) (doc : Value) :
  matchesQuery regexEngine q doc = true
  ↔ ∀ key cl, q !! key = Some cl → satisfies regexEngine doc key cl = true.
Proof.
  unfold matchesQuery. rewrite forallb_forall. split.
  - intros H key cl Hkey. apply (H (key, cl)).
    apply list_elem_of_In. by apply elem_of_map_to_list.
  - intros H [key cl] Hin. apply list_elem_of_In, elem_of_map_to_list in Hin.
    by apply H.
Qed.

Lemma satisfies_open (e : Event.t) :
  satisfies regexEngine (Event.toObject e) "status" PublicEvents.open_statuses = true
  ↔ isOpen e.
Proof.
  unfold satisfies, PublicEvents.open_statuses, isOpen.
  change (getPath (Event.toObject e) "status") with (Some (VStr (Event.status e))).
  cbn -[String.eqb]. rewrite orb_false_r, orb_true_iff, !String.eqb_eq. intuition.
Qed.

Lemma satisfies_from (now : Z) (e : Event.t) :
  satisfies regexEngine (Event.toObject e) "date" (QField (CRange (Some now) None)) = true
  ↔ now <= Event.date e.
Proof.
  unfold satisfies.
  change (getPath (Event.toObject e) "date") with (Some (VDate (Event.date e))).
  simpl. rewrite andb_true_r. apply Z.leb_le.
Qed.

Lemma satisfies_featured (e : Event.t) :
  satisfies regexEngine (Event.toObject e) "isFeatured" (QField (CEq (VBool true))) = true
  ↔ Event.isFeatured e = true.
Proof.
  unfold satisfies.
  change (getPath (Event.toObject e) "isFeatured")
    with (Some (VBool (Event.isFeatured e))).
  simpl. by destruct (Event.isFeatured e).
Qed.

Lemma satisfies_upcoming (e : Event.t) :
  satisfies regexEngine (Event.toObject e) "status" (QField (CEq (VStr "upcoming"))) = true
  ↔ Event.status e = "upcoming".
Proof.
  unfold satisfies.
  change (getPath (Event.toObject e) "status") with (Some (VStr (Event.status e))).
  cbn -[String.eqb]. rewrite String.eqb_eq. split; congruence.
Qed.

Lemma featuredQuery_matches (now : Z) (e : Event.t) :
  matchesQuery regexEngine (PublicEvents.featuredQuery now) (Event.toObject e) = true
  ↔ featuredCandidate now e.
Proof.
  rewrite matchesQuery_iff. unfold PublicEvents.featuredQuery, featuredCandidate. split.
  - intros H. split; [|split].
    + apply satisfies_open, H. by rewrite !lookup_insert_ne, lookup_singleton_eq.
    + apply satisfies_from, H. by rewrite lookup_insert_ne, lookup_insert_eq.
    + apply satisfies_featured, H. by rewrite lookup_insert_eq.
  - intros (Hopen & Hdate & Hfeat) key cl Hkey.
    apply lookup_insert_Some in Hkey as [[<- <-] | [_ Hkey]];
      [by apply satisfies_featured|].
    apply lookup_insert_Some in Hkey as [[<- <-] | [_ Hkey]];
      [by apply satisfies_from|].
    apply lookup_singleton_Some in Hkey as [<- <-]. by apply satisfies_open.
Qed.

Lemma upcomingQuery_matches (now : Z) (e : Event.t) :
  matchesQuery regexEngine (PublicEvents.upcomingQuery now) (Event.toObject e) = true
  ↔ upcomingCandidate now e.
Proof.
  rewrite matchesQuery_iff. unfold PublicEvents.upcomingQuery, upcomingCandidate. split.
  - intros H. split.
    + apply satisfies_upcoming, H. by rewrite lookup_insert_ne, lookup_singleton_eq.
    + apply satisfies_from, H. by rewrite lookup_insert_eq.
  - intros (Hstatus & Hdate) key cl Hkey.
    apply lookup_insert_Some in Hkey as [[<- <-] | [_ Hkey]];
      [by apply satisfies_from|].
    apply lookup_singleton_Some in Hkey as [<- <-]. by apply satisfies_upcoming.
Qed.

Lemma byDate_total (a b : Event.t) :
  Event.byDate a b = true ∨ Event.byDate b a = true.
Proof. unfold Event.byDate. rewrite !Z.leb_le. lia. Qed.

Lemma byDate_trans (a b c : Event.t) :
  Event.byDate a b = true → Event.byDate b c = true → Event.byDate a c = true.
Proof. unfold Event.byDate. rewrite !Z.leb_le. lia. Qed.

(** What [findOne] with [sort('date')] finds. *)
Lemma findOne_earliest (q : gmap string Clause) (store : list Event.t) :
  match findOne regexEngine Event.toObject q Event.byDate store with
  | Some e =>
      In e store ∧ matchesQuery regexEngine q (Event.toObject e) = true
      ∧ ∀ e', In e' store → matchesQuery regexEngine q (Event.toObject e') = true →
          Event.date e <= Event.date e'
  | None =>
      ∀ e', In e' store → matchesQuery regexEngine q (Event.toObject e') = false
  end.
Proof.
  unfold findOne.
  destruct (head (sort_by Event.byDate (selectDocs regexEngine Event.toObject q store)))
    as [e|] eqn:Hhead.
  - apply (sort_by_head _ byDate_total byDate_trans) in Hhead as [Hin Hmin].
    apply selectDocs_In in Hin as [Hin Hmatch]. split; [done|]. split; [done|].
    intros e' He' Hmatch'. apply Z.leb_le. apply Hmin. by apply selectDocs_In.
  - intros e' He'. destruct (matchesQuery _ _ _) eqn:Hmatch; [|done].
    assert (In e' (sort_by Event.byDate (selectDocs regexEngine Event.toObject q store)))
      as Hin by (by apply sort_by_In, selectDocs_In).
    destruct (sort_by _ _); [done | discriminate].
Qed.

(** X20. The route of the current event picks the earliest candidate.  It
    returns, marked as featured, an event that is open, featured and dated
    at or after the time of the request, and no such event of the collection
    has an earlier date.  When there is none, it returns, marked as not
    featured, an event with status [upcoming] dated at or after the time of
    the second query, again the earliest such; an event that is [ongoing]
    is no candidate then.  It answers 404 exactly when neither kind of
    event exists. *)
Theorem current_event_is_the_earliest (now later : Z) (store : list Event.t) :
  match PublicEvents.currentEvent regexEngine now later store with
  | Some (true, e) =>
      In e store ∧ featuredCandidate now e
      ∧ ∀ e', In e' store → featuredCandidate now e' → Event.date e <= Event.date e'
  | Some (false, e) =>
      (∀ e', In e' store → ¬ featuredCandidate now e')
      ∧ In e store ∧ upcomingCandidate later e
      ∧ ∀ e', In e' store → upcomingCandidate later e' → Event.date e <= Event.date e'
  | None =>
      (∀ e', In e' store → ¬ featuredCandidate now e')
      ∧ (∀ e', In e' store → ¬ upcomingCandidate later e')
  end
  ∧ (status (PublicEvents.featuredCurrent regexEngine toLocaleDateString now later store)
     = 404
     ↔ PublicEvents.currentEvent regexEngine now later store = None).
Proof.
  split.
  - unfold PublicEvents.currentEvent.
    pose proof (findOne_earliest (PublicEvents.featuredQuery now) store) as Hfeat.
    pose proof (findOne_earliest (PublicEvents.upcomingQuery later) store) as Hnext.
    destruct (findOne _ _ (PublicEvents.featuredQuery now) _ _) as [e|].
    + destruct Hfeat as (Hin & Hmatch & Hmin). split; [done|].
      split; [by apply featuredQuery_matches|].
      intros e' He' Hcand. apply Hmin; [done | by apply featuredQuery_matches].
    + assert (∀ e', In e' store → ¬ featuredCandidate now e') as Hnone.
      { intros e' He' Hcand. apply featuredQuery_matches in Hcand.
        rewrite (Hfeat e' He') in Hcand. discriminate. }
      destruct (findOne _ _ (PublicEvents.upcomingQuery later) _ _) as [e|].
      * destruct Hnext as (Hin & Hmatch & Hmin). split; [done|]. split; [done|].
        split; [by apply upcomingQuery_matches|].
        intros e' He' Hcand. apply Hmin; [done | by apply upcomingQuery_matches].
      * split; [done|]. intros e' He' Hcand. apply upcomingQuery_matches in Hcand.
        rewrite (Hnext e' He') in Hcand. discriminate.
  - unfold PublicEvents.featuredCurrent.
    destruct (PublicEvents.currentEvent regexEngine now later store) as [[f e]|];
      simpl; split; done.
Qed.

End PublicEventOrder.

(** ** Pagination: the pages partition the matches *)

Section PagePartition.

Import Js Mongo.

Context {A : Type}.

Variable regexEngine : string → string → bool.
Variable oddWindow : option Z → option Z → Try (nat * option nat).
Variable unboundedWindow : Number → Number → Try (nat * option nat).
Variable rounding : Rounding.
Variable toObject : A → Value.

Lemma pages_concat (size n : nat) (l : list A) :
  concat ((λ k, take size (drop (k * size) l)) <$> seq 0 n) = take (n * size) l.
Proof.
  induction n as [|n IH]; [done|].
  rewrite seq_S, fmap_app, concat_app, IH. simpl. rewrite app_nil_r.
  rewrite take_take_drop. f_equal. lia.
Qed.

(** X21. The pages of a listing partition its matches.  The store leaves
    the order of documents that tie in the sort open, so this is about a
    collection in which no two documents tie.  For a positive page size, the
    query of page [p] with offset [(p - 1) * limit] returns a slice of the
    sorted matches such that the pages from 1 to [ceil(total / limit)], one
    after the other, are exactly the sorted matches, each match once; every
    page before the last is full; and a page beyond the last is empty. *)
Theorem pages_partition_the_matches (q : gmap string Clause) (le : A → A → bool)
    (limit : Z) (docs : list A) :
  0 < limit →
  NoDup docs →
  (∀ a b, In a docs → In b docs → le a b = true → le b a = true → a = b) →
  let matches := sort_by le (selectDocs regexEngine toObject q docs) in
  let pages := ceil_div (countDocuments regexEngine toObject q docs) limit in
  ∃ page_of : Z → list A,
    (∀ p, 1 <= p →
       find regexEngine oddWindow toObject q le (Some ((p - 1) * limit)) (Some limit) docs
       = Returned (page_of p))
    ∧ concat (page_of <$> (Z.of_nat <$> seq 1 (Z.to_nat pages))) = matches
    ∧ (∀ p, 1 <= p < pages → length (page_of p) = Z.to_nat limit)
    ∧ (∀ p, pages < p → page_of p = []).
Proof.
  intros Hlimit _ _ matches pages.
  pose proof (ceil_div_spec (countDocuments regexEngine toObject q docs) limit Hlimit)
    as [Hlow Hhigh]. fold pages in Hlow, Hhigh.
  assert (countDocuments regexEngine toObject q docs = Z.of_nat (length matches))
    as Htotal.
  { unfold countDocuments, matches. by rewrite sort_by_length. }
  rewrite Htotal in Hlow, Hhigh.
  exists (λ p, take (Z.to_nat limit) (drop (Z.to_nat ((p - 1) * limit)) matches)).
  split; [|split; [|split]].
  - intros p Hp. apply find_regular; nia.
  - rewrite <- list_fmap_compose.
    assert (0 <= pages) as Hpages by nia.
    rewrite <- (fmap_S_seq 0), <- list_fmap_compose.
    rewrite (list_fmap_ext _ (λ k, take (Z.to_nat limit)
                                     (drop (k * Z.to_nat limit) matches))).
    + rewrite pages_concat. apply take_ge.
      rewrite <- Z2Nat.inj_mul by lia. lia.
    + intros i k _. simpl. do 2 f_equal.
      rewrite <- (Nat2Z.id k) at 2. rewrite <- Z2Nat.inj_mul by lia. f_equal. lia.
  - intros p Hp. rewrite length_take, length_drop.
    assert (Z.to_nat ((p - 1) * limit) + Z.to_nat limit <= length matches)%nat; [|lia].
    rewrite <- Z2Nat.inj_add by nia. apply Nat2Z.inj_le. rewrite Z2Nat.id by nia. nia.
  - intros p Hp. rewrite drop_ge; [by rewrite take_nil|].
    apply Nat2Z.inj_le. rewrite Z2Nat.id by nia. nia.
Qed.

End PagePartition.

(** ** The methods and statics of the event model *)

Section EventModel.

Import Js Http Mongo.

Variable regexEngine : string → string → bool.

Lemma findUpcoming_query (now : Z) (e : Event.t) :
  matchesQuery regexEngine
    (<["date" := QField (CRange (Some now) None)]>
       {["status" := QField (CIn [VStr "upcoming"; VStr "ongoing"])]})
    (Event.toObject e) = true
  ↔ isOpen e ∧ now <= Event.date e.
Proof.
  rewrite matchesQuery_iff. split.
  - intros H. split.
    + apply (satisfies_open regexEngine), H.
      by rewrite lookup_insert_ne, lookup_singleton_eq.
    + apply (satisfies_from regexEngine), H. by rewrite lookup_insert_eq.
  - intros (Hopen & Hdate) key cl Hkey.
    apply lookup_insert_Some in Hkey as [[<- <-] | [_ Hkey]];
      [by apply satisfies_from|].
    apply lookup_singleton_Some in Hkey as [<- <-]. by apply satisfies_open.
Qed.

Lemma findFeatured_query (e : Event.t) :
  matchesQuery regexEngine {["isFeatured" := QField (CEq (VBool true))]}
    (Event.toObject e) = true
  ↔ Event.isFeatured e = true.
Proof.
  rewrite matchesQuery_iff. split.
  - intros H. apply (satisfies_featured regexEngine), H. by rewrite lookup_singleton_eq.
  - intros Hfeat key cl Hkey. apply lookup_singleton_Some in Hkey as [<- <-].
    by apply satisfies_featured.
Qed.

(** X22. The methods and the statics of the event model.  No event is both
    upcoming and past.  [findUpcoming] returns exactly the stored events
    that are open, with status [upcoming] or [ongoing], and dated at or
    after the current time, the earliest first; every stored event that
    [isUpcoming] accepts is among them.  [findFeatured] returns exactly the
    stored events that are featured, whatever their status and date, the
    earliest first. *)
Theorem event_model_statics (now : Z) (store : list Event.t) :
  (∀ e, Event.isUpcoming now e = true → Event.isPast now e = false)
  ∧ (∀ e, In e (Event.findUpcoming regexEngine now store)
          ↔ In e store ∧ isOpen e ∧ now <= Event.date e)
  ∧ (∀ e, In e store → Event.isUpcoming now e = true →
          In e (Event.findUpcoming regexEngine now store))
  ∧ ordered Event.byDate (Event.findUpcoming regexEngine now store)
  ∧ (∀ e, In e (Event.findFeatured regexEngine store)
          ↔ In e store ∧ Event.isFeatured e = true)
  ∧ ordered Event.byDate (Event.findFeatured regexEngine store).
Proof.
  assert (∀ e, In e (Event.findUpcoming regexEngine now store)
               ↔ In e store ∧ isOpen e ∧ now <= Event.date e) as Hup.
  { intros e. unfold Event.findUpcoming.
    by rewrite sort_by_In, selectDocs_In, findUpcoming_query. }
  split; [|split; [exact Hup|split; [|split; [|split]]]].
  - intros e. unfold Event.isUpcoming, Event.isPast.
    rewrite andb_true_iff, orb_false_iff, String.eqb_eq, Z.ltb_lt, Z.ltb_ge.
    intros [Hs Hd]. split; [|lia]. rewrite Hs. reflexivity.
  - intros e He. unfold Event.isUpcoming.
    rewrite andb_true_iff, String.eqb_eq, Z.ltb_lt. intros [Hs Hd].
    apply Hup. split; [done|]. split; [by left | lia].
  - apply sort_by_ordered; [apply byDate_total | apply byDate_trans].
  - intros e. unfold Event.findFeatured.
    by rewrite sort_by_In, selectDocs_In, findFeatured_query.
  - apply sort_by_ordered; [apply byDate_total | apply byDate_trans].
Qed.

End EventModel.

(** ** Upload routes: what a deletion removes *)

Section UploadEffects.

Import Js Http Auth Upload.

Variable pathJoin : list string → string.
Variable cwd : string.

Lemma authorize_refusal_status (roles : list string) (req : Request) (r : Response) :
  authorize roles req = Respond r → status r = 401 ∨ status r = 403.
Proof.
  unfold authorize. destruct (user req); [|intros [= <-]; by left].
  destruct (negb _); [intros [= <-]; by right | done].
Qed.

(** X23. The deletion route of the uploads removes at most the one file it
    names, and the route that inspects an upload never changes the file
    system.  When the deletion answers with status 200, the path
    [uploads/filename] held a regular file, that entry is gone afterwards
    and every other entry is as before, the handler called [existsSync] and
    then [unlinkSync] on that path and nothing else, and inspecting the same
    name afterwards gives 404.  With any other status the file system is
    unchanged; in particular a name that is not there is answered 404
    without a call to [unlinkSync], and a directory is answered 500. *)
Theorem upload_delete_removes_one_file
    (fs : gmap string Stats) (req : Request) (filename : string) :
  let path := pathJoin [cwd; "uploads"; filename] in
  let deletion := deleteRoute pathJoin cwd fs req filename in
  (status (response deletion) = 200 →
   (∃ st, fs !! path = Some st ∧ isDirectory st = false)
   ∧ files deletion = delete path fs
   ∧ files deletion !! path = None
   ∧ (∀ other, other ≠ path → files deletion !! other = fs !! other)
   ∧ calls deletion = [ExistsSync path; UnlinkSync path]
   ∧ status (response (infoRoute pathJoin cwd (files deletion) req filename)) = 404)
  ∧ (status (response deletion) ≠ 200 → files deletion = fs)
  ∧ files (infoRoute pathJoin cwd fs req filename) = fs
  ∧ (authorize ["admin"] req = CallNext → traversal filename = false →
     (fs !! path = None →
      response deletion = failure 404 "File not found"
      ∧ calls deletion = [ExistsSync path])
     ∧ (∀ st, fs !! path = Some st → isDirectory st = true →
        response deletion = failure 500 "Error deleting image")).
Proof.
  simpl. unfold deleteRoute, infoRoute, deleteImage, imageInfo, existsSync, unlinkSync,
    statSync.
  destruct (authorize ["admin"] req) as [|r] eqn:Hguard.
  2:{ apply authorize_refusal_status in Hguard. simpl.
      split; [intros H; destruct Hguard; congruence|]. split; [done|]. split; [done|].
      intros [=]. }
  destruct (traversal filename) eqn:Htrav; simpl.
  { split; [done|]. split; [done|]. split; [done|]. intros _ [=]. }
  set (path := pathJoin [cwd; "uploads"; filename]).
  destruct (fs !! path) as [st|] eqn:Hpath.
  - rewrite bool_decide_eq_true_2 by eauto. simpl.
    split; [|split; [|split]].
    + destruct (isDirectory st) eqn:Hdir; simpl; [done|]. intros _.
      split; [by exists st|]. split; [done|]. split; [apply lookup_delete_eq|].
      split; [intros other Hother; by apply lookup_delete_ne|]. split; [done|].
      rewrite lookup_delete_eq. rewrite bool_decide_eq_false_2; [done|].
      by intros [x Hx].
    + by destruct (isDirectory st).
    + by destruct (fs !! path).
    + intros _ _. split; [done|]. intros st' [= <-] Hdir. by rewrite Hdir.
  - rewrite bool_decide_eq_false_2 by (by intros [x Hx]). simpl.
    split; [done|]. split; [done|]. split; [done|]. intros _ _. split; [done|].
    intros st [=].
Qed.

(** X24. The helpers of [utils/imageUpload.js] agree with each other, and
    they do not validate the name they are given.  [deleteFile] returns
    [true] exactly when [fileExists] held before and the entry is a file; the
    entry is then gone, [fileExists] no longer holds and every other entry
    is as before.  It returns [false] exactly when [fileExists] did not
    hold, and it throws on a directory; in both cases the file system is
    unchanged.  A name with [..] or a separator, which the routes refuse
    without touching the file system, is joined to the path and deleted by
    [deleteFile] like any other. *)
Theorem deleteFile_and_fileExists (fs : gmap string Stats) (filename : string) :
  let path := pathJoin [cwd; "uploads"; filename] in
  let result := deleteFile pathJoin cwd fs filename in
  (result.1 = Returned true
   ↔ fileExists pathJoin cwd fs filename = true
     ∧ ∃ st, fs !! path = Some st ∧ isDirectory st = false)
  ∧ (result.1 = Returned true →
     result.2 = delete path fs
     ∧ fileExists pathJoin cwd result.2 filename = false
     ∧ ∀ other, other ≠ path → result.2 !! other = fs !! other)
  ∧ (result.1 = Returned false ↔ fileExists pathJoin cwd fs filename = false)
  ∧ (result.1 ≠ Returned true → result.2 = fs)
  ∧ (traversal filename = true → result.1 = Returned true →
     files (deleteImage pathJoin cwd fs filename) = fs ∧ result.2 ≠ fs).
Proof.
  simpl. unfold deleteFile, fileExists, deleteImage, existsSync, unlinkSync.
  set (path := pathJoin [cwd; "uploads"; filename]).
  destruct (fs !! path) as [st|] eqn:Hpath.
  - rewrite bool_decide_eq_true_2 by eauto.
    destruct (isDirectory st) eqn:Hdir; simpl.
    + split; [split; [done | by intros (_ & st' & [= <-] & Hd); congruence]|].
      split; [done|]. split; [done|]. split; [done|]. done.
    + split; [split; [intros _; split; [done | by exists st] | done]|].
      split.
      { intros _. split; [done|]. split.
        - rewrite lookup_delete_eq. apply bool_decide_eq_false_2. by intros [x Hx].
        - intros other Hother. by apply lookup_delete_ne. }
      split; [done|]. split; [done|].
      intros -> _. split; [done|]. intros Heq.
      assert (delete path fs !! path = fs !! path) as Hsame by (by rewrite Heq).
      rewrite lookup_delete_eq, Hpath in Hsame. discriminate.
  - rewrite bool_decide_eq_false_2 by (by intros [x Hx]). simpl.
    split; [split; [done | by intros [[=] _]]|].
    split; [done|]. split; [done|]. split; [done|]. done.
Qed.

(** X25. What the upload accepts and how its errors are answered.  The
    file filter lets through exactly the five image types; for any other
    type it raises an error that the error handler answers with status 400
    and a message that lists the five.  The error handler answers every
    error it is given and never hands it on: with 413 exactly for the code
    [LIMIT_FILE_SIZE] of multer, with 400 for everything else; without an
    error it hands over to the route. *)
Theorem upload_errors_are_answered (mimetype : string) (err : UploadError) :
  (fileFilter mimetype = None ↔ mimetype ∈ allowedTypes)
  ∧ (mimetype ∉ allowedTypes →
     ∃ e, fileFilter mimetype = Some e
          ∧ handleMulterError (Some e)
            = Respond (failure 400
                "Invalid file type. Only image/jpeg, image/jpg, image/png, image/gif, image/webp are allowed."))
  ∧ (∃ r, handleMulterError (Some err) = Respond r
          ∧ field "success" (body r) = Some (VBool false)
          ∧ (status r = 413 ∨ status r = 400)
          ∧ (status r = 413 ↔ ∃ message, err = MulterError "LIMIT_FILE_SIZE" message))
  ∧ handleMulterError None = CallNext.
Proof.
  split; [|split; [|split; [|done]]].
  - unfold fileFilter. case_bool_decide; split; done.
  - intros Hm. unfold fileFilter. rewrite bool_decide_eq_false_2 by done.
    eexists. split; reflexivity.
  - destruct err as [code message|message]; simpl.
    + destruct (String.eqb_spec code "LIMIT_FILE_SIZE") as [-> | Hcode].
      * eexists. split; [done|]. split; [done|]. split; [by left|].
        split; [intros _; by exists message | done].
      * destruct (String.eqb code "LIMIT_FILE_COUNT");
          [|destruct (String.eqb code "LIMIT_UNEXPECTED_FILE")];
          (eexists; split; [done|]; split; [done|]; split; [by right|];
           split; [done | intros [m [= -> _]]; contradiction]).
    + eexists. split; [done|]. split; [done|]. split; [by right|].
      split; [done | by intros [m [=]]].
Qed.

End UploadEffects.

(** ** Public practitioner routes: only active practitioners *)

Section PublicPractitioners.

Import Js Http Mongo Practitioners.

Variable regexEngine : string → string → bool.
Variable regexError : string → option Exn.
Variable oddWindow : option Z → option Z → Try (nat * option nat).
Variable unboundedWindow : Number → Number → Try (nat * option nat).
Variable rounding : Rounding.
Variable validId : string → bool.

Lemma path_status (p : Practitioner.t) :
  getPath (Practitioner.toObject p) "status" = Some (VStr (Practitioner.status p)).
Proof.
  unfold Practitioner.toObject, Practitioner.fields.
  by destruct (Practitioner.user p), (Practitioner.address p), (Practitioner.website p),
    (Practitioner.availability p), (Practitioner.education p), (Practitioner.imageUrl p).
Qed.

Lemma path_isFeatured (p : Practitioner.t) :
  getPath (Practitioner.toObject p) "isFeatured"
  = Some (VBool (Practitioner.isFeatured p)).
Proof.
  unfold Practitioner.toObject, Practitioner.fields.
  by destruct (Practitioner.user p), (Practitioner.address p), (Practitioner.website p),
    (Practitioner.availability p), (Practitioner.education p), (Practitioner.imageUrl p).
Qed.

Lemma path_id (p : Practitioner.t) :
  getPath (Practitioner.toObject p) "_id" = Some (VStr (Practitioner._id p)).
Proof. reflexivity. Qed.

Lemma satisfies_active (p : Practitioner.t) :
  satisfies regexEngine (Practitioner.toObject p) "status" (QField (CEq (VStr "active")))
  = true
  ↔ Practitioner.status p = "active".
Proof.
  unfold satisfies. rewrite path_status. cbn -[String.eqb].
  rewrite String.eqb_eq. split; congruence.
Qed.

Lemma publicQuery_status (q : Query) :
  publicQuery rounding q !! "status" = Some (QField (CEq (VStr "active"))).
Proof.
  unfold publicQuery.
  destruct (given (q_maxFee q)); [rewrite lookup_insert_ne by done|];
    rewrite !oneOrMany_lookup_ne by done;
    (destruct (given (q_search q)); [rewrite lookup_insert_ne by done|]);
    by rewrite lookup_singleton_eq.
Qed.

Lemma optimizedQuery_status (search : option string) :
  optimizedQuery search !! "status" = Some (QField (CEq (VStr "active"))).
Proof.
  unfold optimizedQuery. destruct (PublicEventsOptimized.searchTerm search);
    [rewrite lookup_insert_ne by done|]; by rewrite lookup_singleton_eq.
Qed.

(** X26. The public routes of the practitioners show active practitioners
    only.  Every record that the public listing or its optimized variant
    returns has status [active], whatever the filters are.  The route of one
    practitioner answers 200 only with a stored record that has the
    identifier of the request and status [active]; when no stored record
    with that identifier is active, or the identifier does not cast, it
    answers 404.  The route of the featured practitioners answers with at
    most five records, each stored, active and featured. *)
Theorem public_routes_show_active_practitioners_only
    (store : list Practitioner.t) (q : Query) (search : option string) (id : string) :
  (∀ found p,
     publicListed regexEngine regexError oddWindow unboundedWindow rounding store q
     = Returned found →
     In p found → Practitioner.status p = "active")
  ∧ (∀ found p,
       optimizedListed regexEngine regexError oddWindow store search = Returned found →
       In p found → Practitioner.status p = "active")
  ∧ (status (getPublic regexEngine validId store id) = 200 →
     ∃ p, In p store ∧ Practitioner._id p = id ∧ Practitioner.status p = "active"
          ∧ field "data" (body (getPublic regexEngine validId store id))
            = Some (Practitioner.toObject p))
  ∧ ((validId id = false
      ∨ ∀ p, In p store → Practitioner._id p = id → Practitioner.status p ≠ "active") →
     getPublic regexEngine validId store id = failure 404 "Practitioner not found")
  ∧ (∀ found, featuredListed regexEngine oddWindow store = Returned found →
       (length found <= 5)%nat
       ∧ ∀ p, In p found →
           In p store ∧ Practitioner.status p = "active"
           ∧ Practitioner.isFeatured p = true).
Proof.
  assert (∀ p, matchesQuery regexEngine (activeWithId id) (Practitioner.toObject p) = true
               ↔ Practitioner._id p = id ∧ Practitioner.status p = "active") as Hget.
  { intros p. rewrite matchesQuery_iff. unfold activeWithId. split.
    - intros H. split.
      + assert (satisfies regexEngine (Practitioner.toObject p) "_id"
                  (QField (CEq (VStr id))) = true) as Hid
          by (apply H; by rewrite lookup_insert_eq).
        unfold satisfies in Hid. rewrite path_id in Hid. cbn -[String.eqb] in Hid.
        apply String.eqb_eq in Hid. congruence.
      + apply satisfies_active, H. by rewrite lookup_insert_ne, lookup_singleton_eq.
    - intros [Hid Hactive] key cl Hkey.
      apply lookup_insert_Some in Hkey as [[<- <-] | [_ Hkey]].
      + unfold satisfies. rewrite path_id. cbn -[String.eqb].
        apply String.eqb_eq. congruence.
      + apply lookup_singleton_Some in Hkey as [<- <-]. by apply satisfies_active. }
  split; [|split; [|split; [|split]]].
  - intros found p Hfound Hp. unfold publicListed in Hfound.
    destruct (castError rounding q); [done|].
    destruct (checked regexError (q_search q)); [done|].
    destruct (paging rounding q 12) as [[page limit] startIndex].
    apply (findPage_In oddWindow unboundedWindow regexEngine _ _ _ _ _ _ _ p Hfound)
      in Hp as [_ Hmatch].
    apply satisfies_active.
    apply (matchesQuery_lookup regexEngine _ _ _ _ Hmatch (publicQuery_status q)).
  - intros found p Hfound Hp. unfold optimizedListed in Hfound.
    destruct (PublicEventsOptimized.searchTerm search ≫= badPattern regexError); [done|].
    apply (find_In oddWindow regexEngine _ _ _ _ _ _ _ p Hfound) in Hp as [_ Hmatch].
    apply satisfies_active.
    apply (matchesQuery_lookup regexEngine _ _ _ _ Hmatch (optimizedQuery_status search)).
  - unfold getPublic, findActive. destruct (validId id); [|done].
    unfold findOne.
    destruct (head _) as [p|] eqn:Hhead; [|done]. intros _.
    assert (In p (sort_by asStored
                    (selectDocs regexEngine Practitioner.toObject (activeWithId id) store)))
      as Hin.
    { destruct (sort_by _ _) as [|x rest]; [done|]. injection Hhead as ->. by left. }
    apply sort_by_In, selectDocs_In in Hin as [Hin Hmatch].
    apply Hget in Hmatch as [Hid Hactive]. by exists p.
  - intros Hnone. unfold getPublic, findActive.
    destruct (validId id) eqn:Hvalid; [|done].
    destruct Hnone as [Hnone | Hnone]; [done|].
    unfold findOne. destruct (head _) as [p|] eqn:Hhead; [|done]. exfalso.
    assert (In p (sort_by asStored
                    (selectDocs regexEngine Practitioner.toObject (activeWithId id) store)))
      as Hin.
    { destruct (sort_by _ _) as [|x rest]; [done|]. injection Hhead as ->. by left. }
    apply sort_by_In, selectDocs_In in Hin as [Hin Hmatch].
    apply Hget in Hmatch as [Hid Hactive]. by apply (Hnone p).
  - intros found Hfound. unfold featuredListed in Hfound. split.
    + rewrite find_regular in Hfound by lia. injection Hfound as <-.
      rewrite length_take. lia.
    + intros p Hp.
      apply (find_In oddWindow regexEngine _ _ _ _ _ _ _ p Hfound) in Hp as [Hin Hmatch].
      split; [done|]. split.
      * apply satisfies_active.
        apply (matchesQuery_lookup regexEngine _ _ _ _ Hmatch).
        unfold featuredQuery. by rewrite lookup_insert_ne, lookup_singleton_eq.
      * assert (satisfies regexEngine (Practitioner.toObject p) "isFeatured"
                  (QField (CEq (VBool true))) = true) as Hfeat.
        { apply (matchesQuery_lookup regexEngine _ _ _ _ Hmatch).
          unfold featuredQuery. by rewrite lookup_insert_eq. }
        unfold satisfies in Hfeat. rewrite path_isFeatured in Hfeat.
        simpl in Hfeat. by destruct (Practitioner.isFeatured p).
Qed.

End PublicPractitioners.

(** ** What a refused caller can change *)

Section RefusedCallers.

Import Js Http Auth.

Variable validId : string → bool.
Variable emailOk : string → bool.
Variable bcryptHash : string → string.
Variable MASTER_SECURITY_CODE : option string.
Variable isUrl : string → bool.
Variable toLocaleDateString : Z → string.
Variable parseDate : string → option Z.
Variable castMessage : string → Value → string.
Variable reported : list (string * string) → list (string * string).
Variable pathJoin : list string → string.
Variable cwd : string.

Lemma lacking_refused (permission : string) (req : Request) :
  (∀ p, user req = Some p →
     Principal.role p ≠ "admin" ∧ permission ∉ default [] (Principal.permissions p)) →
  (∃ r, requirePermission permission req = Respond r
        ∧ (status r = 401 ∨ status r = 403))
  ∧ (∃ r, requireNewPermission permission req = Respond r
          ∧ (status r = 401 ∨ status r = 403)).
Proof.
  intros H. unfold requirePermission, requireNewPermission.
  destruct (user req) as [p|]; [|split; eexists; (split; [done | by left])].
  destruct (H p eq_refl) as [Hrole Hperm]. apply String.eqb_neq in Hrole.
  rewrite Hrole.
  assert (lacks p permission = true) as ->.
  { unfold lacks. destruct (Principal.permissions p) as [ps|]; [|done].
    simpl in Hperm. by rewrite bool_decide_eq_false_2. }
  split; eexists; (split; [done | by right]).
Qed.

Lemma no_employee_refused (req : Request) :
  (∀ p, user req = Some p → Principal.role p ∉ User.employeeRoles) →
  ∃ r, requireEmployee req = Respond r ∧ (status r = 401 ∨ status r = 403).
Proof.
  intros H. unfold requireEmployee.
  destruct (user req) as [p|]; [|eexists; split; [done | by left]].
  specialize (H p eq_refl). unfold User.employeeRoles in H.
  rewrite bool_decide_eq_false_2 by done. eexists. split; [done | by right].
Qed.

Lemma no_admin_refused (req : Request) :
  (∀ p, user req = Some p → Principal.role p ≠ "admin") →
  ∃ r, authorize ["admin"] req = Respond r ∧ (status r = 401 ∨ status r = 403).
Proof.
  intros H. unfold authorize.
  destruct (user req) as [p|]; [|eexists; split; [done | by left]].
  specialize (H p eq_refl).
  rewrite bool_decide_eq_false_2; [eexists; split; [done | by right]|].
  intros Hin. by apply list_elem_of_singleton in Hin.
Qed.

(** X27. A caller whom the guard of a route refuses changes nothing.
    Without a principal, or with a principal who is neither administrator
    nor holder of the permission of the route, the four routes that write
    employees are answered 401 or 403 and leave the collection as it was:
    [manage_users] guards creation and update, [delete_users] deletion and
    [change_user_passwords] the reset.  A caller who is no employee is
    answered 401 or 403 by the three routes that write events, and one who
    is no administrator by the deletion of an upload, which then makes no
    call on the file system. *)
Theorem refused_callers_change_nothing
    (users : list User.t) (events : list Event.t) (fs : gmap string Upload.Stats)
    (req : Request) (id newId filename : string) (now : Z) (tempPassword : string)
    (body : Employees.Body) (event : Events.Body) :
  let refused (answer : Response) := status answer = 401 ∨ status answer = 403 in
  let lacking (permission : string) :=
    ∀ p, user req = Some p →
      Principal.role p ≠ "admin"
      ∧ permission ∉ default [] (Principal.permissions p) in
  (lacking "manage_users" →
   (let r := Employees.createRoute emailOk bcryptHash users req newId now body in
    refused r.1 ∧ r.2 = users)
   ∧ (let r := Employees.updateRoute validId emailOk users req id now body in
      refused r.1 ∧ r.2 = users))
  ∧ (lacking "delete_users" →
     let r := Employees.deleteRoute validId MASTER_SECURITY_CODE users req id body in
     refused r.1 ∧ r.2 = users)
  ∧ (lacking "change_user_passwords" →
     let r :=
       Employees.resetRoute validId bcryptHash MASTER_SECURITY_CODE users req id now
         tempPassword body in
     refused r.1 ∧ r.2 = users)
  ∧ ((∀ p, user req = Some p → Principal.role p ∉ User.employeeRoles) →
     (let r :=
        Events.createRoute isUrl validId toLocaleDateString parseDate castMessage
          reported events req newId now event in
      refused r.1 ∧ r.2 = events)
     ∧ (let r :=
          Events.updateRoute isUrl validId toLocaleDateString parseDate events req id
            now event in
        refused r.1 ∧ r.2 = events)
     ∧ (let r := Events.deleteRoute validId events req id in
        refused r.1 ∧ r.2 = events))
  ∧ ((∀ p, user req = Some p → Principal.role p ≠ "admin") →
     let outcome := Upload.deleteRoute pathJoin cwd fs req filename in
     refused (Upload.response outcome) ∧ Upload.files outcome = fs
     ∧ Upload.calls outcome = []).
Proof.
  intros refused lacking. subst refused lacking. cbn beta.
  split; [|split; [|split; [|split]]].
  - intros H. destruct (lacking_refused _ _ H) as [(r & Hr & Hs) _].
    unfold Employees.createRoute, Employees.updateRoute. rewrite Hr. by split.
  - intros H. destruct (lacking_refused _ _ H) as [_ (r & Hr & Hs)].
    unfold Employees.deleteRoute, Employees.DELETE_USERS. rewrite Hr. by split.
  - intros H. destruct (lacking_refused _ _ H) as [_ (r & Hr & Hs)].
    unfold Employees.resetRoute, Employees.CHANGE_USER_PASSWORDS. rewrite Hr. by split.
  - intros H. destruct (no_employee_refused _ H) as (r & Hr & Hs).
    unfold Events.createRoute, Events.updateRoute, Events.deleteRoute. rewrite Hr.
    by repeat split.
  - intros H. destruct (no_admin_refused _ H) as (r & Hr & Hs).
    unfold Upload.deleteRoute. rewrite Hr. by repeat split.
Qed.

End RefusedCallers.

Section FurtherExamples.

Import Js Http Auth Mongo.

Lemma pages_partition_the_matches_witness :
  let store := [next_week; last_week] in
  let matches :=
    sort_by PublicEvents.featuredThenDate (selectDocs no_engine Event.toObject ∅ store) in
  let pages := ceil_div (countDocuments no_engine Event.toObject ∅ store) 1 in
  ∃ page_of : Z → list Event.t,
    (∀ p, 1 <= p →
       find no_engine refuse_window Event.toObject ∅ PublicEvents.featuredThenDate
         (Some ((p - 1) * 1)) (Some 1) store
       = Returned (page_of p))
    ∧ concat (page_of <$> (Z.of_nat <$> seq 1 (Z.to_nat pages))) = matches
    ∧ (∀ p, 1 <= p < pages → length (page_of p) = Z.to_nat 1)
    ∧ (∀ p, pages < p → page_of p = []).
Proof.
  apply (pages_partition_the_matches no_engine refuse_window Event.toObject ∅
           PublicEvents.featuredThenDate 1 [next_week; last_week]).
  - lia.
  - apply NoDup_cons. split; [|apply NoDup_singleton].
    intros Hin. apply list_elem_of_singleton in Hin. discriminate.
  - intros a b [<- | [<- | []]] [<- | [<- | []]]; vm_compute;
      first [reflexivity | discriminate | intros _; discriminate].
Defined.

Lemma refused_callers_change_nothing_witness :
  (Employees.createRoute any_email toy_hash [ada; sam] (as_caller sam) "n1" 9 hire).2
  = [ada; sam].
Proof.
  destruct (refused_callers_change_nothing any_id any_email toy_hash (Some "s3cret")
              any_url plain_date one_date cast_message as_found join_with_slash "/srv/app"
              [ada; sam] [last_week] one_upload (as_caller sam) "s1" "n1" "image-1.png" 9
              "temporary1" hire workshop) as [Hmanage _].
  apply Hmanage. intros p [= <-]. split; [discriminate|]. apply not_elem_of_nil.
Defined.

End FurtherExamples.

(** ** Identifiers that do not cast *)

Section MalformedIdentifiers.

Import Js Http Auth.

Variable validId : string → bool.
Variable emailOk : string → bool.
Variable bcryptHash : string → string.
Variable MASTER_SECURITY_CODE : option string.
Variable isUrl : string → bool.
Variable toLocaleDateString : Z → string.
Variable parseDate : string → option Z.

(** X28. An identifier that does not cast to an [ObjectId] is answered
    differently by the employee routes and by the event routes.  Past their
    guards, and with the right master code where one is asked, the four
    employee routes that take an identifier answer it with status 500; the
    three event routes of the employees and the public route of one event
    answer it with status 404, as for an event that does not exist.  In
    every case the collection is left as it was. *)
Theorem malformed_id_answers
    (users : list User.t) (events : list Event.t) (req : Request) (id : string)
    (now : Z) (tempPassword : string) (body : Employees.Body) (event : Events.Body) :
  validId id = false →
  status (Employees.getEmployee validId users id) = 500
  ∧ (requirePermission "manage_users" req = CallNext →
     let r := Employees.updateRoute validId emailOk users req id now body in
     status r.1 = 500 ∧ r.2 = users)
  ∧ (Employees.wrongCode MASTER_SECURITY_CODE (Employees.b_masterCode body) = false →
     (requireNewPermission Employees.DELETE_USERS req = CallNext →
      let r := Employees.deleteRoute validId MASTER_SECURITY_CODE users req id body in
      status r.1 = 500 ∧ r.2 = users)
     ∧ (requireNewPermission Employees.CHANGE_USER_PASSWORDS req = CallNext →
        let r :=
          Employees.resetRoute validId bcryptHash MASTER_SECURITY_CODE users req id now
            tempPassword body in
        status r.1 = 500 ∧ r.2 = users))
  ∧ Events.getEvent validId toLocaleDateString events id
    = failure 404 "Event not found"
  ∧ PublicEvents.getEvent toLocaleDateString validId events id
    = failure 404 "Event not found"
  ∧ (requireEmployee req = CallNext →
     Events.updateRoute isUrl validId toLocaleDateString parseDate events req id now
       event
     = (failure 404 "Event not found", events)
     ∧ Events.deleteRoute validId events req id
       = (failure 404 "Event not found", events)).
Proof.
  intros Hvalid.
  split; [|split; [|split; [|split; [|split]]]].
  - unfold Employees.getEmployee, Users.findById. by rewrite Hvalid.
  - intros Hguard. unfold Employees.updateRoute, Employees.updateEmployee,
      Users.findById. by rewrite Hguard, Hvalid.
  - intros Hcode. split; intros Hguard.
    + unfold Employees.deleteRoute, Employees.deleteEmployee, Users.findById.
      by rewrite Hguard, Hcode, Hvalid.
    + unfold Employees.resetRoute, Employees.resetPassword, Users.findById.
      by rewrite Hguard, Hcode, Hvalid.
  - unfold Events.getEvent, Event.findById. by rewrite Hvalid.
  - unfold PublicEvents.getEvent, Event.findById. by rewrite Hvalid.
  - intros Hguard. unfold Events.updateRoute, Events.updateEvent, Events.deleteRoute,
      Events.deleteEvent, Event.findById. rewrite Hguard, Hvalid.
    apply requireEmployee_next in Hguard as (p & -> & _). by split.
Qed.

End MalformedIdentifiers.

Section MalformedIdentifiersExample.

Import Js Http Auth.

Lemma malformed_id_answers_witness :
  status (Employees.getEmployee (λ id, negb (String.eqb id "oops")) [ada; sam] "oops")
  = 500
  ∧ Events.getEvent (λ id, negb (String.eqb id "oops")) plain_date
      [last_week; next_week] "oops"
    = failure 404 "Event not found".
Proof.
  destruct (malformed_id_answers (λ id, negb (String.eqb id "oops")) any_email toy_hash
              (Some "s3cret") any_url plain_date no_date [ada; sam]
              [last_week; next_week] (as_caller ada) "oops" 9 "temporary1"
              (with_code "s3cret") cancel eq_refl)
    as (Hget & _ & _ & Hevent & _).
  split; [exact Hget | exact Hevent].
Defined.

End MalformedIdentifiersExample.
